(** * ahrefs-mcp-server: the call-tool handler of [src/server.ts]

    A shallow embedding of the request handler registered for
    [CallToolRequestSchema], of [mapApiErrorToMcpError], and of the
    JavaScript primitives they call, followed by the properties of the
    dispatch and translation path.

    Conventions of the embedding.
    - A JavaScript string is its text in the generalized UTF-8 encoding
      (WTF-8), a [string] of bytes: well-formed text is its UTF-8, and a
      lone surrogate is the three bytes [ED A0..BF 80..BF].  On that
      representation [encodeURIComponent] and [JSON.stringify] act byte
      by byte, and searching for a pattern finds the same occurrences.
    - A value read from JSON is a [json]; a lookup that may give
      [undefined] is an [option json], [None] being [undefined].
    - What can throw returns [exn + A], [inl] being the thrown value:
      [String(v)] and a template literal throw a [TypeError] on an
      object that has an own [toString] property, [encodeURIComponent]
      throws a [URIError] on a lone surrogate.
    - [args], [queryParams] and [headers] are objects used as maps and are
      [gmap]s from property name to value.  Property names are ordinary
      names: none that [Object.prototype] defines ([constructor],
      [toString], [__proto__] and the like) and not [length], so that
      [args[name]] reads an own property and [body[name] = v] writes one.
      No parameter is named [requestBody]: the handler takes that
      argument as the body itself and would share the object with it.
    - The lower-casing of text outside ASCII follows the Unicode case
      mapping, a table that is no part of the source: it is the parameter
      [CaseMapping] of the development.
    - The module is an ES module, hence strict-mode code.
    - The calls of [console.error] are left out, but for the template
      literal of line 34, which can throw. *)

From Stdlib Require Import Ascii ZArith List Lia.
From stdpp Require Import base option list gmap strings pretty.

Local Open Scope Z_scope.
Local Set Warnings "-register-all".

(** ** Characters *)

Definition dquote : ascii := "034"%char.
Definition backslash : ascii := "092"%char.
Definition newline : ascii := "010"%char.

Definition in_range (lo hi : N) (c : ascii) : bool :=
  ((lo <=? N_of_ascii c) && (N_of_ascii c <=? hi))%N.

Definition is_upper (c : ascii) : bool := in_range 65 90 c.
Definition is_lower (c : ascii) : bool := in_range 97 122 c.
Definition is_digit (c : ascii) : bool := in_range 48 57 c.

(** One hexadecimal digit of a number below 16, with the letters taken
    from [base]: ["A"] for upper case, ["a"] for lower case. *)
Definition hex_digit (base : ascii) (n : N) : ascii :=
  if (n <? 10)%N then ascii_of_N (48 + n)
  else ascii_of_N (N_of_ascii base + (n - 10)).

Definition hex_value (c : ascii) : option N :=
  if is_digit c then Some (N_of_ascii c - 48)%N
  else if in_range 65 70 c then Some (N_of_ascii c - 55)%N
  else if in_range 97 102 c then Some (N_of_ascii c - 87)%N
  else None.

(** The first two bytes of a lone surrogate. *)
Definition surrogate_lead (a b : ascii) : bool :=
  (N_of_ascii a =? 237)%N && in_range 160 191 b.

Fixpoint has_lone_surrogate (s : string) : bool :=
  match s with
  | EmptyString => false
  | String a rest =>
      match rest with
      | String b _ => surrogate_lead a b || has_lone_surrogate rest
      | EmptyString => false
      end
  end.

(** ** JSON values *)

(** [JNum text] is a finite number carried as the decimal text that
    [Number.prototype.toString] prints for it; [String(n)], a template
    literal and [JSON.stringify] all print that text.  [JObj] lists the
    own properties of an object in property order. *)
Inductive json : Type :=
  | JNull
  | JBool (b : bool)
  | JNum (text : string)
  | JStr (s : string)
  | JArr (items : list json)
  | JObj (fields : list (string * json)).

(** ** The SDK's error type *)

(** [ErrorCode] of [@modelcontextprotocol/sdk/types.js]. *)
Inductive ErrorCode : Type :=
  | ConnectionClosed
  | RequestTimeout
  | ParseError
  | InvalidRequest
  | MethodNotFound
  | InvalidParams
  | InternalError.

Definition code_number (c : ErrorCode) : Z :=
  match c with
  | ConnectionClosed => -32000
  | RequestTimeout => -32001
  | ParseError => -32700
  | InvalidRequest => -32600
  | MethodNotFound => -32601
  | InvalidParams => -32602
  | InternalError => -32603
  end.

Record McpError : Type := { code : ErrorCode; message : string }.

(** [new McpError(code, message)]: the SDK's constructor stores
    [`MCP error ${code}: ${message}`] as the error's [message]. *)
Definition new_McpError (c : ErrorCode) (msg : string) : McpError :=
  {| code := c;
     message := "MCP error " +:+ pretty (code_number c) +:+ ": " +:+ msg |}.

(** ** The catalog ([tools] of [./tools.js]) *)

(** An entry of [_original_parameters]: [param.name], [param.in],
    [param.required]. *)
Record OriginalParameter : Type :=
  { param_name : string; param_in : string; param_required : bool }.

(** [_original_request_body] *)
Record RequestBodyInfo : Type :=
  { required : bool; content_type : option string }.

(** A tool of the catalog with the hidden fields the handler reads.  A
    hidden field that is [undefined] is [None]; [_original_parameters]
    is the list after [|| []]. *)
Record Tool : Type :=
  { name : string;
    _inputSchema : json;
    _original_method : option string;
    _original_path : option string;
    _original_parameters : list OriginalParameter;
    _original_request_body : option RequestBodyInfo }.

(** ** Requests, responses and thrown values *)

(** [request.params] of a call-tool request. *)
Record CallToolRequest : Type :=
  { params_name : string; params_arguments : option (gmap string json) }.

(** The configuration handed to [axiosInstance.request]. *)
Record AxiosRequestConfig : Type :=
  { cfg_method : string;
    cfg_url : string;
    cfg_params : gmap string json;
    cfg_headers : gmap string string;
    cfg_data : option json }.

Record AxiosResponse : Type :=
  { status : Z; response_headers : gmap string string; response_data : json }.

(** An [AxiosError]; [response] is absent when no response arrived. *)
Record AxiosError : Type :=
  { response : option AxiosResponse; axios_message : string }.

(** What a [catch] can receive: an [McpError], an [AxiosError], any
    other [Error] with its message (a [TypeError], a [URIError]), or a
    value that is no [Error]. *)
Inductive exn : Type :=
  | ExMcp (e : McpError)
  | ExAxios (e : AxiosError)
  | ExError (msg : string)
  | ExOther.

Record TextContent : Type := { type : string; text : string }.

(** A [CallToolResult]; a field left out of the object literal is
    [None].  The protocol reads an absent [isError] as false. *)
Record CallToolResult : Type :=
  { content : list TextContent;
    isError : option bool;
    error : option McpError }.

Definition is_error (r : CallToolResult) : bool :=
  match isError r with
  | Some b => b
  | None => false
  end.

(** ** Operators on values *)

(** [v !== undefined && v !== null] *)
Definition present (v : option json) : option json :=
  match v with
  | Some JNull | None => None
  | Some x => Some x
  end.

(** ToBoolean.  A number is falsy when it is zero ([NaN] is not JSON). *)
Definition truthy (v : option json) : bool :=
  match v with
  | None | Some JNull => false
  | Some (JBool b) => b
  | Some (JNum text) => negb (bool_decide (text = "0"))
  | Some (JStr s) => negb (bool_decide (s = ""))
  | Some (JArr _) | Some (JObj _) => true
  end.

(** [a || b] *)
Definition js_or (a b : option json) : option json :=
  if truthy a then a else b.

(** [typeof v === 'object'], which holds of [null] too. *)
Definition typeof_object (v : json) : bool :=
  match v with
  | JNull | JArr _ | JObj _ => true
  | _ => false
  end.

(** [o.name] on a value that may be [undefined]: only an object has the
    own property; optional chaining and primitives give [undefined]. *)
Fixpoint assoc (name : string) (fields : list (string * json)) : option json :=
  match fields with
  | [] => None
  | (k, v) :: rest => if bool_decide (k = name) then Some v else assoc name rest
  end.

Definition get_field (o : option json) (name : string) : option json :=
  match o with
  | Some (JObj fields) => assoc name fields
  | _ => None
  end.

(** The [TypeError] of ToPrimitive (V8's wording). *)
Definition not_primitive : exn :=
  ExError "Cannot convert object to primitive value".

(** The first thrown value, or all the results. *)
Fixpoint all_results (l : list (exn + string)) : exn + list string :=
  match l with
  | [] => inr []
  | inl e :: _ => inl e
  | inr s :: rest =>
      match all_results rest with
      | inl e => inl e
      | inr strings => inr (s :: strings)
      end
  end.

(** [String(v)] on a JSON value.  An object with an own [toString]
    property, which is never a function, has no primitive value and
    raises a [TypeError]; any other object is ["[object Object]"].  An
    array joins the strings of its items with commas, [null] items
    giving the empty string, and raises what an item raises. *)
Fixpoint to_String (v : json) : exn + string :=
  match v with
  | JNull => inr "null"
  | JBool true => inr "true"
  | JBool false => inr "false"
  | JNum text => inr text
  | JStr s => inr s
  | JArr items =>
      match
        all_results
          (map (fun x => match x with JNull => inr "" | _ => to_String x end) items)
      with
      | inl e => inl e
      | inr strings => inr (String.concat "," strings)
      end
  | JObj fields =>
      match assoc "toString" fields with
      | Some _ => inl not_primitive
      | None => inr "[object Object]"
      end
  end.

(** [String(v)] and [`${v}`] on a value that may be [undefined]. *)
Definition String_of (v : option json) : exn + string :=
  match v with
  | None => inr "undefined"
  | Some x => to_String x
  end.

(** ** String methods *)

Fixpoint map_string (f : ascii -> ascii) (s : string) : string :=
  match s with
  | EmptyString => EmptyString
  | String c rest => String (f c) (map_string f rest)
  end.

Definition lower_char (c : ascii) : ascii :=
  if is_upper c then ascii_of_N (N_of_ascii c + 32) else c.

Definition is_ascii (s : string) : bool :=
  forallb (fun c => (N_of_ascii c <? 128)%N) (String.list_ascii_of_string s).

(** The Unicode case mapping of [String.prototype.toLowerCase], used on
    text that is not ASCII. *)
Class CaseMapping : Type := unicode_toLowerCase : string -> string.

(** [s.toLowerCase()]: on ASCII text the letters A to Z are lower-cased
    and nothing else changes; other text goes through the Unicode case
    mapping. *)
Definition toLowerCase `{CaseMapping} (s : string) : string :=
  if is_ascii s then map_string lower_char s else unicode_toLowerCase s.

(** [s.includes(pat)] *)
Fixpoint includes (s pat : string) : bool :=
  String.prefix pat s ||
  match s with
  | EmptyString => false
  | String _ rest => includes rest pat
  end.

Fixpoint drop_string (n : nat) (s : string) : string :=
  match n, s with
  | O, _ => s
  | S n', String _ rest => drop_string n' rest
  | S _, EmptyString => EmptyString
  end.

(** [s.replace(pat, rep)] with a string pattern: the first occurrence
    only.  [rep] is spliced in as it is, which is what JavaScript does
    when [rep] holds no ["$"]; see [escape_bytes_no_dollar]. *)
Fixpoint replace (s pat rep : string) : string :=
  if String.prefix pat s then rep +:+ drop_string (String.length pat) s
  else match s with
       | EmptyString => EmptyString
       | String c rest => String c (replace rest pat rep)
       end.

(** [s.split(sep)] for a one-character separator. *)
Fixpoint split (sep : ascii) (s : string) : list string :=
  match s with
  | EmptyString => [EmptyString]
  | String c rest =>
      if bool_decide (c = sep) then EmptyString :: split sep rest
      else match split sep rest with
           | seg :: segs => String c seg :: segs
           | [] => [String c EmptyString]
           end
  end.

(** [a.pop()], read for its result *)
Definition pop (a : list string) : option string := last a.

(** ** encodeURIComponent and decodeURIComponent *)

(** ECMA-262 [uriReserved], and ["#"]. *)
Definition uriReserved (c : ascii) : bool :=
  match c with
  | ";" | "/" | "?" | ":" | "@" | "&" | "=" | "+" | "$" | "," | "#" => true
  | _ => false
  end%char.

Definition uriMark (c : ascii) : bool :=
  match c with
  | "-" | "_" | "." | "!" | "~" | "*" | "'" | "(" | ")" => true
  | _ => false
  end%char.

(** ECMA-262 [uriUnescaped]: what [encodeURIComponent] keeps. *)
Definition uriUnescaped (c : ascii) : bool :=
  is_upper c || is_lower c || is_digit c || uriMark c.

Definition percent_encode (c : ascii) : string :=
  String "%" (String (hex_digit "A" (N_of_ascii c / 16))
             (String (hex_digit "A" (N_of_ascii c mod 16)) EmptyString)).

(** The escaping of well-formed text, byte by byte. *)
Fixpoint escape_bytes (s : string) : string :=
  match s with
  | EmptyString => EmptyString
  | String c rest =>
      if uriUnescaped c then String c (escape_bytes rest)
      else percent_encode c +:+ escape_bytes rest
  end.

(** The [URIError] of Encode (V8's wording). *)
Definition URI_malformed : exn := ExError "URI malformed".

(** [encodeURIComponent(s)]: a lone surrogate has no UTF-8 encoding and
    raises a [URIError]. *)
Definition encodeURIComponent (s : string) : exn + string :=
  if has_lone_surrogate s then inl URI_malformed else inr (escape_bytes s).

(** Percent-decoding.  [None] is the [URIError] of a ["%"] that two
    hexadecimal digits do not follow. *)
Fixpoint decodeURIComponent (s : string) : option string :=
  match s with
  | EmptyString => Some EmptyString
  | String "%" (String h (String l rest)) =>
      match hex_value h, hex_value l, decodeURIComponent rest with
      | Some a, Some b, Some out => Some (String (ascii_of_N (16 * a + b)) out)
      | _, _, _ => None
      end
  | String "%" _ => None
  | String c rest => String c <$> decodeURIComponent rest
  end.

(** ** JSON.stringify(value, null, 2) *)

(** [\u] and four lower-case hexadecimal digits. *)
Definition unicode_escape (unit : N) : string :=
  String backslash
    (String "u"
      (String (hex_digit "a" (unit / 4096))
        (String (hex_digit "a" (unit / 256 mod 16))
          (String (hex_digit "a" (unit / 16 mod 16))
            (String (hex_digit "a" (unit mod 16)) EmptyString))))).

(** QuoteJSONString on one byte: the short escapes, [\u00xx] for the
    other control characters, every other byte as it is. *)
Definition quote_char (c : ascii) : string :=
  if bool_decide (c = dquote) then String backslash (String dquote EmptyString)
  else if bool_decide (c = backslash) then String backslash (String backslash EmptyString)
  else if bool_decide (c = "008"%char) then String backslash "b"
  else if bool_decide (c = "009"%char) then String backslash "t"
  else if bool_decide (c = "010"%char) then String backslash "n"
  else if bool_decide (c = "012"%char) then String backslash "f"
  else if bool_decide (c = "013"%char) then String backslash "r"
  else if (N_of_ascii c <? 32)%N then unicode_escape (N_of_ascii c)
  else String c EmptyString.

(** The code unit of the lone surrogate [ED b c]. *)
Definition surrogate_unit (b c : ascii) : N :=
  (53248 + (N_of_ascii b mod 64) * 64 + N_of_ascii c mod 64)%N.

(** QuoteJSONString between the quotes: a lone surrogate is written as
    its [\u] escape. *)
Fixpoint quote_body (s : string) : string :=
  match s with
  | EmptyString => EmptyString
  | String a rest =>
      match rest with
      | String b (String c after) =>
          if surrogate_lead a b
          then unicode_escape (surrogate_unit b c) +:+ quote_body after
          else quote_char a +:+ quote_body rest
      | _ => quote_char a +:+ quote_body rest
      end
  end.

Definition QuoteJSONString (s : string) : string :=
  String dquote (quote_body s +:+ String dquote EmptyString).

(** SerializeJSONProperty with gap ["  "] at the current indentation. *)
Fixpoint SerializeJSON (indent : string) (v : json) : string :=
  let stepin := indent +:+ "  " in
  let separator := String "," (String newline stepin) in
  match v with
  | JNull => "null"
  | JBool true => "true"
  | JBool false => "false"
  | JNum text => text
  | JStr s => QuoteJSONString s
  | JArr [] => "[]"
  | JArr items =>
      "[" +:+ String newline stepin +:+
      String.concat separator (map (SerializeJSON stepin) items) +:+
      String newline indent +:+ "]"
  | JObj [] => "{}"
  | JObj fields =>
      "{" +:+ String newline stepin +:+
      String.concat separator
        (map (fun kv => QuoteJSONString (fst kv) +:+ ": " +:+
                        SerializeJSON stepin (snd kv)) fields) +:+
      String newline indent +:+ "}"
  end.

Definition JSON_stringify (v : json) : string := SerializeJSON "" v.

(** ** The handler as a program over the upstream call *)

(** What axios ends one request with: the response it hands to
    [validateStatus], which is the last one when it has followed
    redirects, or no response at all. *)
Inductive upstream : Type :=
  | Responded (r : AxiosResponse)
  | Failed (msg : string).

(** An async function body: it returns, throws, or awaits
    [axiosInstance.request(config)] and goes on with the outcome. *)
Inductive prog (A : Type) : Type :=
  | Return (a : A)
  | Throw (e : exn)
  | Await (config : AxiosRequestConfig) (k : upstream -> prog A).

Arguments Return {A} a.
Arguments Throw {A} e.
Arguments Await {A} config k.

Fixpoint bind {A B : Type} (p : prog A) (f : A -> prog B) : prog B :=
  match p with
  | Return a => f a
  | Throw e => Throw e
  | Await config k => Await config (fun o => bind (k o) f)
  end.

(** [try { p } catch (error) { handle error }] *)
Fixpoint try_catch {A : Type} (p : prog A) (handle : exn -> prog A) : prog A :=
  match p with
  | Return a => Return a
  | Throw e => handle e
  | Await config k => Await config (fun o => try_catch (k o) handle)
  end.

(** Running a program against a network: the settled result, [inl] for a
    rejection, and the requests issued, in order. *)
Fixpoint run {A : Type} (net : AxiosRequestConfig -> upstream) (p : prog A)
  : (exn + A) * list AxiosRequestConfig :=
  match p with
  | Return a => (inr a, [])
  | Throw e => (inl e, [])
  | Await config k =>
      let (result, issued) := run net (k (net config)) in
      (result, config :: issued)
  end.

(** A value that may have been thrown, as a program. *)
Definition lift {A : Type} (x : exn + A) : prog A :=
  match x with
  | inl e => Throw e
  | inr a => Return a
  end.

(** [validateStatus], line 197 *)
Definition validateStatus (status : Z) : bool :=
  (200 <=? status) && (status <? 300).

(** How axios settles the promise of a request: it resolves a response
    whose status passes [validateStatus] and rejects every other outcome
    with an [AxiosError]. *)
Definition settle (outcome : upstream) : exn + AxiosResponse :=
  match outcome with
  | Responded r =>
      if validateStatus (status r) then inr r
      else inl (ExAxios
             {| response := Some r;
                axios_message :=
                  "Request failed with status code " +:+ pretty (status r) |})
  | Failed msg => inl (ExAxios {| response := None; axios_message := msg |})
  end.

(** [await axiosInstance.request(config)] *)
Definition axios_request (config : AxiosRequestConfig) : prog AxiosResponse :=
  Await config (fun outcome => lift (settle outcome)).

(** ** Property assignment, [requestBody[paramName] = paramValue] *)

Fixpoint digits_value (acc : N) (s : string) : option N :=
  match s with
  | EmptyString => Some acc
  | String c rest =>
      if is_digit c then digits_value (10 * acc + (N_of_ascii c - 48))%N rest
      else None
  end.

(** The array index a property name denotes: a canonical decimal
    numeral below 2^32 - 1. *)
Definition array_index (name : string) : option nat :=
  match name with
  | EmptyString => None
  | _ =>
      match digits_value 0 name with
      | Some n =>
          if bool_decide (pretty n = name) && (n <? 4294967295)%N
          then Some (N.to_nat n) else None
      | None => None
      end
  end.

Fixpoint set_assoc (name : string) (v : json) (fields : list (string * json))
  : list (string * json) :=
  match fields with
  | [] => [(name, v)]
  | (k, old) :: rest =>
      if bool_decide (k = name) then (k, v) :: rest
      else (k, old) :: set_assoc name v rest
  end.

(** Writing past the end of an array leaves holes, which read as [null]
    in JSON. *)
Definition set_index (i : nat) (v : json) (items : list json) : list json :=
  if bool_decide (i < length items)%nat then <[i:=v]> items
  else items ++ replicate (i - length items) JNull ++ [v].

(** [target[name] = v] in strict mode.  An object gets or updates the
    own property, a new one going last.  An array takes an element when
    [name] is an index; a property of any other name is no part of its
    JSON content.  A primitive raises a [TypeError] (V8's wording). *)
Definition set_property (target : json) (name : string) (v : json) : exn + json :=
  match target with
  | JObj fields => inr (JObj (set_assoc name v fields))
  | JArr items =>
      match array_index name with
      | Some i => inr (JArr (set_index i v items))
      | None => inr (JArr items)
      end
  | JStr s =>
      inl (ExError ("Cannot create property '" +:+ name +:+ "' on string '" +:+ s +:+ "'"))
  | JNum n =>
      inl (ExError ("Cannot create property '" +:+ name +:+ "' on number '" +:+ n +:+ "'"))
  | JBool b =>
      inl (ExError ("Cannot create property '" +:+ name +:+ "' on boolean '" +:+
                    (if b then "true" else "false") +:+ "'"))
  | JNull =>
      inl (ExError ("Cannot set properties of null (setting '" +:+ name +:+ "')"))
  end.

(** ** mapApiErrorToMcpError, lines 27-52 *)

(** [`${status}`] *)
Definition show_status (status : option Z) : string :=
  match status with
  | Some s => pretty s
  | None => "undefined"
  end.

(** The template literals of lines 34 to 43 convert [apiMessage] to a
    string, the one of line 34 first: what that conversion throws is
    thrown by the function. *)
Definition mapApiErrorToMcpError (error : exn) : exn + McpError :=
  match error with
  | ExAxios axiosError =>
      let status := status <$> response axiosError in
      let data := response_data <$> response axiosError in
      let apiMessage :=
        js_or (js_or (js_or (get_field data "error") (get_field data "message"))
                     (get_field data "detail"))
              (Some (JStr (axios_message axiosError))) in
      match String_of apiMessage with
      | inl e => inl e
      | inr shown =>
          inr
            (if bool_decide (status = Some 400) then
               new_McpError InvalidParams ("API Bad Request: " +:+ shown)
             else if bool_decide (status = Some 404) then
               new_McpError MethodNotFound ("API Not Found: " +:+ shown)
             else if bool_decide (status = Some 408) then
               new_McpError RequestTimeout ("API Request Timeout: " +:+ shown)
             else if bool_decide (status = Some 500) || bool_decide (status = Some 502) ||
                     bool_decide (status = Some 503) || bool_decide (status = Some 504) then
               new_McpError InternalError
                 ("API Server Error (" +:+ show_status status +:+ "): " +:+ shown)
             else
               new_McpError InternalError
                 ("API Request Failed (" +:+ show_status status +:+ "): " +:+ shown))
      end
  | ExMcp e => inr (new_McpError InternalError ("Request failed: " +:+ message e))
  | ExError msg => inr (new_McpError InternalError ("Request failed: " +:+ msg))
  | ExOther => inr (new_McpError InternalError "An unknown internal error occurred")
  end.

(** ** The parameter loop, lines 137-175 *)

(** The variables the loop updates. *)
Record MapperState : Type :=
  { targetPath : string;
    queryParams : gmap string json;
    headers : gmap string string;
    requestBody : option json }.

(** Line 154 *)
Definition lowercased : list string := ["us_state"; "country"; "country_code"].

(** Lines 153-156 *)
Definition normalize `{CaseMapping} (paramName : string) (paramValue : option json)
  : exn + option json :=
  match present paramValue with
  | Some v =>
      if bool_decide (paramName ∈ lowercased) then
        match to_String v with
        | inl e => inl e
        | inr s => inr (Some (JStr (toLowerCase s)))
        end
      else inr paramValue
  | None => inr paramValue
  end.

(** Lines 159-170: a value that is there goes where [param.in] says. *)
Definition place (st : MapperState) (paramName paramIn : string) (paramValue : json)
  : exn + MapperState :=
  if bool_decide (paramIn = "path") then
    match to_String paramValue with
    | inl e => inl e
    | inr s =>
        match encodeURIComponent s with
        | inl e => inl e
        | inr segment =>
            inr {| targetPath :=
                     replace (targetPath st) ("{" +:+ paramName +:+ "}") segment;
                   queryParams := queryParams st;
                   headers := headers st;
                   requestBody := requestBody st |}
        end
    end
  else if bool_decide (paramIn = "query") then
    inr {| targetPath := targetPath st;
           queryParams := <[paramName := paramValue]> (queryParams st);
           headers := headers st;
           requestBody := requestBody st |}
  else if bool_decide (paramIn = "header") then
    match to_String paramValue with
    | inl e => inl e
    | inr s =>
        inr {| targetPath := targetPath st;
               queryParams := queryParams st;
               headers := <[paramName := s]> (headers st);
               requestBody := requestBody st |}
    end
  else if bool_decide (paramIn = "body") then
    let target :=
      if truthy (requestBody st) then default (JObj []) (requestBody st)
      else JObj [] in
    match set_property target paramName paramValue with
    | inl e => inl e
    | inr body =>
        inr {| targetPath := targetPath st;
               queryParams := queryParams st;
               headers := headers st;
               requestBody := Some body |}
    end
  else inr st.

(** The [McpError]s the mapping throws, lines 173 and 183. *)
Definition MissingParameter (paramName : string) : McpError :=
  new_McpError InvalidParams ("Missing required parameter: " +:+ paramName).

Definition MissingBody : McpError :=
  new_McpError InvalidParams "Missing required requestBody".

(** One turn of the loop, lines 149-174. *)
Definition process_param `{CaseMapping} (args : gmap string json) (st : MapperState)
    (param : OriginalParameter) : exn + MapperState :=
  let paramName := param_name param in
  let paramIn := param_in param in
  match normalize paramName (args !! paramName) with
  | inl e => inl e
  | inr paramValue =>
      match present paramValue with
      | Some v => place st paramName paramIn v
      | None =>
          if param_required param then inl (ExMcp (MissingParameter paramName))
          else inr st
      end
  end.

Fixpoint process_params `{CaseMapping} (args : gmap string json) (st : MapperState)
    (originalParameters : list OriginalParameter) : exn + MapperState :=
  match originalParameters with
  | [] => inr st
  | param :: rest =>
      match process_param args st param with
      | inl e => inl e
      | inr st' => process_params args st' rest
      end
  end.

(** ** The handler of [CallToolRequestSchema], lines 104-227 *)

Section Server.

(** The case mapping, [process.env.API_KEY] and the imported catalog. *)
Context `{CaseMapping} (API_KEY : option string) (tools : list Tool).

(** Lines 137-145 *)
Definition initial_state (originalPath : string) (args : gmap string json)
  : MapperState :=
  {| targetPath := originalPath;
     queryParams := ∅;
     headers :=
       <["Authorization" := "Bearer " +:+ default "undefined" API_KEY]>
         (<["User-Agent" := "ahrefs-mcp-server"]>
            (<["Accept" := "application/json"]> ∅));
     requestBody := args !! "requestBody" |}.

(** [content_type || 'application/json'] *)
Definition content_type_or_json (info : RequestBodyInfo) : string :=
  match content_type info with
  | Some ct => if bool_decide (ct = "") then "application/json" else ct
  | None => "application/json"
  end.

(** Lines 177-186.  [requestData] comes in as line 143 left it; the
    result is [requestData] and [headers] as the request will carry
    them. *)
Definition finalize_body (originalRequestBodyInfo : option RequestBodyInfo)
    (st : MapperState) (requestData : option json)
  : exn + (option json * gmap string string) :=
  match originalRequestBodyInfo, present (requestBody st) with
  | Some info, Some body =>
      inr (Some body, <["Content-Type" := content_type_or_json info]> (headers st))
  | _, _ =>
      if from_option required false originalRequestBodyInfo then
        inl (ExMcp MissingBody)
      else if bool_decide (requestData ≠ None) then
        inr (requestData, <["Content-Type" := "application/json"]> (headers st))
      else inr (requestData, headers st)
  end.

(** The argument mapping: the [try] block down to the configuration
    given to [axiosInstance.request], lines 137-198. *)
Definition map_arguments (originalMethod originalPath : string)
    (originalParameters : list OriginalParameter)
    (originalRequestBodyInfo : option RequestBodyInfo)
    (args : gmap string json) : exn + AxiosRequestConfig :=
  let requestData : option json := None in
  match process_params args (initial_state originalPath args) originalParameters with
  | inl e => inl e
  | inr st =>
      match finalize_body originalRequestBodyInfo st requestData with
      | inl e => inl e
      | inr (requestData, headers) =>
          inr {| cfg_method := originalMethod;
                 cfg_url := targetPath st;
                 cfg_params := queryParams st;
                 cfg_headers := headers;
                 cfg_data := requestData |}
      end
  end.

(** Lines 202-216.  [JSON.stringify] does not throw on a value read
    from JSON, so the inner [catch] never runs; [String] can throw. *)
Definition format_response (response : AxiosResponse) : exn + CallToolResult :=
  let responseContentType := response_headers response !! "content-type" in
  let responseText :=
    match responseContentType with
    | Some ct =>
        if negb (bool_decide (ct = "")) && includes ct "application/json" &&
           typeof_object (response_data response)
        then inr (JSON_stringify (response_data response))
        else to_String (response_data response)
    | None => to_String (response_data response)
    end in
  match responseText with
  | inl e => inl e
  | inr responseText =>
      inr {| content := [{| type := "text"; text := responseText |}];
             isError := None;
             error := None |}
  end.

(** Lines 220-225: the object the [catch] block returns, when
    [mapApiErrorToMcpError] returns. *)
Definition error_result (error : exn) : exn + CallToolResult :=
  match mapApiErrorToMcpError error with
  | inl e => inl e
  | inr mcpError =>
      inr {| content := [{| type := "text"; text := message mcpError |}];
             isError := Some true;
             error := Some mcpError |}
  end.

(** Lines 218-226 *)
Definition catch_block (error : exn) : prog CallToolResult :=
  lift (error_result error).

(** Lines 136-216 *)
Definition try_block (originalMethod originalPath : string)
    (originalParameters : list OriginalParameter)
    (originalRequestBodyInfo : option RequestBodyInfo)
    (args : gmap string json) : prog CallToolResult :=
  match map_arguments originalMethod originalPath originalParameters
          originalRequestBodyInfo args with
  | inl e => Throw e
  | inr config => bind (axios_request config) (fun response =>
                    lift (format_response response))
  end.

Definition find_tool (toolName : string) : option Tool :=
  find (fun t => bool_decide (name t = toolName)) tools.

Definition tool_not_found (toolName : string) : McpError :=
  new_McpError MethodNotFound ("Tool '" +:+ toolName +:+ "' not found.").

(** A hidden string that is there and not empty: [!s] is false. *)
Definition nonempty (s : option string) : option string :=
  match s with
  | Some x => if bool_decide (x = "") then None else Some x
  | None => None
  end.

(** Line 110.  [pop] has type [string | undefined]. *)
Definition requested_tool_name (args : gmap string json) : exn + option string :=
  match String_of (args !! "tool") with
  | inl e => inl e
  | inr given => inr (pop (split "_" given))
  end.

Definition handler (request : CallToolRequest) : prog CallToolResult :=
  let toolName := params_name request in
  let args := default ∅ (params_arguments request) in
  if bool_decide (toolName = "doc") then
    match requested_tool_name args with
    | inl e => Throw e
    | inr requestedToolName =>
        match find (fun t => bool_decide (Some (name t) = requestedToolName)) tools with
        | None => Throw (ExMcp (tool_not_found (default "undefined" requestedToolName)))
        | Some requestedTool =>
            Return {| content := [{| type := "text";
                                     text := JSON_stringify (_inputSchema requestedTool) |}];
                      isError := None;
                      error := None |}
        end
    end
  else
    match find_tool toolName with
    | None => Throw (ExMcp (tool_not_found toolName))
    | Some tool =>
        match nonempty (_original_method tool), nonempty (_original_path tool) with
        | Some originalMethod, Some originalPath =>
            try_catch
              (try_block originalMethod originalPath (_original_parameters tool)
                         (_original_request_body tool) args)
              catch_block
        | _, _ =>
            Throw (ExMcp (new_McpError InternalError
              ("Internal configuration error for tool '" +:+ toolName +:+ "'.")))
        end
    end.

End Server.

(** ** Notions the properties are stated with *)

(** What a parameter is placed with: the value after lines 153-156 when
    it is there, [None] when the argument is absent or [null]. *)
Definition placed_value `{CaseMapping} (paramName : string) (args : gmap string json)
  : exn + option json :=
  match normalize paramName (args !! paramName) with
  | inl e => inl e
  | inr paramValue => inr (present paramValue)
  end.

(** Two states the rest of the mapping cannot tell apart: [requestBody]
    may be [null] in one and [undefined] in the other. *)
Definition state_equiv (st st' : MapperState) : Prop :=
  targetPath st = targetPath st' ∧
  queryParams st = queryParams st' ∧
  headers st = headers st' ∧
  present (requestBody st) = present (requestBody st').


(** [args.requestBody] as the data model has it: a pre-built body
    object, when it is there at all, and no string, number or boolean. *)
Definition prebuilt_body (v : option json) : Prop :=
  match v with
  | Some (JStr _) | Some (JNum _) | Some (JBool _) => False
  | _ => True
  end.

(** In the loop [requestBody] is the argument as it came, or an object
    or array that a body-located parameter was written to. *)
Definition body_origin (args : gmap string json) (st : MapperState) : Prop :=
  requestBody st = args !! "requestBody" ∨ prebuilt_body (requestBody st).

(** [args.requestBody] is an object, or is falsy and gives way to a
    fresh object when a body-located parameter arrives. *)
Definition object_or_falsy (v : option json) : Prop :=
  truthy v = false ∨ ∃ fields, v = Some (JObj fields).

(** The own properties of the body collected so far. *)
Definition body_fields (v : option json) : list (string * json) :=
  match v with
  | Some (JObj fields) => fields
  | _ => []
  end.

(** The response's content type indicates JSON: the first two conjuncts
    of line 205. *)
Definition indicates_json (response : AxiosResponse) : bool :=
  match response_headers response !! "content-type" with
  | Some ct => negb (bool_decide (ct = "")) && includes ct "application/json"
  | None => false
  end.

(** The message of an upstream failure as the specification words it:
    the [error] field of the body, else its [message] field, else its
    [detail] field, a field counting when it holds a truthy value, and
    else the transport's own message. *)
Definition extracted_message (body : json) (transport_message : string) : json :=
  match
    find (fun field => truthy (get_field (Some body) field))
         ["error"; "message"; "detail"]
  with
  | Some field => default JNull (get_field (Some body) field)
  | None => JStr transport_message
  end.

(** The name left when a namespace prefix is stripped up to the last
    separator, as the specification words it: the text after the last
    ["_"], the whole text when there is none. *)
Fixpoint after_last_separator (s : string) : string :=
  match s with
  | EmptyString => EmptyString
  | String c rest =>
      if existsb (fun d => bool_decide (d = "_"%char))
                 (String.list_ascii_of_string rest)
      then after_last_separator rest
      else if bool_decide (c = "_"%char) then rest
      else s
  end.

(** ** The HTTP surface, lines 79-97 *)

(** [new SSEServerTransport("/messages", res)]: a transport is told
    apart by the response stream it was built on. *)
Record SSEServerTransport : Type := { endpoint : string; stream : nat }.

(** What the process reacts to: the two routes of the express
    application, with the request and response objects named by
    numbers, and the rejection of the promise of [server.connect]. *)
Inductive ServerEvent : Type :=
  | GetSse (res : nat)
  | PostMessages (req res : nat)
  | ConnectRejected.

(** What a reaction does besides assigning [transport]. *)
Inductive GatewayEffect : Type :=
  | ServerConnect (t : SSEServerTransport)
  | HandlePostMessage (t : SSEServerTransport) (req res : nat)
  | ProcessExit (status : Z).

(** One event against the module variable [transport], lines 81-97. *)
Definition route (transport : option SSEServerTransport) (r : ServerEvent)
  : option SSEServerTransport * list GatewayEffect :=
  match r with
  | GetSse res =>
      let t := {| endpoint := "/messages"; stream := res |} in
      (Some t, [ServerConnect t])
  | PostMessages req res =>
      match transport with
      | Some t => (transport, [HandlePostMessage t req res])
      | None => (transport, [])
      end
  | ConnectRejected => (transport, [ProcessExit 1])
  end.

(** The events in turn; nothing is served once the process has exited. *)
Fixpoint serve (transport : option SSEServerTransport) (events : list ServerEvent)
  : option SSEServerTransport * list GatewayEffect :=
  match events with
  | [] => (transport, [])
  | ConnectRejected :: _ => route transport ConnectRejected
  | r :: rest =>
      let (transport', effects) := route transport r in
      let (final, later) := serve transport' rest in
      (final, effects ++ later)
  end.

(** ** The checks that open [deploy.sh], lines 6-40 *)

(** What the script sees: the effective user id, whether [.env] is a
    file, and what [source .env] leaves: the shell variables, or [None]
    when sourcing ends the script (a command of the file fails under
    [set -e], the file cannot be read, or it calls [exit]). *)
Record DeployContext : Type :=
  { EUID : Z; env_file : bool; sourced : option (gmap string string) }.

Definition required_vars : list string :=
  ["SERVER_IP"; "SERVER_USER"; "DEPLOY_PATH"; "SERVICE_NAME"; "API_KEY"].

(** Why the script stops before it builds. *)
Inductive DeployStop : Type :=
  | RunAsRoot
  | EnvFileNotFound
  | SourceEnded
  | VariableNotSet (var : string).

(** [-z "${!var}"]: the variable is unset or empty. *)
Definition is_unset (variables : gmap string string) (var : string) : bool :=
  bool_decide (default "" (variables !! var) = "").

(** Lines 6-40; [None] means the script goes on to the build. *)
Definition preflight (ctx : DeployContext) : option DeployStop :=
  if bool_decide (EUID ctx = 0) then Some RunAsRoot
  else if negb (env_file ctx) then Some EnvFileNotFound
  else match sourced ctx with
       | None => Some SourceEnded
       | Some variables => VariableNotSet <$> find (is_unset variables) required_vars
       end.

(** ** A sample catalog *)

(** A case mapping for the sample inputs, whose text is ASCII. *)
Definition ascii_case_mapping : CaseMapping := map_string lower_char.

Definition backlinks_tool : Tool :=
  {| name := "getBacklinks";
     _inputSchema :=
       JObj [("type", JStr "object");
             ("required", JArr [JStr "target"])];
     _original_method := Some "GET";
     _original_path := Some "/site-explorer/{target}/backlinks";
     _original_parameters :=
       [{| param_name := "target"; param_in := "path"; param_required := true |};
        {| param_name := "country"; param_in := "query"; param_required := false |};
        {| param_name := "select"; param_in := "query"; param_required := true |};
        {| param_name := "limit"; param_in := "query"; param_required := false |}];
     _original_request_body := None |}.

(** An operation that takes a body and declares no request-body
    metadata. *)
Definition report_tool : Tool :=
  {| name := "createReport";
     _inputSchema := JObj [("type", JStr "object")];
     _original_method := Some "POST";
     _original_path := Some "/reports";
     _original_parameters :=
       [{| param_name := "title"; param_in := "body"; param_required := false |}];
     _original_request_body := None |}.

(** An operation whose request body is required. *)
Definition batch_tool : Tool :=
  {| name := "batchAnalysis";
     _inputSchema := JObj [("type", JStr "object")];
     _original_method := Some "POST";
     _original_path := Some "/batch-analysis";
     _original_parameters :=
       [{| param_name := "select"; param_in := "body"; param_required := false |}];
     _original_request_body :=
       Some {| required := true; content_type := Some "application/json" |} |}.

Definition sample_tools : list Tool := [backlinks_tool; report_tool; batch_tool].

Definition call (toolName : string) (args : gmap string json) : CallToolRequest :=
  {| params_name := toolName; params_arguments := Some args |}.

Definition backlinks_call : CallToolRequest :=
  call "getBacklinks"
       (<["target" := JStr "ahrefs.com"]> {["select" := JStr "url_from"]}).

(** An object that has no string form. *)
Definition unprintable : json := JObj [("toString", JNum "1")].

(** The lone surrogate U+D800 in a string. *)
Definition lone_surrogate : string :=
  String (ascii_of_N 237) (String (ascii_of_N 160) (String (ascii_of_N 128) EmptyString)).

(** Upstreams that answer every request alike: 200 with a JSON body,
    200 with an unprintable body under a plain-text content type, 429
    with an [error] field, 500 with an unprintable [error], and no
    answer. *)
Definition json_upstream (config : AxiosRequestConfig) : upstream :=
  Responded {| status := 200;
               response_headers :=
                 {["content-type" := "application/json; charset=utf-8"]};
               response_data := JObj [("a", JNum "1")] |}.

Definition plain_upstream (config : AxiosRequestConfig) : upstream :=
  Responded {| status := 200;
               response_headers := {["content-type" := "text/plain"]};
               response_data := unprintable |}.

Definition rate_limited_upstream (config : AxiosRequestConfig) : upstream :=
  Responded {| status := 429;
               response_headers := {["content-type" := "application/json"]};
               response_data := JObj [("error", JStr "rate limit exceeded")] |}.

Definition failing_upstream (config : AxiosRequestConfig) : upstream :=
  Responded {| status := 500;
               response_headers := {["content-type" := "application/json"]};
               response_data := JObj [("error", unprintable)] |}.

Definition unreachable_upstream (config : AxiosRequestConfig) : upstream :=
  Failed "timeout of 30000ms exceeded".

(** * Properties *)

(** ** Strings *)

Lemma app_cons (c : ascii) (s t : string) : String c s +:+ t = String c (s +:+ t).
Proof. reflexivity. Qed.

Lemma app_empty (t : string) : EmptyString +:+ t = t.
Proof. reflexivity. Qed.

Lemma app_assoc_string (s t u : string) : (s +:+ t) +:+ u = s +:+ (t +:+ u).
Proof. induction s as [|c s IH]; [done |]. by rewrite !app_cons, IH. Qed.

Lemma app_length_string (s t : string) :
  String.length (s +:+ t) = (String.length s + String.length t)%nat.
Proof. induction s as [|c s IH]; [done |]. rewrite app_cons. cbn. by rewrite IH. Qed.

Lemma list_ascii_of_string_app (s t : string) :
  String.list_ascii_of_string (s +:+ t) =
  String.list_ascii_of_string s ++ String.list_ascii_of_string t.
Proof.
  induction s as [|c s IH]; [done |].
  rewrite app_cons. cbn. by rewrite IH.
Qed.

(** ** The string form of a value *)

Lemma all_results_inl (l : list (exn + string)) (e : exn) :
  all_results l = inl e → inl e ∈ l.
Proof.
  induction l as [|[e'|s] l IH]; cbn; intros Hl.
  - discriminate.
  - simplify_eq. apply list_elem_of_here.
  - destruct (all_results l); [| discriminate].
    simplify_eq. apply list_elem_of_further. by apply IH.
Qed.

(** Induction on a JSON value, through the items of an array. *)
Lemma json_items_ind (P : json → Prop) :
  P JNull → (∀ b, P (JBool b)) → (∀ text, P (JNum text)) → (∀ s, P (JStr s)) →
  (∀ items, Forall P items → P (JArr items)) →
  (∀ fields, P (JObj fields)) →
  ∀ v, P v.
Proof.
  intros HNull HBool HNum HStr HArr HObj. fix rec 1.
  intros [| b | text | s | items | fields].
  - exact HNull.
  - apply HBool.
  - apply HNum.
  - apply HStr.
  - apply HArr. induction items as [|x l IH]; constructor; [apply rec | apply IH].
  - apply HObj.
Qed.

(** The one thing [String] throws on a JSON value. *)
Lemma to_String_inl (v : json) (e : exn) : to_String v = inl e → e = not_primitive.
Proof.
  revert e. induction v as [| b | text | s | items IH | fields] using json_items_ind;
    intros e; try discriminate.
  - by destruct b.
  - cbn [to_String]. intros Hv.
    assert (Hin : inl e ∈ map (fun x => match x with
                                        | JNull => inr ""
                                        | _ => to_String x
                                        end) items).
    { apply all_results_inl. by destruct (all_results _); simplify_eq. }
    apply list_elem_of_fmap in Hin as (x & Hx & Hin).
    rewrite Forall_forall in IH. specialize (IH x Hin e).
    destruct x; try discriminate; by apply IH.
  - cbn. destruct (assoc "toString" fields); [| discriminate].
    intros; by simplify_eq.
Qed.

(** The string forms of the values that are no arrays. *)
Lemma to_String_forms (w : json) (s : string) :
  to_String w = inr s →
  (∀ text, w = JNum text → s = text) ∧
  (∀ t, w = JStr t → s = t) ∧
  (w = JBool true → s = "true") ∧
  (w = JBool false → s = "false") ∧
  (∀ fields, w = JObj fields → s = "[object Object]") ∧
  (w = JArr [] → s = "").
Proof.
  intros Hw. split_and!; intros; subst; cbn in Hw; try by simplify_eq.
  destruct (assoc "toString" fields); by simplify_eq.
Qed.

(** An object with an own [toString] property has no string form. *)
Lemma to_String_own_toString (fields : list (string * json)) :
  is_Some (assoc "toString" fields) → to_String (JObj fields) = inl not_primitive.
Proof. intros [x Hx]. cbn. by rewrite Hx. Qed.

(** ** Percent-encoding *)

Lemma percent_encode_decodes (c : ascii) :
  hex_value (hex_digit "A" (N_of_ascii c / 16)) = Some (N_of_ascii c / 16)%N ∧
  hex_value (hex_digit "A" (N_of_ascii c mod 16)) = Some (N_of_ascii c mod 16)%N ∧
  ascii_of_N (16 * (N_of_ascii c / 16) + N_of_ascii c mod 16) = c.
Proof. destruct c as [[] [] [] [] [] [] [] []]; vm_compute; auto. Qed.

Lemma uriUnescaped_not_percent (c : ascii) :
  uriUnescaped c = true → c ≠ "%"%char.
Proof. intros H ->. vm_compute in H. discriminate. Qed.

Lemma uriUnescaped_not_reserved (c : ascii) :
  uriUnescaped c = true → uriReserved c = false.
Proof. destruct c as [[] [] [] [] [] [] [] []]; vm_compute; congruence. Qed.

Lemma percent_encode_not_reserved (c d : ascii) :
  In d (String.list_ascii_of_string (percent_encode c)) → uriReserved d = false.
Proof.
  destruct c as [[] [] [] [] [] [] [] []]; vm_compute;
    intros [<- | [<- | [<- | []]]]; reflexivity.
Qed.

Lemma escape_bytes_not_reserved (s : string) (d : ascii) :
  In d (String.list_ascii_of_string (escape_bytes s)) → uriReserved d = false.
Proof.
  induction s as [|c s IH]; cbn; [done |].
  destruct (uriUnescaped c) eqn:Hc.
  - cbn. intros [<- | Hd]; [by apply uriUnescaped_not_reserved | auto].
  - rewrite list_ascii_of_string_app, in_app_iff.
    intros [Hd | Hd]; [by eapply percent_encode_not_reserved | auto].
Qed.

(** The replacement handed to [replace] holds no ["$"], so JavaScript
    splices it in literally. *)
Lemma escape_bytes_no_dollar (s : string) :
  ¬ In "$"%char (String.list_ascii_of_string (escape_bytes s)).
Proof. intros H. by apply escape_bytes_not_reserved in H. Qed.

Lemma decode_escape_bytes (s : string) :
  decodeURIComponent (escape_bytes s) = Some s.
Proof.
  induction s as [|c s IH]; [done |].
  cbn [escape_bytes]. destruct (uriUnescaped c) eqn:Hc.
  - apply uriUnescaped_not_percent in Hc.
    cbn [decodeURIComponent]. rewrite IH.
    destruct c as [[] [] [] [] [] [] [] []]; try reflexivity. by destruct Hc.
  - destruct (percent_encode_decodes c) as (Hhi & Hlo & Hc').
    unfold percent_encode. rewrite !app_cons, app_empty.
    cbn [decodeURIComponent]. rewrite Hhi, Hlo, IH. cbn. by rewrite Hc'.
Qed.

Lemma encodeURIComponent_inr (s segment : string) :
  encodeURIComponent s = inr segment ↔
  has_lone_surrogate s = false ∧ segment = escape_bytes s.
Proof.
  unfold encodeURIComponent. destruct (has_lone_surrogate s); split.
  - discriminate.
  - by intros [? _].
  - intros; by simplify_eq.
  - by intros [_ ->].
Qed.

Lemma encodeURIComponent_inl (s : string) (e : exn) :
  encodeURIComponent s = inl e ↔ has_lone_surrogate s = true ∧ e = URI_malformed.
Proof.
  unfold encodeURIComponent. destruct (has_lone_surrogate s); split.
  - intros; by simplify_eq.
  - by intros [_ ->].
  - discriminate.
  - by intros [? _].
Qed.

(** ** Replacing a placeholder *)

Lemma prefix_app (pat post : string) : String.prefix pat (pat +:+ post) = true.
Proof.
  induction pat as [|c pat IH]; [by destruct post |].
  rewrite app_cons. cbn. destruct (ascii_dec c c); [done | congruence].
Qed.

Lemma drop_string_app (pat post : string) :
  drop_string (String.length pat) (pat +:+ post) = post.
Proof. induction pat as [|c pat IH]; [done |]. by rewrite app_cons. Qed.

(** Whether [pat] starts a text is settled by as many characters as
    [pat] has. *)
Lemma prefix_long (pat s t : string) :
  (String.length pat ≤ String.length s)%nat →
  String.prefix pat (s +:+ t) = String.prefix pat s.
Proof.
  revert s. induction pat as [|c pat IH]; intros s Hlen.
  - by destruct s, t.
  - destruct s as [|a s]; cbn in Hlen; [lia |].
    rewrite app_cons. cbn. destruct (ascii_dec c a); [| done].
    apply IH. lia.
Qed.

Lemma includes_cons (a : ascii) (s pat : string) :
  includes (String a s) pat = false →
  String.prefix pat (String a s) = false ∧ includes s pat = false.
Proof. cbn [includes]. by intros [? ?]%orb_false_elim. Qed.

(** [replace] acts on the first occurrence of the pattern: the one that
    no occurrence starts before.  The pattern is given by its last
    character and the text before it. *)
Lemma replace_first_occurrence (pre post rep pat : string) (c : ascii) :
  includes (pre +:+ pat) (pat +:+ String c EmptyString) = false →
  replace (pre +:+ (pat +:+ String c EmptyString) +:+ post)
          (pat +:+ String c EmptyString) rep =
  pre +:+ rep +:+ post.
Proof.
  induction pre as [|a pre IH]; intros Hpre.
  - rewrite !app_empty.
    assert (Hstep : ∀ s, replace s (pat +:+ String c EmptyString) rep =
              if String.prefix (pat +:+ String c EmptyString) s
              then rep +:+ drop_string (String.length (pat +:+ String c EmptyString)) s
              else match s with
                   | EmptyString => EmptyString
                   | String x r => String x (replace r (pat +:+ String c EmptyString) rep)
                   end) by (by intros []).
    by rewrite Hstep, prefix_app, drop_string_app.
  - rewrite (app_cons a) in Hpre. rewrite !(app_cons a).
    apply includes_cons in Hpre as [Hhere Hlater].
    cbn [replace].
    replace (String a (pre +:+ (pat +:+ String c EmptyString) +:+ post))
      with (String a (pre +:+ pat) +:+ (String c EmptyString +:+ post)).
    2:{ rewrite app_cons. f_equal. by rewrite !app_assoc_string. }
    rewrite prefix_long, Hhere.
    2:{ cbn [String.length]. rewrite !app_length_string. cbn [String.length]. lia. }
    f_equal. by apply IH.
Qed.

Lemma replace_absent (s pat rep : string) :
  includes s pat = false → replace s pat rep = s.
Proof.
  induction s as [|c s IH]; cbn [includes replace]; intros H.
  - apply orb_false_elim in H as [-> _]. done.
  - apply orb_false_elim in H as [-> H]. by rewrite IH.
Qed.

(** ** The parameter loop *)

Lemma present_Some (w : json) : w ≠ JNull → present (Some w) = Some w.
Proof. by destruct w. Qed.

Lemma present_Some_inv (x : option json) (v : json) :
  present x = Some v → x = Some v ∧ v ≠ JNull.
Proof. destruct x as [[]|]; cbn; intros; by simplify_eq. Qed.

Section Loop.

Context `{CaseMapping} (args : gmap string json).

(** A loop turn, from the value the parameter is placed with. *)
Lemma process_param_placed (st : MapperState) (param : OriginalParameter) :
  process_param args st param =
  match placed_value (param_name param) args with
  | inl e => inl e
  | inr (Some v) => place st (param_name param) (param_in param) v
  | inr None =>
      if param_required param then inl (ExMcp (MissingParameter (param_name param)))
      else inr st
  end.
Proof.
  unfold process_param, placed_value.
  destruct (normalize _ _) as [e|x]; [done |]. by destruct (present x).
Qed.

Lemma placed_value_absent (k : string) :
  present (args !! k) = None → placed_value k args = inr None.
Proof. intros Hk. unfold placed_value, normalize. by rewrite Hk, Hk. Qed.

Lemma placed_value_supplied (k : string) (w : json) :
  args !! k = Some w → w ≠ JNull →
  placed_value k args =
  if bool_decide (k ∈ lowercased) then
    match to_String w with
    | inl e => inl e
    | inr s => inr (Some (JStr (toLowerCase s)))
    end
  else inr (Some w).
Proof.
  intros Hw Hnull. unfold placed_value, normalize.
  rewrite Hw, (present_Some w Hnull). case_bool_decide.
  - by destruct (to_String w).
  - by rewrite (present_Some w Hnull).
Qed.

Lemma placed_value_inv (k : string) (v : json) :
  placed_value k args = inr (Some v) →
  ∃ w, args !! k = Some w ∧ w ≠ JNull ∧ v ≠ JNull ∧
       if bool_decide (k ∈ lowercased)
       then ∃ s, to_String w = inr s ∧ v = JStr (toLowerCase s)
       else v = w.
Proof.
  intros Hv. destruct (present (args !! k)) as [w|] eqn:Hk.
  - apply present_Some_inv in Hk as [Hk Hnull].
    rewrite (placed_value_supplied k w Hk Hnull) in Hv.
    exists w. split_and!; [done | done | |].
    + case_bool_decide; [| by simplify_eq].
      destruct (to_String w); by simplify_eq.
    + case_bool_decide; [| by simplify_eq].
      destruct (to_String w) as [|s]; [discriminate |].
      exists s. by simplify_eq.
  - rewrite (placed_value_absent k Hk) in Hv. discriminate.
Qed.

Lemma placed_value_None (k : string) :
  placed_value k args = inr None → present (args !! k) = None.
Proof.
  intros Hv. destruct (present (args !! k)) as [w|] eqn:Hk; [| done].
  apply present_Some_inv in Hk as [Hk Hnull].
  rewrite (placed_value_supplied k w Hk Hnull) in Hv.
  case_bool_decide; [| discriminate]. by destruct (to_String w).
Qed.

(** What [place] changes, by location. *)
Lemma place_inr (st st' : MapperState) (paramName paramIn : string) (v : json) :
  place st paramName paramIn v = inr st' →
  queryParams st' =
    (if bool_decide (paramIn = "query") then <[paramName := v]> (queryParams st)
     else queryParams st) ∧
  (if bool_decide (paramIn = "header")
   then ∃ s, to_String v = inr s ∧ headers st' = <[paramName := s]> (headers st)
   else headers st' = headers st) ∧
  (paramIn ≠ "body" → requestBody st' = requestBody st) ∧
  (paramIn ≠ "path" → targetPath st' = targetPath st).
Proof.
  unfold place. intros Hst.
  repeat case_bool_decide; subst; try discriminate.
  - destruct (to_String v) as [|s]; [discriminate |].
    destruct (encodeURIComponent s); [discriminate |].
    simplify_eq. cbn. by split_and!.
  - simplify_eq. cbn. by split_and!.
  - destruct (to_String v) as [|s]; [discriminate |].
    simplify_eq. cbn. split_and!; [done | by exists s | done | done].
  - destruct (set_property _ _ _); [discriminate |].
    simplify_eq. cbn. by split_and!.
  - simplify_eq. by split_and!.
Qed.

(** An entry of [queryParams] that holds the value its name is placed
    with stays as it is: a later parameter of that name writes the
    same value again.  So does a header. *)
Lemma process_param_query_stable (st st' : MapperState) (q : OriginalParameter)
    (n : string) (v : json) :
  process_param args st q = inr st' →
  placed_value n args = inr (Some v) →
  queryParams st !! n = Some v →
  queryParams st' !! n = Some v.
Proof.
  rewrite process_param_placed. intros Hstep Hv Hst.
  destruct (placed_value (param_name q) args) as [|[u|]] eqn:Hu; [discriminate | |].
  - apply place_inr in Hstep as (-> & _). case_bool_decide; [| done].
    destruct (decide (param_name q = n)) as [Heq | Hne].
    + subst n. rewrite Hu in Hv. injection Hv as ->. by rewrite lookup_insert_eq.
    + by rewrite lookup_insert_ne.
  - destruct (param_required q); by simplify_eq.
Qed.

Lemma process_param_header_stable (st st' : MapperState) (q : OriginalParameter)
    (n : string) (v : json) (s : string) :
  process_param args st q = inr st' →
  placed_value n args = inr (Some v) →
  to_String v = inr s →
  headers st !! n = Some s →
  headers st' !! n = Some s.
Proof.
  rewrite process_param_placed. intros Hstep Hv Hs Hst.
  destruct (placed_value (param_name q) args) as [|[u|]] eqn:Hu; [discriminate | |].
  - apply place_inr in Hstep as (_ & Hh & _).
    case_bool_decide; [| by rewrite Hh].
    destruct Hh as (s' & Hs' & ->).
    destruct (decide (param_name q = n)) as [Heq | Hne].
    + subst n. rewrite Hu in Hv. injection Hv as ->.
      rewrite Hs' in Hs. injection Hs as ->. by rewrite lookup_insert_eq.
    + by rewrite lookup_insert_ne.
  - destruct (param_required q); by simplify_eq.
Qed.

Lemma process_params_stable (ps : list OriginalParameter) (st st' : MapperState)
    (n : string) (v : json) :
  process_params args st ps = inr st' →
  placed_value n args = inr (Some v) →
  (queryParams st !! n = Some v → queryParams st' !! n = Some v) ∧
  (∀ s, to_String v = inr s → headers st !! n = Some s → headers st' !! n = Some s).
Proof.
  revert st. induction ps as [|q ps IH]; intros st Hrun Hv; cbn in Hrun.
  - by simplify_eq.
  - destruct (process_param args st q) as [|st1] eqn:Hstep; [discriminate |].
    destruct (IH st1 Hrun Hv) as [IHq IHh]. split.
    + intros Hst. apply IHq. by eapply process_param_query_stable.
    + intros s Hs Hst. apply IHh; [done |]. by eapply process_param_header_stable.
Qed.

(** After the loop every supplied query or header parameter is in its
    map with the value it was placed with. *)
Lemma process_params_placed (ps : list OriginalParameter) (st st' : MapperState)
    (param : OriginalParameter) (v : json) :
  process_params args st ps = inr st' →
  param ∈ ps →
  placed_value (param_name param) args = inr (Some v) →
  (param_in param = "query" → queryParams st' !! param_name param = Some v) ∧
  (param_in param = "header" →
   ∃ s, to_String v = inr s ∧ headers st' !! param_name param = Some s).
Proof.
  revert st. induction ps as [|q ps IH]; intros st Hrun Hin Hv.
  - by apply elem_of_nil in Hin.
  - cbn in Hrun.
    destruct (process_param args st q) as [|st1] eqn:Hstep; [discriminate |].
    apply elem_of_cons in Hin as [<- | Hin]; [| by eapply IH].
    destruct (process_params_stable ps st1 st' _ v Hrun Hv) as [Hq Hh].
    rewrite process_param_placed, Hv in Hstep.
    apply place_inr in Hstep as (Hq1 & Hh1 & _).
    split; intros Hloc.
    + apply Hq. rewrite Hq1, Hloc, bool_decide_eq_true_2 by done.
      apply lookup_insert_eq.
    + rewrite Hloc, bool_decide_eq_true_2 in Hh1 by done.
      destruct Hh1 as (s & Hs & Hh1). exists s. split; [done |].
      apply Hh; [done |]. rewrite Hh1. apply lookup_insert_eq.
Qed.

End Loop.

Lemma finalize_body_headers (info : option RequestBodyInfo) (st : MapperState)
    (requestData : option json) (hs : gmap string string) (n : string) :
  finalize_body info st None = inr (requestData, hs) →
  n ≠ "Content-Type" →
  hs !! n = headers st !! n.
Proof.
  unfold finalize_body. intros H Hn.
  assert (Hrest :
    (if from_option required false info then inl (ExMcp MissingBody)
     else if bool_decide (@None json ≠ None)
          then inr (None, <["Content-Type" := "application/json"]> (headers st))
          else inr (None, headers st)) = inr (requestData, hs) →
    hs !! n = headers st !! n).
  { destruct (from_option required false info); [discriminate |].
    rewrite bool_decide_eq_false_2 by (intros Hne; by apply Hne).
    intros ?; by simplify_eq. }
  destruct info as [i|], (present (requestBody st)) as [b|]; auto.
  simplify_eq. by rewrite lookup_insert_ne.
Qed.


(** ** Path substitution and lower-casing *)

Section Placement.

Context `{CaseMapping}.



End Placement.

(** ** Null and absent arguments *)

Lemma state_equiv_refl (st : MapperState) : state_equiv st st.
Proof. by repeat split. Qed.



Section NullAbsent.

Context `{CaseMapping} (args args' : gmap string json).
Hypothesis same_present : ∀ k, present (args !! k) = present (args' !! k).






End NullAbsent.


Lemma process_param_absent `{CaseMapping} (args : gmap string json) (st : MapperState)
    (param : OriginalParameter) :
  present (args !! param_name param) = None →
  process_param args st param =
  if param_required param then inl (ExMcp (MissingParameter (param_name param)))
  else inr st.
Proof.
  intros Hw. by rewrite process_param_placed, (placed_value_absent args _ Hw).
Qed.


(** ** Running the handler *)

(** What is thrown in the [try] block and is no [AxiosError] comes back
    from the [catch] block as a result. *)
Lemma error_result_mcp (e : McpError) :
  error_result (ExMcp e) =
  inr {| content := [{| type := "text";
                        text := "MCP error -32603: Request failed: " +:+ message e |}];
         isError := Some true;
         error := Some (new_McpError InternalError ("Request failed: " +:+ message e)) |}.
Proof. reflexivity. Qed.

Lemma error_result_error (msg : string) :
  error_result (ExError msg) =
  inr {| content := [{| type := "text";
                        text := "MCP error -32603: Request failed: " +:+ msg |}];
         isError := Some true;
         error := Some (new_McpError InternalError ("Request failed: " +:+ msg)) |}.
Proof. reflexivity. Qed.

Section Run.

Context `{CaseMapping} (API_KEY : option string) (tools : list Tool)
        (net : AxiosRequestConfig → upstream).

Lemma run_lift {A : Type} (x : exn + A) : run net (lift x) = (x, []).
Proof. by destruct x. Qed.

Lemma run_try_block (originalMethod originalPath : string)
    (ps : list OriginalParameter) (info : option RequestBodyInfo)
    (args : gmap string json) :
  run net (try_catch (try_block API_KEY originalMethod originalPath ps info args)
                     catch_block) =
  match map_arguments API_KEY originalMethod originalPath ps info args with
  | inl e => (error_result e, [])
  | inr config =>
      (match settle (net config) with
       | inl e => error_result e
       | inr response =>
           match format_response response with
           | inl e => error_result e
           | inr result => inr result
           end
       end, [config])
  end.
Proof.
  unfold try_block.
  destruct (map_arguments API_KEY originalMethod originalPath ps info args)
    as [e|config].
  - cbn. unfold catch_block. apply run_lift.
  - cbn. destruct (settle (net config)) as [e|response]; cbn.
    + unfold catch_block. by rewrite run_lift.
    + destruct (format_response response) as [e|result]; cbn; [| done].
      unfold catch_block. by rewrite run_lift.
Qed.

(** The handler as a whole, for a tool found with its method and path. *)
Lemma run_handler_resolved (request : CallToolRequest) (tool : Tool)
    (originalMethod originalPath : string) :
  params_name request ≠ "doc" →
  find_tool tools (params_name request) = Some tool →
  nonempty (_original_method tool) = Some originalMethod →
  nonempty (_original_path tool) = Some originalPath →
  run net (handler API_KEY tools request) =
  run net (try_catch
             (try_block API_KEY originalMethod originalPath
                (_original_parameters tool) (_original_request_body tool)
                (default ∅ (params_arguments request)))
             catch_block).
Proof.
  intros Hdoc Hfind Hm Hp. unfold handler.
  by rewrite bool_decide_eq_false_2, Hfind, Hm, Hp.
Qed.

(** The handler never awaits the upstream when the mapping of the tool
    it resolves fails. *)
Lemma handler_no_request (request : CallToolRequest) :
  (∀ tool originalMethod originalPath,
     find_tool tools (params_name request) = Some tool →
     ∃ e, map_arguments API_KEY originalMethod originalPath
            (_original_parameters tool) (_original_request_body tool)
            (default ∅ (params_arguments request)) = inl e) →
  (run net (handler API_KEY tools request)).2 = [].
Proof.
  intros Hfail. unfold handler. case_bool_decide.
  - destruct (requested_tool_name _) as [e|requested]; [done |].
    by destruct (find _ tools).
  - destruct (find_tool tools (params_name request)) as [tool|] eqn:Hfind;
      [| done].
    destruct (nonempty (_original_method tool)) as [m|]; [| done].
    destruct (nonempty (_original_path tool)) as [p|]; [| done].
    rewrite run_try_block.
    by destruct (Hfail tool m p eq_refl) as [e ->].
Qed.

End Run.

(** ** Validation failures *)

Section Validation.

Context `{CaseMapping}.

Lemma process_params_app (args : gmap string json) (pre post : list OriginalParameter)
    (st : MapperState) :
  process_params args st (pre ++ post) =
  match process_params args st pre with
  | inl e => inl e
  | inr st' => process_params args st' post
  end.
Proof.
  revert st. induction pre as [|q pre IH]; intros st; cbn; [done |].
  by destruct (process_param args st q).
Qed.

(** A loop that writes no body-located parameter leaves [requestBody]
    as it found it. *)
Lemma process_params_no_body (args : gmap string json) (ps : list OriginalParameter)
    (st st' : MapperState) :
  (∀ q, q ∈ ps → param_in q = "body" → present (args !! param_name q) = None) →
  process_params args st ps = inr st' →
  requestBody st' = requestBody st.
Proof.
  revert st. induction ps as [|q ps IH]; intros st Hbody Hrun; cbn in Hrun.
  - by simplify_eq.
  - destruct (process_param args st q) as [|st1] eqn:Hstep; [discriminate |].
    rewrite (IH st1); [| | done].
    2:{ intros q' Hq'. apply Hbody. by apply list_elem_of_further. }
    rewrite process_param_placed in Hstep.
    destruct (placed_value (param_name q) args) as [|[v|]] eqn:Hv; [discriminate | |].
    + apply place_inr in Hstep as (_ & _ & Hkeep & _). apply Hkeep.
      intros Hloc. apply placed_value_inv in Hv as (w & Hw & Hnull & _).
      specialize (Hbody q (list_elem_of_here _ _) Hloc).
      by rewrite Hw, (present_Some w Hnull) in Hbody.
    + destruct (param_required q); by simplify_eq.
Qed.

(** The mapping at a required parameter that has no argument. *)
Lemma map_arguments_missing (API_KEY : option string) (args : gmap string json)
    (pre later : list OriginalParameter) (param : OriginalParameter)
    (originalMethod originalPath : string) (info : option RequestBodyInfo) :
  param_required param = true →
  present (args !! param_name param) = None →
  map_arguments API_KEY originalMethod originalPath (pre ++ param :: later) info args =
  match process_params args (initial_state API_KEY originalPath args) pre with
  | inl e => inl e
  | inr _ => inl (ExMcp (MissingParameter (param_name param)))
  end.
Proof.
  intros Hreq Habsent. unfold map_arguments. rewrite process_params_app.
  destruct (process_params args _ pre) as [e|st]; [done |].
  cbn [process_params].
  by rewrite (process_param_absent args st param Habsent), Hreq.
Qed.

(** C3, as amended.  A required parameter of the descriptor has no
    argument.  The loop turn at that parameter throws the
    missing-parameter error that names it, in every state; the mapping
    fails, with that error whenever the parameters declared before it
    are placed without failure and with the failure of the earliest of
    them that fails otherwise, whatever parameters follow; and a handler
    that resolves the call to this tool issues no upstream request.  The
    error is an [InvalidParams] error whose message names the
    parameter. *)
Theorem missing_required_parameter
    (API_KEY : option string) (tools : list Tool)
    (net : AxiosRequestConfig → upstream) (request : CallToolRequest)
    (tool : Tool) (pre post : list OriginalParameter) (param : OriginalParameter) :
  let args := default ∅ (params_arguments request) in
  _original_parameters tool = pre ++ param :: post →
  param_required param = true →
  present (args !! param_name param) = None →
  (∀ st, process_param args st param =
         inl (ExMcp (MissingParameter (param_name param))))
  ∧ (∀ originalMethod originalPath info later,
       map_arguments API_KEY originalMethod originalPath
         (pre ++ param :: later) info args =
       match process_params args (initial_state API_KEY originalPath args) pre with
       | inl e => inl e
       | inr _ => inl (ExMcp (MissingParameter (param_name param)))
       end)
  ∧ (∀ originalMethod originalPath st,
       process_params args (initial_state API_KEY originalPath args) pre = inr st →
       map_arguments API_KEY originalMethod originalPath
         (_original_parameters tool) (_original_request_body tool) args =
       inl (ExMcp (MissingParameter (param_name param))))
  ∧ (∀ originalMethod originalPath,
       ∃ e, map_arguments API_KEY originalMethod originalPath
              (_original_parameters tool) (_original_request_body tool) args = inl e)
  ∧ (find_tool tools (params_name request) = Some tool →
     (run net (handler API_KEY tools request)).2 = [])
  ∧ MissingParameter (param_name param) =
    {| code := InvalidParams;
       message := "MCP error -32602: Missing required parameter: " +:+
                  param_name param |}.
Proof.
  intros args Hps Hreq Habsent.
  assert (Hfail : ∀ m p, ∃ e,
    map_arguments API_KEY m p (_original_parameters tool)
      (_original_request_body tool) args = inl e).
  { intros m p. rewrite Hps, map_arguments_missing by done.
    destruct (process_params args _ pre); eauto. }
  split_and!.
  - intros st. by rewrite (process_param_absent args st param Habsent), Hreq.
  - intros m p info later. by apply map_arguments_missing.
  - intros m p st Hpre. by rewrite Hps, map_arguments_missing, Hpre.
  - done.
  - intros Hfind. apply handler_no_request.
    intros tool' m p Hfind'. rewrite Hfind in Hfind'. simplify_eq. apply Hfail.
  - reflexivity.
Qed.

(** C4.  The descriptor's request body is required, the arguments carry
    no [requestBody] and no body-located parameter has an argument.  Then
    the mapping fails: once the loop has processed all the parameters
    the body is found not populated and the error is the missing-body
    error, an [InvalidParams] error; a loop that fails gives its own
    failure. *)
Theorem missing_required_body
    (API_KEY : option string) (originalMethod originalPath : string)
    (originalParameters : list OriginalParameter) (info : RequestBodyInfo)
    (args : gmap string json) :
  required info = true →
  present (args !! "requestBody") = None →
  (∀ q, q ∈ originalParameters → param_in q = "body" →
        present (args !! param_name q) = None) →
  (∀ st,
     process_params args (initial_state API_KEY originalPath args) originalParameters
       = inr st →
     present (requestBody st) = None ∧
     map_arguments API_KEY originalMethod originalPath originalParameters
       (Some info) args = inl (ExMcp MissingBody))
  ∧ map_arguments API_KEY originalMethod originalPath originalParameters
      (Some info) args =
    match
      process_params args (initial_state API_KEY originalPath args) originalParameters
    with
    | inl e => inl e
    | inr _ => inl (ExMcp MissingBody)
    end
  ∧ MissingBody =
    {| code := InvalidParams;
       message := "MCP error -32602: Missing required requestBody" |}.
Proof.
  intros Hreq Hbody Hparams.
  assert (Hdone : ∀ st,
    process_params args (initial_state API_KEY originalPath args) originalParameters
      = inr st →
    present (requestBody st) = None ∧
    finalize_body (Some info) st None = inl (ExMcp MissingBody)).
  { intros st Hrun.
    assert (Hst : present (requestBody st) = None).
    { by rewrite (process_params_no_body args _ _ st Hparams Hrun). }
    split; [done |]. unfold finalize_body. rewrite Hst. cbn. by rewrite Hreq. }
  split_and!.
  - intros st Hrun. destruct (Hdone st Hrun) as [Hst Hfin]. split; [done |].
    unfold map_arguments. by rewrite Hrun, Hfin.
  - unfold map_arguments.
    destruct (process_params args _ originalParameters) as [e|st] eqn:Hrun; [done |].
    destruct (Hdone st eq_refl) as [_ Hfin]. by rewrite Hfin.
  - reflexivity.
Qed.

(** What the mapping throws is an [McpError] or an [Error], never an
    [AxiosError]. *)
Lemma place_inl_shape (st : MapperState) (paramName paramIn : string) (v : json)
    (e : exn) :
  place st paramName paramIn v = inl e → ∃ msg, e = ExError msg.
Proof.
  unfold place. intros Hplace. repeat case_bool_decide; try discriminate.
  - destruct (to_String v) as [e'|s] eqn:Hv.
    + apply to_String_inl in Hv. simplify_eq. by eexists.
    + destruct (encodeURIComponent s) as [e'|] eqn:Hs; [| discriminate].
      apply encodeURIComponent_inl in Hs as [_ ->]. simplify_eq. by eexists.
  - destruct (to_String v) as [e'|s] eqn:Hv; [| discriminate].
    apply to_String_inl in Hv. simplify_eq. by eexists.
  - destruct (set_property _ paramName v) as [e'|] eqn:Hset; [| discriminate].
    simplify_eq. unfold set_property in Hset.
    repeat case_match; simplify_eq; by eexists.
Qed.

Lemma process_param_inl_shape (args : gmap string json) (st : MapperState)
    (q : OriginalParameter) (e : exn) :
  process_param args st q = inl e →
  e = ExMcp (MissingParameter (param_name q)) ∨ ∃ msg, e = ExError msg.
Proof.
  unfold process_param, normalize.
  destruct (present (args !! param_name q)) as [w|] eqn:Hw.
  - case_bool_decide.
    + destruct (to_String w) as [e'|s] eqn:Hs.
      * intros ?. simplify_eq. apply to_String_inl in Hs as ->. right. by eexists.
      * cbn. intros Hplace. right. by eapply place_inl_shape.
    + rewrite Hw. intros Hplace. right. by eapply place_inl_shape.
  - rewrite Hw. destruct (param_required q); [| discriminate].
    intros ?. simplify_eq. by left.
Qed.

Lemma map_arguments_inl_shape (API_KEY : option string)
    (originalMethod originalPath : string) (ps : list OriginalParameter)
    (info : option RequestBodyInfo) (args : gmap string json) (e : exn) :
  map_arguments API_KEY originalMethod originalPath ps info args = inl e →
  (∃ m, e = ExMcp m ∧ code m = InvalidParams) ∨ (∃ msg, e = ExError msg).
Proof.
  unfold map_arguments.
  generalize (initial_state API_KEY originalPath args). intros st.
  destruct (process_params args st ps) as [e'|st'] eqn:Hrun.
  - intros ?. simplify_eq. revert st Hrun.
    induction ps as [|q ps IH]; intros st Hrun; cbn in Hrun; [discriminate |].
    destruct (process_param args st q) as [e'|st1] eqn:Hstep; [| by eapply IH].
    simplify_eq. apply process_param_inl_shape in Hstep as [-> | ?]; [| by right].
    left. by eexists.
  - unfold finalize_body. intros Hfin. left.
    repeat case_match; simplify_eq; by eexists.
Qed.

(** A failure of the mapping is caught by the handler's own [catch] and
    comes back as a returned result, with no request issued. *)
Lemma mapping_failure_is_returned
    (API_KEY : option string) (tools : list Tool)
    (net : AxiosRequestConfig → upstream) (request : CallToolRequest)
    (tool : Tool) (originalMethod originalPath : string) (e : exn) :
  params_name request ≠ "doc" →
  find_tool tools (params_name request) = Some tool →
  nonempty (_original_method tool) = Some originalMethod →
  nonempty (_original_path tool) = Some originalPath →
  map_arguments API_KEY originalMethod originalPath (_original_parameters tool)
    (_original_request_body tool) (default ∅ (params_arguments request)) = inl e →
  ∃ result,
    error_result e = inr result ∧
    run net (handler API_KEY tools request) = (inr result, []).
Proof.
  intros Hdoc Hfind Hm Hp Hmap.
  rewrite (run_handler_resolved API_KEY tools net request tool _ _ Hdoc Hfind Hm Hp).
  rewrite run_try_block, Hmap.
  apply map_arguments_inl_shape in Hmap as [(m & -> & _) | [msg ->]].
  - rewrite error_result_mcp. by eexists.
  - rewrite error_result_error. by eexists.
Qed.

(** C1.  The sample call [getBacklinks] without its required [target]:
    the handler settles with a returned result whose [isError] is true
    and whose error has code [InternalError]; it does not reject with
    the [InvalidParams] error that line 173 throws. *)
Theorem missing_parameter_comes_back_as_error_result
    (net : AxiosRequestConfig → upstream) :
  run net (handler (Some "secret") sample_tools (call "getBacklinks" ∅)) =
  (inr {| content :=
            [{| type := "text";
                text := "MCP error -32603: Request failed: " +:+
                        "MCP error -32602: Missing required parameter: target" |}];
          isError := Some true;
          error :=
            Some {| code := InternalError;
                    message := "MCP error -32603: Request failed: " +:+
                               "MCP error -32602: Missing required parameter: target" |} |},
   []).
Proof. vm_compute. reflexivity. Qed.

(** Without request-body metadata the request carries no data. *)
Lemma no_metadata_no_data
    (API_KEY : option string) (originalMethod originalPath : string)
    (ps : list OriginalParameter) (args : gmap string json)
    (config : AxiosRequestConfig) :
  map_arguments API_KEY originalMethod originalPath ps None args = inr config →
  cfg_data config = None.
Proof.
  unfold map_arguments. destruct (process_params _ _ ps) as [|st]; [discriminate |].
  unfold finalize_body. cbn. intros ?; by simplify_eq.
Qed.

(** C2.  The sample call [createReport], whose descriptor declares no
    request-body metadata, with a [requestBody] argument and a
    body-located parameter: the request that is built carries no data
    and no [Content-Type] header. *)
Theorem body_without_metadata_is_not_sent :
  ∃ config,
    map_arguments (Some "secret") "POST" "/reports"
      (_original_parameters report_tool) (_original_request_body report_tool)
      (<["requestBody" := JObj [("period", JStr "week")]]>
         (<["title" := JStr "Weekly"]> ∅)) = inr config
    ∧ cfg_data config = None
    ∧ cfg_headers config !! "Content-Type" = None.
Proof. eexists. split; [vm_compute; reflexivity |]. split; reflexivity. Qed.

End Validation.

(** ** Pretty-printing *)

Example stringify_object :
  JSON_stringify (JObj [("a", JNum "1"); ("b", JArr [JStr "x"; JNull])]) =
  String.concat (String newline EmptyString)
    ["{";
     String.concat (String dquote EmptyString) ["  "; "a"; ": 1,"];
     String.concat (String dquote EmptyString) ["  "; "b"; ": ["];
     String.concat (String dquote EmptyString) ["    "; "x"; ","];
     "    null";
     "  ]";
     "}"].
Proof. reflexivity. Qed.

(** ** Translating upstream outcomes *)

(** The chain of [||] on line 32 picks what the specification's wording
    picks. *)
Lemma apiMessage_extracted (body : json) (transport_message : string) :
  js_or (js_or (js_or (get_field (Some body) "error")
                      (get_field (Some body) "message"))
               (get_field (Some body) "detail"))
        (Some (JStr transport_message))
  = Some (extracted_message body transport_message).
Proof.
  unfold extracted_message, js_or. cbn [find].
  destruct (truthy (get_field (Some body) "error")) eqn:He.
  { rewrite He, He. by destruct (get_field (Some body) "error"). }
  destruct (truthy (get_field (Some body) "message")) eqn:Hm.
  { rewrite Hm. by destruct (get_field (Some body) "message"). }
  destruct (truthy (get_field (Some body) "detail")) eqn:Hd; [| done].
  by destruct (get_field (Some body) "detail").
Qed.

(** The translation of a failure that carries a response, from the
    string form of the extracted message. *)
Lemma mapApiErrorToMcpError_response (axiosError : AxiosError) (r : AxiosResponse) :
  response axiosError = Some r →
  mapApiErrorToMcpError (ExAxios axiosError) =
  match to_String (extracted_message (response_data r) (axios_message axiosError)) with
  | inl e => inl e
  | inr shown =>
      inr
        (if bool_decide (status r = 400) then
           new_McpError InvalidParams ("API Bad Request: " +:+ shown)
         else if bool_decide (status r = 404) then
           new_McpError MethodNotFound ("API Not Found: " +:+ shown)
         else if bool_decide (status r = 408) then
           new_McpError RequestTimeout ("API Request Timeout: " +:+ shown)
         else if bool_decide (status r ∈ [500; 502; 503; 504]) then
           new_McpError InternalError
             ("API Server Error (" +:+ pretty (status r) +:+ "): " +:+ shown)
         else
           new_McpError InternalError
             ("API Request Failed (" +:+ pretty (status r) +:+ "): " +:+ shown))
  end.
Proof.
  intros Hr. unfold mapApiErrorToMcpError.
  rewrite Hr. cbn [fmap option_fmap option_map].
  rewrite apiMessage_extracted. cbn [String_of show_status].
  destruct (to_String _) as [e|shown]; [done |]. f_equal.
  assert (Hsome : ∀ n : Z,
            bool_decide (Some (status r) = Some n) = bool_decide (status r = n)).
  { intros n. apply bool_decide_ext. split; intros; by simplify_eq. }
  rewrite !Hsome.
  do 3 (case_bool_decide; [done |]).
  destruct (decide (status r ∈ [500; 502; 503; 504])) as [Hin | Hnin].
  - rewrite (bool_decide_eq_true_2 _ Hin).
    repeat (apply elem_of_cons in Hin as [-> | Hin]; [reflexivity |]).
    by apply elem_of_nil in Hin.
  - rewrite (bool_decide_eq_false_2 _ Hnin).
    rewrite !bool_decide_eq_false_2; [done | ..];
      intros Heq; apply Hnin; rewrite Heq;
      repeat first [apply list_elem_of_here | apply list_elem_of_further].
Qed.

(** C5, as amended.  For an upstream failure that carries a response,
    the message is extracted from the body's [error] field, else its
    [message] field, else its [detail] field, else the transport's
    message.  When the extracted value has a string form the status
    decides the error: 400 [InvalidParams], 404 [MethodNotFound], 408
    [RequestTimeout], 500, 502, 503 and 504 [InternalError] with the
    status in the message, any other status [InternalError] with the
    status in the message.  Every thrown value that carries no response
    maps to [InternalError].  The translation itself throws, a
    [TypeError], exactly when the extracted value has no string form, and
    the [catch] block then throws it on; otherwise the [catch] block
    returns the result that holds the error. *)
Theorem upstream_failure_translation :
  (∀ (axiosError : AxiosError) (r : AxiosResponse),
     response axiosError = Some r →
     let apiMessage :=
       extracted_message (response_data r) (axios_message axiosError) in
     (∀ e, to_String apiMessage = inl e →
        e = not_primitive ∧ mapApiErrorToMcpError (ExAxios axiosError) = inl e)
     ∧ (∀ shown, to_String apiMessage = inr shown →
          ∃ mcpError,
            mapApiErrorToMcpError (ExAxios axiosError) = inr mcpError ∧
            (status r = 400 →
             mcpError = new_McpError InvalidParams ("API Bad Request: " +:+ shown)) ∧
            (status r = 404 →
             mcpError = new_McpError MethodNotFound ("API Not Found: " +:+ shown)) ∧
            (status r = 408 →
             mcpError =
             new_McpError RequestTimeout ("API Request Timeout: " +:+ shown)) ∧
            (status r ∈ [500; 502; 503; 504] →
             mcpError = new_McpError InternalError
               ("API Server Error (" +:+ pretty (status r) +:+ "): " +:+ shown)) ∧
            (status r ∉ [400; 404; 408; 500; 502; 503; 504] →
             mcpError = new_McpError InternalError
               ("API Request Failed (" +:+ pretty (status r) +:+ "): " +:+ shown))))
  ∧ (∀ error : exn,
       (∀ axiosError, error = ExAxios axiosError → response axiosError = None) →
       ∃ mcpError,
         mapApiErrorToMcpError error = inr mcpError ∧ code mcpError = InternalError)
  ∧ (∀ (error e : exn),
       mapApiErrorToMcpError error = inl e →
       catch_block error = Throw e ∧
       ∃ axiosError r,
         error = ExAxios axiosError ∧ response axiosError = Some r ∧
         to_String (extracted_message (response_data r) (axios_message axiosError))
           = inl e)
  ∧ (∀ (error : exn) (mcpError : McpError),
       mapApiErrorToMcpError error = inr mcpError →
       catch_block error =
       Return {| content := [{| type := "text"; text := message mcpError |}];
                 isError := Some true;
                 error := Some mcpError |})
  ∧ mapApiErrorToMcpError
      (ExAxios {| response :=
                    Some {| status := 429;
                            response_headers := ∅;
                            response_data :=
                              JObj [("error", JStr ""); ("message", JNum "0");
                                    ("detail", JArr [JStr "slow"; JNum "2"])] |};
                  axios_message := "Request failed with status code 429" |}) =
    inr {| code := InternalError;
           message := "MCP error -32603: API Request Failed (429): slow,2" |}
  ∧ mapApiErrorToMcpError
      (ExAxios {| response :=
                    Some {| status := 500;
                            response_headers := ∅;
                            response_data := JObj [("error", unprintable)] |};
                  axios_message := "Request failed with status code 500" |}) =
    inl not_primitive.
Proof.
  split_and!.
  - intros axiosError r Hr apiMessage.
    rewrite (mapApiErrorToMcpError_response axiosError r Hr). fold apiMessage.
    split.
    + intros e He. rewrite He. split; [by eapply to_String_inl | done].
    + intros shown Hshown. rewrite Hshown. eexists. split; [done |].
      split_and!.
      * intros ->. reflexivity.
      * intros ->. reflexivity.
      * intros ->. reflexivity.
      * intros Hs. repeat (apply elem_of_cons in Hs as [-> | Hs]; [reflexivity |]).
        by apply elem_of_nil in Hs.
      * intros Hs.
        do 3 (rewrite bool_decide_eq_false_2;
              [| intros Heq; apply Hs; rewrite Heq;
                 repeat first [apply list_elem_of_here | apply list_elem_of_further]]).
        rewrite bool_decide_eq_false_2; [done |].
        intros Hin. apply Hs. by do 3 apply list_elem_of_further.
  - intros [e | ax | msg |] Hshape; cbn; try by eexists.
    rewrite (Hshape ax eq_refl). cbn. by eexists.
  - intros error e He. split.
    + unfold catch_block, error_result. by rewrite He.
    + destruct error as [m | ax | msg |]; try discriminate.
      destruct (response ax) as [r|] eqn:Hr.
      2:{ unfold mapApiErrorToMcpError in He. rewrite Hr in He.
          cbn in He. discriminate He. }
      exists ax, r. split_and!; [done | done |].
      rewrite (mapApiErrorToMcpError_response ax r Hr) in He.
      by destruct (to_String _); simplify_eq.
  - intros error mcpError Hm. unfold catch_block, error_result. by rewrite Hm.
  - reflexivity.
  - reflexivity.
Qed.

(** ** Formatting the response *)

Lemma validateStatus_range (s : Z) : validateStatus s = true ↔ 200 ≤ s < 300.
Proof.
  unfold validateStatus. rewrite andb_true_iff, Z.leb_le, Z.ltb_lt. done.
Qed.

Lemma format_response_text (r : AxiosResponse) :
  format_response r =
  match
    (if indicates_json r && typeof_object (response_data r)
     then inr (JSON_stringify (response_data r))
     else to_String (response_data r))
  with
  | inl e => inl e
  | inr responseText =>
      inr {| content := [{| type := "text"; text := responseText |}];
             isError := None;
             error := None |}
  end.
Proof.
  unfold format_response, indicates_json.
  by destruct (response_headers r !! "content-type").
Qed.

(** C6, as amended.  The handler resolves the call to a tool, the
    mapping builds a request and the upstream answers it with a status
    from 200 to 299; that one request is issued.  When the content type
    indicates JSON and the data is a structured value, the handler
    returns one text item, [JSON.stringify(data, null, 2)], and no
    [isError] field, which the protocol reads as false.  Otherwise, when
    the data has a string form, it returns that string in the same way;
    and when the data has none, the [TypeError] of [String(data)] is
    caught and the result has [isError] true. *)
Theorem successful_response_result `{CaseMapping}
    (API_KEY : option string) (tools : list Tool)
    (net : AxiosRequestConfig → upstream) (request : CallToolRequest)
    (tool : Tool) (originalMethod originalPath : string)
    (config : AxiosRequestConfig) (r : AxiosResponse) :
  params_name request ≠ "doc" →
  find_tool tools (params_name request) = Some tool →
  nonempty (_original_method tool) = Some originalMethod →
  nonempty (_original_path tool) = Some originalPath →
  map_arguments API_KEY originalMethod originalPath (_original_parameters tool)
    (_original_request_body tool) (default ∅ (params_arguments request)) = inr config →
  net config = Responded r →
  200 ≤ status r < 300 →
  (indicates_json r = true → typeof_object (response_data r) = true →
   run net (handler API_KEY tools request) =
   (inr {| content :=
             [{| type := "text"; text := JSON_stringify (response_data r) |}];
           isError := None;
           error := None |}, [config]))
  ∧ (indicates_json r = false ∨ typeof_object (response_data r) = false →
     ∀ s, to_String (response_data r) = inr s →
     run net (handler API_KEY tools request) =
     (inr {| content := [{| type := "text"; text := s |}];
             isError := None;
             error := None |}, [config])
     ∧ (∀ t, response_data r = JStr t → s = t)
     ∧ (∀ text, response_data r = JNum text → s = text)
     ∧ (response_data r = JBool true → s = "true")
     ∧ (response_data r = JBool false → s = "false"))
  ∧ (indicates_json r = false ∨ typeof_object (response_data r) = false →
     ∀ e, to_String (response_data r) = inl e →
     run net (handler API_KEY tools request) =
     (inr {| content :=
               [{| type := "text";
                   text := "MCP error -32603: Request failed: " +:+
                           "Cannot convert object to primitive value" |}];
             isError := Some true;
             error :=
               Some {| code := InternalError;
                       message := "MCP error -32603: Request failed: " +:+
                                  "Cannot convert object to primitive value" |} |},
      [config]))
  ∧ is_error {| content := []; isError := None; error := None |} = false
  ∧ to_String unprintable = inl not_primitive
  ∧ JSON_stringify (JObj [("a", JNum "1")]) =
    String.concat (String newline EmptyString)
      ["{"; String.concat (String dquote EmptyString) ["  "; "a"; ": 1"]; "}"].
Proof.
  intros Hdoc Hfind Hm Hp Hmap Hnet Hstatus.
  assert (Hrun : run net (handler API_KEY tools request) =
            (match format_response r with
             | inl e => error_result e
             | inr result => inr result
             end, [config])).
  { rewrite (run_handler_resolved API_KEY tools net request tool _ _ Hdoc Hfind Hm Hp).
    rewrite run_try_block, Hmap, Hnet. unfold settle.
    by rewrite (proj2 (validateStatus_range (status r)) Hstatus). }
  rewrite Hrun, format_response_text.
  split_and!.
  - by intros -> ->.
  - intros Hplain s Hs.
    replace (indicates_json r && typeof_object (response_data r)) with false
      by (by destruct Hplain as [-> | ->]; rewrite ?andb_false_r).
    rewrite Hs. destruct (to_String_forms _ s Hs) as (? & ? & ? & ? & _).
    by split_and!.
  - intros Hplain e He.
    replace (indicates_json r && typeof_object (response_data r)) with false
      by (by destruct Hplain as [-> | ->]; rewrite ?andb_false_r).
    rewrite He. by rewrite (to_String_inl _ e He).
  - reflexivity.
  - reflexivity.
  - reflexivity.
Qed.

(** ** The doc tool *)

Lemma split_cons (sep : ascii) (s : string) :
  ∃ seg segs, split sep s = seg :: segs.
Proof.
  induction s as [|c s (seg & segs & IH)]; cbn; [by eauto |].
  case_bool_decide; [by eauto |]. rewrite IH. by eauto.
Qed.

Lemma split_app (sep : ascii) (pre suf : string) :
  split sep (pre +:+ String sep suf) = split sep pre ++ split sep suf.
Proof.
  induction pre as [|a pre IH].
  - rewrite app_empty. cbn. by rewrite bool_decide_eq_true_2.
  - rewrite app_cons. cbn [split]. rewrite IH. case_bool_decide; [done |].
    by destruct (split_cons sep pre) as (seg & segs & ->).
Qed.

Lemma split_no_separator (sep : ascii) (s : string) :
  ¬ In sep (String.list_ascii_of_string s) → split sep s = [s].
Proof.
  induction s as [|c s IH]; cbn; [done |]. intros Hs.
  rewrite bool_decide_eq_false_2 by (intros ->; apply Hs; by left).
  rewrite IH; [done |]. intros H. apply Hs. by right.
Qed.

Lemma pop_split_suffix (sep : ascii) (pre suf : string) :
  ¬ In sep (String.list_ascii_of_string suf) →
  pop (split sep (pre +:+ String sep suf)) = Some suf.
Proof.
  intros Hsuf. unfold pop. rewrite split_app, (split_no_separator sep suf Hsuf).
  apply last_snoc.
Qed.

Lemma existsb_separator (s : string) :
  existsb (fun d => bool_decide (d = "_"%char)) (String.list_ascii_of_string s) = true
  ↔ In "_"%char (String.list_ascii_of_string s).
Proof.
  rewrite existsb_exists. split.
  - intros (d & Hd & Heq). apply bool_decide_eq_true_1 in Heq. by subst.
  - intros H. exists "_"%char. split; [done | by apply bool_decide_eq_true_2].
Qed.

Lemma split_single (sep : ascii) (s seg : string) :
  split sep s = [seg] → ¬ In sep (String.list_ascii_of_string s).
Proof.
  revert seg. induction s as [|a s IH]; intros seg Hsplit; cbn; [tauto |].
  cbn in Hsplit. destruct (split_cons sep s) as (seg' & segs' & Heq).
  rewrite Heq in Hsplit. case_bool_decide; simplify_eq.
  intros [-> | Hin]; [done |]. by apply (IH seg').
Qed.

(** Line 110 computes the name the specification describes. *)
Lemma pop_split_after_last_separator (s : string) :
  pop (split "_" s) = Some (after_last_separator s).
Proof.
  induction s as [|c s IH]; [done |].
  cbn [after_last_separator].
  destruct (existsb _ (String.list_ascii_of_string s)) eqn:Hex.
  - rewrite <- IH. cbn [split].
    destruct (split_cons "_" s) as (seg & segs & Hsplit).
    assert (segs ≠ []) as Hsegs.
    { intros ->. apply existsb_separator in Hex.
      by apply (split_single "_" s seg). }
    rewrite Hsplit. unfold pop.
    case_bool_decide; destruct segs; done.
  - assert (¬ In "_"%char (String.list_ascii_of_string s)) as Hs.
    { intros H. apply existsb_separator in H. congruence. }
    cbn [split]. rewrite (split_no_separator "_" s Hs).
    by case_bool_decide.
Qed.

Lemma find_tool_requested (tools : list Tool) (stripped : string) :
  find (fun t => bool_decide (Some (name t) = Some stripped)) tools =
  find_tool tools stripped.
Proof.
  unfold find_tool. induction tools as [|t tools IH]; [done |]. cbn.
  rewrite IH. repeat case_bool_decide; by simplify_eq.
Qed.

(** The doc branch, from the string form of [args.tool]. *)
Lemma run_doc `{CaseMapping} (API_KEY : option string) (tools : list Tool)
    (net : AxiosRequestConfig → upstream) (request : CallToolRequest) :
  params_name request = "doc" →
  run net (handler API_KEY tools request) =
  match String_of (default ∅ (params_arguments request) !! "tool") with
  | inl e => (inl e, [])
  | inr given =>
      match find_tool tools (after_last_separator given) with
      | Some requestedTool =>
          (inr {| content :=
                    [{| type := "text";
                        text := JSON_stringify (_inputSchema requestedTool) |}];
                  isError := None;
                  error := None |}, [])
      | None =>
          (inl (ExMcp (tool_not_found (after_last_separator given))), [])
      end
  end.
Proof.
  intros Hdoc. unfold handler, requested_tool_name.
  rewrite bool_decide_eq_true_2 by done.
  destruct (String_of _) as [e|given]; [done |].
  rewrite pop_split_after_last_separator, find_tool_requested.
  by destruct (find_tool tools _).
Qed.

(** C7, as amended.  A call of the tool [doc] whose [tool] argument has
    a string form looks up the name that is left of [String(args.tool)]
    after its last ["_"]: the text after the last separator, the whole
    text when it has none.  When the catalog has a tool of that name the
    handler returns one text item, the
    [JSON.stringify(_inputSchema, null, 2)] of the first such tool; when
    it has none the handler rejects with a [MethodNotFound] error.  When
    the argument has no string form the handler rejects with the
    [TypeError].  In no case is an upstream request issued. *)
Theorem doc_returns_input_schema `{CaseMapping}
    (API_KEY : option string) (tools : list Tool)
    (net : AxiosRequestConfig → upstream) (request : CallToolRequest) :
  params_name request = "doc" →
  let args := default ∅ (params_arguments request) in
  (∀ e, String_of (args !! "tool") = inl e →
     e = not_primitive ∧ run net (handler API_KEY tools request) = (inl e, []))
  ∧ (∀ given, String_of (args !! "tool") = inr given →
       let stripped := after_last_separator given in
       requested_tool_name args = inr (Some stripped)
       ∧ (∀ pre suf : string,
            given = pre +:+ String "_" suf →
            ¬ In "_"%char (String.list_ascii_of_string suf) →
            stripped = suf)
       ∧ (¬ In "_"%char (String.list_ascii_of_string given) → stripped = given)
       ∧ (∀ requestedTool : Tool,
            find_tool tools stripped = Some requestedTool →
            run net (handler API_KEY tools request) =
            (inr {| content :=
                      [{| type := "text";
                          text := JSON_stringify (_inputSchema requestedTool) |}];
                    isError := None;
                    error := None |}, []))
       ∧ (find_tool tools stripped = None →
          run net (handler API_KEY tools request) =
          (inl (ExMcp (new_McpError MethodNotFound
                         ("Tool '" +:+ stripped +:+ "' not found."))), [])))
  ∧ (∀ t, args !! "tool" = Some (JStr t) → String_of (args !! "tool") = inr t)
  ∧ (args !! "tool" = None → String_of (args !! "tool") = inr "undefined")
  ∧ (args !! "tool" = Some unprintable →
     String_of (args !! "tool") = inl not_primitive)
  ∧ JSON_stringify (_inputSchema backlinks_tool) =
    String.concat (String newline EmptyString)
      ["{";
       String.concat (String dquote EmptyString) ["  "; "type"; ": "; "object"; ","];
       String.concat (String dquote EmptyString) ["  "; "required"; ": ["];
       String.concat (String dquote EmptyString) ["    "; "target"; ""];
       "  ]";
       "}"].
Proof.
  intros Hdoc args.
  pose proof (run_doc API_KEY tools net request Hdoc) as Hrun. fold args in Hrun.
  split_and!.
  - intros e He. rewrite He in Hrun. split; [| done].
    destruct (args !! "tool") as [w|]; [| discriminate]. by eapply to_String_inl.
  - intros given Hgiven stripped. rewrite Hgiven in Hrun. fold stripped in Hrun.
    assert (Hname : requested_tool_name args = inr (Some stripped)).
    { unfold requested_tool_name. rewrite Hgiven.
      by rewrite pop_split_after_last_separator. }
    split_and!.
    + done.
    + intros pre suf Hpre Hsuf.
      pose proof (pop_split_suffix "_" pre suf Hsuf) as Hpop.
      rewrite <- Hpre, pop_split_after_last_separator in Hpop. by simplify_eq.
    + intros Hnone.
      pose proof (pop_split_after_last_separator given) as Hpop.
      rewrite (split_no_separator "_" given Hnone) in Hpop.
      cbn in Hpop. by simplify_eq.
    + intros t Hfind. by rewrite Hfind in Hrun.
    + intros Hfind. by rewrite Hfind in Hrun.
  - by intros t ->.
  - by intros ->.
  - by intros ->.
  - reflexivity.
Qed.

(** * Further properties of the mapping *)

Section Mapping.

Context `{CaseMapping}.

(** ** Arguments the descriptor does not declare *)

Lemma process_params_agree (args args' : gmap string json)
    (ps : list OriginalParameter) (st : MapperState) :
  (∀ p, p ∈ ps → args !! param_name p = args' !! param_name p) →
  process_params args st ps = process_params args' st ps.
Proof.
  revert st. induction ps as [|q ps IH]; intros st Hagree; cbn; [done |].
  assert (process_param args st q = process_param args' st q) as ->.
  { unfold process_param. by rewrite (Hagree q (list_elem_of_here _ _)). }
  destruct (process_param args' st q); [done |].
  apply IH. intros p Hp. apply Hagree. by apply list_elem_of_further.
Qed.

(** X1.  The mapping reads [args.requestBody] and the arguments named
    by the descriptor's parameters and nothing else: two argument maps
    that agree there give the same outcome, request or failure. *)
Theorem undeclared_arguments_are_ignored
    (API_KEY : option string) (originalMethod originalPath : string)
    (originalParameters : list OriginalParameter) (info : option RequestBodyInfo)
    (args args' : gmap string json) :
  (∀ p, p ∈ originalParameters → args !! param_name p = args' !! param_name p) →
  args !! "requestBody" = args' !! "requestBody" →
  map_arguments API_KEY originalMethod originalPath originalParameters info args =
  map_arguments API_KEY originalMethod originalPath originalParameters info args'.
Proof.
  intros Hagree Hbody. unfold map_arguments, initial_state.
  by rewrite Hbody, (process_params_agree args args' _ _ Hagree).
Qed.

(** ** How the mapping fails *)

Lemma place_body (st : MapperState) (paramName : string) (v : json) :
  place st paramName "body" v =
  match set_property (if truthy (requestBody st)
                      then default (JObj []) (requestBody st) else JObj [])
                     paramName v with
  | inl e => inl e
  | inr body =>
      inr {| targetPath := targetPath st;
             queryParams := queryParams st;
             headers := headers st;
             requestBody := Some body |}
  end.
Proof. reflexivity. Qed.

Lemma set_property_inr (target : json) (paramName : string) (v body : json) :
  set_property target paramName v = inr body → prebuilt_body (Some body).
Proof.
  destruct target; cbn; try discriminate; repeat case_match;
    intros ?; by simplify_eq.
Qed.

(** Why [place] throws, by location. *)
Lemma place_inl (st : MapperState) (paramName paramIn : string) (v : json) (e : exn) :
  place st paramName paramIn v = inl e →
  (paramIn = "body" ∧ (∃ msg, e = ExError msg) ∧ ¬ prebuilt_body (requestBody st))
  ∨ ((paramIn = "path" ∨ paramIn = "header") ∧
     to_String v = inl e ∧ e = not_primitive)
  ∨ (paramIn = "path" ∧
     ∃ s, to_String v = inr s ∧ has_lone_surrogate s = true ∧ e = URI_malformed).
Proof.
  unfold place. intros Hplace. repeat case_bool_decide; try discriminate.
  - destruct (to_String v) as [e'|s] eqn:Hv.
    + simplify_eq. right. left. split_and!; [by left | done |].
      by eapply to_String_inl.
    + destruct (encodeURIComponent s) as [e'|] eqn:Hs; [| discriminate].
      apply encodeURIComponent_inl in Hs as [Hs ->]. simplify_eq.
      right. right. split; [done |]. by exists s.
  - destruct (to_String v) as [e'|s] eqn:Hv; [| discriminate].
    simplify_eq. right. left. split_and!; [by right | done |].
    by eapply to_String_inl.
  - left. split; [done |].
    destruct (requestBody st) as [[| b | n | s | items | fields]|]; cbn in Hplace;
      repeat case_match; simplify_eq; split; try (by intros []);
      match goal with
      | Hset : set_property _ _ _ = inl _ |- _ => cbn in Hset; simplify_eq; eauto
      end.
Qed.

Section BodyOrigin.

Context (args : gmap string json).

Lemma process_param_inr (st st' : MapperState) (q : OriginalParameter) :
  process_param args st q = inr st' →
  (present (args !! param_name q) = None ∧ st' = st)
  ∨ (∃ v, placed_value (param_name q) args = inr (Some v) ∧
          present (args !! param_name q) ≠ None ∧
          place st (param_name q) (param_in q) v = inr st').
Proof.
  rewrite process_param_placed.
  destruct (placed_value (param_name q) args) as [|[v|]] eqn:Hv; [discriminate | |].
  - intros Hplace. right. exists v. split_and!; [done | | done].
    apply placed_value_inv in Hv as (w & Hw & Hnull & _).
    by rewrite Hw, (present_Some w Hnull).
  - apply placed_value_None in Hv.
    destruct (param_required q); intros; simplify_eq. by left.
Qed.

Lemma process_param_body_origin (st st' : MapperState) (q : OriginalParameter) :
  process_param args st q = inr st' → body_origin args st → body_origin args st'.
Proof.
  intros Hstep Hst.
  apply process_param_inr in Hstep as [[_ ->] | (v & _ & _ & Hplace)]; [done |].
  destruct (decide (param_in q = "body")) as [Hloc | Hloc].
  - right. rewrite Hloc, place_body in Hplace.
    destruct (set_property _ (param_name q) v) as [|body] eqn:Hset; [discriminate |].
    simplify_eq. cbn. by eapply set_property_inr.
  - apply place_inr in Hplace as (_ & _ & Hbody & _).
    unfold body_origin. by rewrite (Hbody Hloc).
Qed.

(** Why a loop turn throws. *)
Lemma process_param_inl (st : MapperState) (q : OriginalParameter) (e : exn) :
  process_param args st q = inl e →
  (param_required q = true ∧ present (args !! param_name q) = None ∧
   e = ExMcp (MissingParameter (param_name q)))
  ∨ (param_in q = "body" ∧ present (args !! param_name q) ≠ None ∧
     (∃ msg, e = ExError msg) ∧ ¬ prebuilt_body (requestBody st))
  ∨ (∃ w, args !! param_name q = Some w ∧ to_String w = inl e ∧ e = not_primitive ∧
          (param_name q ∈ lowercased ∨ param_in q = "path" ∨ param_in q = "header"))
  ∨ (∃ v s, param_in q = "path" ∧ placed_value (param_name q) args = inr (Some v) ∧
            to_String v = inr s ∧ has_lone_surrogate s = true ∧ e = URI_malformed).
Proof.
  rewrite process_param_placed. intros Hstep.
  destruct (decide (present (args !! param_name q) = None)) as [Habsent | Hsupplied].
  { rewrite (placed_value_absent args _ Habsent) in Hstep.
    destruct (param_required q) eqn:Hreq; [| discriminate].
    simplify_eq. by left. }
  assert (∃ w, args !! param_name q = Some w ∧ w ≠ JNull) as (w & Hw & Hnull).
  { destruct (present (args !! param_name q)) as [w|] eqn:Hp; [| done].
    exists w. by apply present_Some_inv. }
  - rewrite (placed_value_supplied args _ w Hw Hnull) in Hstep.
    assert (Hplace : ∀ v,
      placed_value (param_name q) args = inr (Some v) →
      (param_name q ∉ lowercased → v = w) →
      place st (param_name q) (param_in q) v = inl e →
      (∃ s, to_String v = inr s) ∨ param_name q ∉ lowercased →
      (param_in q = "body" ∧ present (args !! param_name q) ≠ None ∧
       (∃ msg, e = ExError msg) ∧ ¬ prebuilt_body (requestBody st))
      ∨ (∃ w, args !! param_name q = Some w ∧ to_String w = inl e ∧
              e = not_primitive ∧
              (param_name q ∈ lowercased ∨ param_in q = "path" ∨
               param_in q = "header"))
      ∨ (∃ v s, param_in q = "path" ∧
                placed_value (param_name q) args = inr (Some v) ∧
                to_String v = inr s ∧ has_lone_surrogate s = true ∧
                e = URI_malformed)).
    { intros v Hv Hraw Hp Hform.
      apply place_inl in Hp as [(? & ? & ?) | [(Hloc & Hs & ->) | (? & s & ? & ? & ->)]].
      - by left.
      - right. left. destruct Hform as [[s' Hs'] | Hname]; [congruence |].
        pose proof (Hraw Hname) as ->.
        exists w. split_and!; [done | done | done |].
        right. destruct Hloc; auto.
      - right. right. by exists v, s. }
    right. case_bool_decide as Hname.
    + destruct (to_String w) as [e'|s] eqn:Hs.
      * simplify_eq. right. left. exists w.
        split_and!; [done | done | by eapply to_String_inl | by left].
      * apply (Hplace (JStr (toLowerCase s))); [| done | done | left; by eexists].
        rewrite (placed_value_supplied args _ w Hw Hnull).
        by rewrite bool_decide_eq_true_2, Hs.
    + apply (Hplace w); [| done | done | by right].
      rewrite (placed_value_supplied args _ w Hw Hnull).
      by rewrite bool_decide_eq_false_2.
Qed.

Lemma process_params_inl (ps : list OriginalParameter) (st : MapperState) (e : exn) :
  process_params args st ps = inl e →
  body_origin args st →
  (∃ p, p ∈ ps ∧ param_required p = true ∧
        present (args !! param_name p) = None ∧
        e = ExMcp (MissingParameter (param_name p)))
  ∨ (∃ p, p ∈ ps ∧ param_in p = "body" ∧
          present (args !! param_name p) ≠ None ∧
          (∃ msg, e = ExError msg) ∧ ¬ prebuilt_body (args !! "requestBody"))
  ∨ (∃ p w, p ∈ ps ∧ args !! param_name p = Some w ∧ to_String w = inl e ∧
            e = not_primitive ∧
            (param_name p ∈ lowercased ∨ param_in p = "path" ∨
             param_in p = "header"))
  ∨ (∃ p v s, p ∈ ps ∧ param_in p = "path" ∧
              placed_value (param_name p) args = inr (Some v) ∧
              to_String v = inr s ∧ has_lone_surrogate s = true ∧
              e = URI_malformed).
Proof.
  revert st. induction ps as [|q ps IH]; intros st Hrun Hst; cbn in Hrun;
    [discriminate |].
  destruct (process_param args st q) as [e'|st1] eqn:Hstep.
  - simplify_eq.
    apply process_param_inl in Hstep
      as [(? & ? & ?) | [(? & ? & ? & Hprim) | [(w & ?) | (v & s & ?)]]].
    + left. exists q. split; [apply list_elem_of_here | done].
    + right. left. exists q. split; [apply list_elem_of_here |].
      split_and!; try done.
      destruct Hst as [Heq | Hpre]; [by rewrite <- Heq | done].
    + right. right. left. exists q, w. split; [apply list_elem_of_here | done].
    + right. right. right. exists q, v, s. split; [apply list_elem_of_here | done].
  - destruct (IH st1 Hrun (process_param_body_origin st st1 q Hstep Hst))
      as [(p & Hp & ?) | [(p & Hp & ?) | [(p & w & Hp & ?) | (p & v & s & Hp & ?)]]].
    + left. exists p. split; [by apply list_elem_of_further | done].
    + right. left. exists p. split; [by apply list_elem_of_further | done].
    + right. right. left. exists p, w.
      split; [by apply list_elem_of_further | done].
    + right. right. right. exists p, v, s.
      split; [by apply list_elem_of_further | done].
Qed.

End BodyOrigin.

(** X2.  The mapping fails in five ways only: a required parameter has
    no argument, and the error is the missing-parameter error naming it;
    the request body is required, and the error is the missing-body
    error; a body-located parameter with an argument meets an
    [args.requestBody] that is a string, number or boolean, and the error
    is a [TypeError]; the argument of a lower-cased, path or header
    parameter has no string form, and the error is the [TypeError] of
    [String]; or the string form of a path value holds a lone surrogate,
    and the error is the [URIError]. *)
Theorem mapping_failure_modes
    (API_KEY : option string) (originalMethod originalPath : string)
    (originalParameters : list OriginalParameter) (info : option RequestBodyInfo)
    (args : gmap string json) (e : exn) :
  map_arguments API_KEY originalMethod originalPath originalParameters info args
    = inl e →
  (∃ p, p ∈ originalParameters ∧ param_required p = true ∧
        present (args !! param_name p) = None ∧
        e = ExMcp (MissingParameter (param_name p)))
  ∨ (e = ExMcp MissingBody ∧ ∃ i, info = Some i ∧ required i = true)
  ∨ (∃ p, p ∈ originalParameters ∧ param_in p = "body" ∧
          present (args !! param_name p) ≠ None ∧
          (∃ msg, e = ExError msg) ∧ ¬ prebuilt_body (args !! "requestBody"))
  ∨ (∃ p w, p ∈ originalParameters ∧ args !! param_name p = Some w ∧
            to_String w = inl e ∧ e = not_primitive ∧
            (param_name p ∈ lowercased ∨ param_in p = "path" ∨
             param_in p = "header"))
  ∨ (∃ p v s, p ∈ originalParameters ∧ param_in p = "path" ∧
              placed_value (param_name p) args = inr (Some v) ∧
              to_String v = inr s ∧ has_lone_surrogate s = true ∧
              e = URI_malformed).
Proof.
  unfold map_arguments. intros Hmap.
  destruct (process_params args (initial_state API_KEY originalPath args)
              originalParameters) as [e'|st] eqn:Hrun.
  - simplify_eq.
    destruct (process_params_inl args _ _ _ Hrun) as [? | [? | [? | ?]]];
      [by left | auto 6..].
  - right. left. unfold finalize_body in Hmap.
    destruct info as [i|]; cbn in Hmap.
    + destruct (present (requestBody st)); [discriminate |].
      destruct (required i) eqn:Hreq; [| discriminate]. simplify_eq. eauto.
    + destruct (present (requestBody st)); discriminate.
Qed.

End Mapping.

(** ** What the request is made of *)

Section Request.

Context `{CaseMapping}.

(** A property of the state that every turn keeps is kept by the loop. *)
Lemma process_params_invariant (args : gmap string json) (P : MapperState → Prop)
    (ps : list OriginalParameter) (st st' : MapperState) :
  (∀ q s s', q ∈ ps → process_param args s q = inr s' → P s → P s') →
  process_params args st ps = inr st' → P st → P st'.
Proof.
  revert st. induction ps as [|q ps IH]; intros st Hstep Hrun Hst; cbn in Hrun.
  - by simplify_eq.
  - destruct (process_param args st q) as [|st1] eqn:Hq; [discriminate |].
    apply (IH st1); [| done |].
    + intros q' s s' Hq'. apply Hstep. by apply list_elem_of_further.
    + eapply Hstep; [apply list_elem_of_here | done | done].
Qed.

(** A location that no parameter with an argument names is left as the
    loop found it. *)
Lemma process_params_unwritten (args : gmap string json)
    (ps : list OriginalParameter) (st st' : MapperState) :
  process_params args st ps = inr st' →
  ((∀ p, p ∈ ps → param_in p = "path" → present (args !! param_name p) = None) →
   targetPath st' = targetPath st) ∧
  ((∀ p, p ∈ ps → param_in p = "body" → present (args !! param_name p) = None) →
   requestBody st' = requestBody st) ∧
  (∀ n, (∀ p, p ∈ ps → param_in p = "header" → param_name p = n →
              present (args !! n) = None) →
        headers st' !! n = headers st !! n) ∧
  (∀ k, (∀ p, p ∈ ps → param_in p = "query" → param_name p = k →
              present (args !! k) = None) →
        queryParams st' !! k = queryParams st !! k).
Proof.
  intros Hrun. split_and!.
  - intros Hno.
    apply (process_params_invariant args (λ s, targetPath s = targetPath st)
             ps st st'); [| done | done].
    intros q s s' Hq Hstep <-.
    apply process_param_inr in Hstep as [[_ ->] | (v & _ & Hw & Hplace)]; [done |].
    apply place_inr in Hplace as (_ & _ & _ & Hpath). apply Hpath.
    intros Hloc. by apply Hw, Hno.
  - intros Hno.
    apply (process_params_invariant args (λ s, requestBody s = requestBody st)
             ps st st'); [| done | done].
    intros q s s' Hq Hstep <-.
    apply process_param_inr in Hstep as [[_ ->] | (v & _ & Hw & Hplace)]; [done |].
    apply place_inr in Hplace as (_ & _ & Hbody & _). apply Hbody.
    intros Hloc. by apply Hw, Hno.
  - intros n Hno.
    apply (process_params_invariant args (λ s, headers s !! n = headers st !! n)
             ps st st'); [| done | done].
    intros q s s' Hq Hstep <-.
    apply process_param_inr in Hstep as [[_ ->] | (v & _ & Hw & Hplace)]; [done |].
    apply place_inr in Hplace as (_ & Hh & _).
    case_bool_decide; [| by rewrite Hh]. destruct Hh as (text & _ & ->).
    apply lookup_insert_ne. intros Heq. apply Hw. rewrite Heq. by apply (Hno q).
  - intros k Hno.
    apply (process_params_invariant args
             (λ s, queryParams s !! k = queryParams st !! k) ps st st');
      [| done | done].
    intros q s s' Hq Hstep <-.
    apply process_param_inr in Hstep as [[_ ->] | (v & _ & Hw & Hplace)]; [done |].
    apply place_inr in Hplace as (-> & _). case_bool_decide; [| done].
    apply lookup_insert_ne. intros Heq. apply Hw. rewrite Heq. by apply (Hno q).
Qed.

(** An entry of [queryParams] was there before the loop or was written
    for a query parameter of that name. *)
Lemma process_params_query_origin (args : gmap string json)
    (ps : list OriginalParameter) (st st' : MapperState) (k : string) (v : json) :
  process_params args st ps = inr st' →
  queryParams st' !! k = Some v →
  queryParams st !! k = Some v
  ∨ ∃ p, p ∈ ps ∧ param_name p = k ∧ param_in p = "query" ∧
         placed_value k args = inr (Some v).
Proof.
  revert st. induction ps as [|q ps IH]; intros st Hrun Hk; cbn in Hrun.
  - simplify_eq. by left.
  - destruct (process_param args st q) as [|st1] eqn:Hq; [discriminate |].
    destruct (IH st1 Hrun Hk) as [Hst1 | (p & Hp & ?)].
    + apply process_param_inr in Hq as [[_ ->] | (u & Hu & _ & Hplace)];
        [by left |].
      apply place_inr in Hplace as (Hquery & _). rewrite Hquery in Hst1.
      case_bool_decide as Hloc; [| by left].
      destruct (decide (param_name q = k)) as [Hname | Hname].
      * right. exists q. rewrite Hname, lookup_insert_eq in Hst1. simplify_eq.
        split; [apply list_elem_of_here | done].
      * left. by rewrite lookup_insert_ne in Hst1.
    + right. exists p. split; [by apply list_elem_of_further | done].
Qed.

Lemma map_arguments_inr (API_KEY : option string) (originalMethod originalPath : string)
    (ps : list OriginalParameter) (info : option RequestBodyInfo)
    (args : gmap string json) (config : AxiosRequestConfig) :
  map_arguments API_KEY originalMethod originalPath ps info args = inr config →
  ∃ st hs,
    process_params args (initial_state API_KEY originalPath args) ps = inr st ∧
    finalize_body info st None = inr (cfg_data config, hs) ∧
    config = {| cfg_method := originalMethod;
                cfg_url := targetPath st;
                cfg_params := queryParams st;
                cfg_headers := hs;
                cfg_data := cfg_data config |}.
Proof.
  unfold map_arguments.
  destruct (process_params args _ ps) as [|st] eqn:Hrun; [discriminate |].
  destruct (finalize_body info st None) as [|[requestData hs]] eqn:Hfin;
    [discriminate |].
  intros [= <-]. by exists st, hs.
Qed.

(** X3.  The query of a request that is built holds exactly the
    query-located parameters that have an argument, each with the value
    it is placed with: nothing else reaches [params]. *)
Theorem query_parameters_exact
    (API_KEY : option string) (originalMethod originalPath : string)
    (originalParameters : list OriginalParameter) (info : option RequestBodyInfo)
    (args : gmap string json) (config : AxiosRequestConfig) (k : string) (v : json) :
  map_arguments API_KEY originalMethod originalPath originalParameters info args
    = inr config →
  cfg_params config !! k = Some v
  ↔ ∃ p, p ∈ originalParameters ∧ param_name p = k ∧ param_in p = "query" ∧
         placed_value k args = inr (Some v).
Proof.
  intros Hmap. apply map_arguments_inr in Hmap as (st & hs & Hrun & _ & ->). cbn.
  split.
  - intros Hk.
    destruct (process_params_query_origin args _ _ st k v Hrun Hk) as [Hinit | ?];
      [| done].
    cbn in Hinit. by rewrite lookup_empty in Hinit.
  - intros (p & Hp & <- & Hloc & Hv).
    by apply (process_params_placed args _ _ st p v Hrun Hp Hv).
Qed.

(** X4.  A request that is built carries [Accept: application/json],
    [User-Agent: ahrefs-mcp-server] and [Authorization: Bearer] with the
    configured key, the text [undefined] standing for a key that is not
    set, each unless a header-located parameter of that very name has an
    argument. *)
Theorem default_headers_sent
    (API_KEY : option string) (originalMethod originalPath : string)
    (originalParameters : list OriginalParameter) (info : option RequestBodyInfo)
    (args : gmap string json) (config : AxiosRequestConfig) (n : string) :
  map_arguments API_KEY originalMethod originalPath originalParameters info args
    = inr config →
  n ∈ ["Accept"; "User-Agent"; "Authorization"] →
  (∀ p, p ∈ originalParameters → param_in p = "header" → param_name p = n →
        present (args !! n) = None) →
  cfg_headers config !! n =
  <["Authorization" := "Bearer " +:+ default "undefined" API_KEY]>
    (<["User-Agent" := "ahrefs-mcp-server"]>
       (<["Accept" := "application/json"]> (∅ : gmap string string))) !! n
  ∧ is_Some (cfg_headers config !! n).
Proof.
  intros Hmap Hn Hno.
  apply map_arguments_inr in Hmap as (st & hs & Hrun & Hfin & ->). cbn.
  destruct (process_params_unwritten args _ _ st Hrun) as (_ & _ & Hheaders & _).
  assert (n ≠ "Content-Type") as Hct.
  { intros ->. repeat (apply elem_of_cons in Hn as [Hn | Hn]; [discriminate |]).
    by apply elem_of_nil in Hn. }
  rewrite (finalize_body_headers info st _ hs n Hfin Hct), (Hheaders n Hno).
  split; [done |]. cbn.
  repeat (apply elem_of_cons in Hn as [-> | Hn]; [by eexists |]).
  by apply elem_of_nil in Hn.
Qed.

(** X5.  A header-located parameter with an argument is sent, in a
    request that is built, as a header of its own name holding the string
    form of the value, lower-cased for the three lower-cased names, also
    when the name is one of the default headers: a parameter named
    [Authorization] replaces the bearer credential.  Only [Content-Type]
    is excepted, which the body decides. *)
Theorem header_parameter_sent
    (API_KEY : option string) (originalMethod originalPath : string)
    (originalParameters : list OriginalParameter) (info : option RequestBodyInfo)
    (args : gmap string json) (config : AxiosRequestConfig)
    (param : OriginalParameter) (w : json) :
  map_arguments API_KEY originalMethod originalPath originalParameters info args
    = inr config →
  param ∈ originalParameters →
  param_in param = "header" →
  param_name param ≠ "Content-Type" →
  args !! param_name param = Some w →
  w ≠ JNull →
  ∃ s, to_String w = inr s ∧
       cfg_headers config !! param_name param =
       Some (if bool_decide (param_name param ∈ lowercased)
             then toLowerCase s else s).
Proof.
  intros Hmap Hp Hloc Hname Hw Hnull.
  apply map_arguments_inr in Hmap as (st & hs & Hrun & Hfin & ->). cbn.
  rewrite (finalize_body_headers info st _ hs _ Hfin Hname).
  pose proof (placed_value_supplied args _ w Hw Hnull) as Hv.
  case_bool_decide.
  - destruct (to_String w) as [e|s] eqn:Hs.
    + exfalso. clear Hfin. revert Hrun Hp Hv.
      generalize (initial_state API_KEY originalPath args).
      induction originalParameters as [|q ps IH]; intros st0 Hrun Hp Hv.
      * by apply elem_of_nil in Hp.
      * cbn in Hrun.
        destruct (process_param args st0 q) as [|st1] eqn:Hq; [discriminate |].
        apply elem_of_cons in Hp as [<- | Hp]; [| by eapply IH].
        rewrite process_param_placed, Hv in Hq. discriminate.
    + exists s. split; [done |].
      destruct (process_params_placed args _ _ st param _ Hrun Hp Hv)
        as [_ Hheader].
      destruct (Hheader Hloc) as (s' & Hs' & ->). cbn in Hs'. by simplify_eq.
  - destruct (process_params_placed args _ _ st param _ Hrun Hp Hv) as [_ Hheader].
    destruct (Hheader Hloc) as (s & Hs & ->). by exists s.
Qed.

Lemma finalize_body_inr (info : option RequestBodyInfo) (st : MapperState)
    (requestData : option json) (hs : gmap string string) :
  finalize_body info st None = inr (requestData, hs) →
  (∃ i body, info = Some i ∧ present (requestBody st) = Some body ∧
             requestData = Some body ∧
             hs = <["Content-Type" := content_type_or_json i]> (headers st))
  ∨ (requestData = None ∧ hs = headers st ∧
     (info = None ∨ present (requestBody st) = None)).
Proof.
  unfold finalize_body.
  destruct info as [i|], (present (requestBody st)) as [body|] eqn:Hbody; cbn.
  - intros [= <- <-]. left. by exists i, body.
  - destruct (required i); [discriminate |]. intros [= <- <-]. right. auto.
  - intros [= <- <-]. right. auto.
  - intros [= <- <-]. right. auto.
Qed.

(** X6.  The [Content-Type] header follows the body.  A request with
    data was built from a descriptor with request-body metadata and has
    the metadata's content type, [application/json] when that is null or
    empty, whatever a header parameter named [Content-Type] said.  A
    request without data has no [Content-Type] unless such a parameter
    supplied one. *)
Theorem content_type_follows_body
    (API_KEY : option string) (originalMethod originalPath : string)
    (originalParameters : list OriginalParameter) (info : option RequestBodyInfo)
    (args : gmap string json) (config : AxiosRequestConfig) :
  map_arguments API_KEY originalMethod originalPath originalParameters info args
    = inr config →
  (cfg_data config ≠ None →
   ∃ i, info = Some i ∧
        cfg_headers config !! "Content-Type" = Some (content_type_or_json i))
  ∧ (cfg_data config = None →
     (∀ p, p ∈ originalParameters → param_in p = "header" →
           param_name p = "Content-Type" → present (args !! "Content-Type") = None) →
     cfg_headers config !! "Content-Type" = None).
Proof.
  intros Hmap.
  apply map_arguments_inr in Hmap as (st & hs & Hrun & Hfin & Hconfig).
  rewrite Hconfig. cbn.
  apply finalize_body_inr in Hfin
    as [(i & body & -> & _ & Hdata & ->) | (Hdata & -> & _)]; rewrite Hdata.
  - split; [| discriminate]. intros _. exists i. split; [done |].
    apply lookup_insert_eq.
  - split; [done |]. intros _ Hno.
    destruct (process_params_unwritten args _ _ st Hrun) as (_ & _ & Hheaders & _).
    by rewrite (Hheaders "Content-Type" Hno).
Qed.

(** ** The body *)

(** X7.  With request-body metadata and no body-located parameter that
    has an argument, [args.requestBody] is sent as the data as it came,
    whatever JSON value it is. *)
Theorem request_body_passed_through
    (API_KEY : option string) (originalMethod originalPath : string)
    (originalParameters : list OriginalParameter) (info : RequestBodyInfo)
    (args : gmap string json) (config : AxiosRequestConfig) (body : json) :
  map_arguments API_KEY originalMethod originalPath originalParameters (Some info) args
    = inr config →
  args !! "requestBody" = Some body →
  body ≠ JNull →
  (∀ p, p ∈ originalParameters → param_in p = "body" →
        present (args !! param_name p) = None) →
  cfg_data config = Some body.
Proof.
  intros Hmap Hbody Hnull Hno.
  apply map_arguments_inr in Hmap as (st & hs & Hrun & Hfin & _).
  destruct (process_params_unwritten args _ _ st Hrun) as (_ & Hsame & _).
  apply finalize_body_inr in Hfin
    as [(i & b & _ & Hb & -> & _) | (_ & _ & [Hinfo | Hb])].
  - rewrite (Hsame Hno) in Hb. cbn in Hb.
    rewrite Hbody, (present_Some body Hnull) in Hb. congruence.
  - discriminate.
  - rewrite (Hsame Hno) in Hb. cbn in Hb.
    rewrite Hbody, (present_Some body Hnull) in Hb. discriminate.
Qed.

End Request.

Lemma assoc_set_assoc_eq (n : string) (v : json) (fields : list (string * json)) :
  assoc n (set_assoc n v fields) = Some v.
Proof.
  induction fields as [|[k old] fields IH]; cbn.
  - by rewrite bool_decide_eq_true_2.
  - case_bool_decide as Hk; cbn; rewrite ?bool_decide_eq_true_2 by done; [done |].
    by rewrite bool_decide_eq_false_2.
Qed.

Lemma assoc_set_assoc_ne (k n : string) (v : json) (fields : list (string * json)) :
  k ≠ n → assoc k (set_assoc n v fields) = assoc k fields.
Proof.
  intros Hne. induction fields as [|[k' old] fields IH]; cbn.
  - by rewrite bool_decide_eq_false_2.
  - case_bool_decide as Hk; cbn.
    + subst k'. by rewrite !bool_decide_eq_false_2 by done.
    + by rewrite IH.
Qed.

Lemma place_body_object (st : MapperState) (paramName : string) (v : json) :
  object_or_falsy (requestBody st) →
  place st paramName "body" v =
  inr {| targetPath := targetPath st;
         queryParams := queryParams st;
         headers := headers st;
         requestBody :=
           Some (JObj (set_assoc paramName v (body_fields (requestBody st)))) |}.
Proof.
  rewrite place_body. intros [Hfalsy | [fields Hobj]].
  - rewrite Hfalsy. cbn. destruct (requestBody st) as [[]|]; try done.
  - by rewrite Hobj.
Qed.

Section Body.

Context `{CaseMapping} (args : gmap string json).

(** A loop that completes has found the value of each parameter. *)
Lemma process_params_value (ps : list OriginalParameter) (st st' : MapperState)
    (param : OriginalParameter) :
  process_params args st ps = inr st' →
  param ∈ ps →
  ∃ x, placed_value (param_name param) args = inr x.
Proof.
  revert st. induction ps as [|q ps IH]; intros st Hrun Hin.
  - by apply elem_of_nil in Hin.
  - cbn in Hrun.
    destruct (process_param args st q) as [|st1] eqn:Hstep; [discriminate |].
    apply elem_of_cons in Hin as [<- | Hin]; [| by eapply IH].
    rewrite process_param_placed in Hstep.
    destruct (placed_value (param_name param) args); [discriminate | by eexists].
Qed.

Lemma process_param_object (st st' : MapperState) (q : OriginalParameter) :
  process_param args st q = inr st' →
  object_or_falsy (requestBody st) → object_or_falsy (requestBody st').
Proof.
  intros Hstep Hst.
  apply process_param_inr in Hstep as [[_ ->] | (v & _ & _ & Hplace)]; [done |].
  destruct (decide (param_in q = "body")) as [Hloc | Hloc].
  - rewrite Hloc, (place_body_object st _ v Hst) in Hplace. simplify_eq.
    right. by eexists.
  - apply place_inr in Hplace as (_ & _ & Hbody & _). by rewrite (Hbody Hloc).
Qed.

(** A field that holds the value its name is placed with stays so. *)
Lemma process_param_field_stable (st st' : MapperState) (q : OriginalParameter)
    (n : string) (v : json) :
  process_param args st q = inr st' →
  placed_value n args = inr (Some v) →
  object_or_falsy (requestBody st) ∧
    (∃ fields, requestBody st = Some (JObj fields) ∧ assoc n fields = Some v) →
  object_or_falsy (requestBody st') ∧
    (∃ fields, requestBody st' = Some (JObj fields) ∧ assoc n fields = Some v).
Proof.
  intros Hstep Hv [Hobj (fields & Hst & Hn)].
  split; [by eapply process_param_object |].
  apply process_param_inr in Hstep as [[_ ->] | (u & Hu & _ & Hplace)]; [eauto |].
  destruct (decide (param_in q = "body")) as [Hloc | Hloc].
  - rewrite Hloc, (place_body_object st _ u Hobj) in Hplace. simplify_eq. cbn.
    eexists. split; [done |]. rewrite Hst. cbn.
    destruct (decide (param_name q = n)) as [Heq | Hne].
    + subst n. rewrite Hu in Hv. injection Hv as ->. apply assoc_set_assoc_eq.
    + by rewrite assoc_set_assoc_ne.
  - apply place_inr in Hplace as (_ & _ & Hbody & _). rewrite (Hbody Hloc). eauto.
Qed.

Lemma process_params_field (ps : list OriginalParameter) (st st' : MapperState)
    (param : OriginalParameter) (v : json) :
  process_params args st ps = inr st' →
  object_or_falsy (requestBody st) →
  param ∈ ps →
  param_in param = "body" →
  placed_value (param_name param) args = inr (Some v) →
  ∃ fields, requestBody st' = Some (JObj fields) ∧
            assoc (param_name param) fields = Some v.
Proof.
  revert st. induction ps as [|q ps IH]; intros st Hrun Hobj Hin Hloc Hv.
  - by apply elem_of_nil in Hin.
  - cbn in Hrun.
    destruct (process_param args st q) as [|st1] eqn:Hstep; [discriminate |].
    pose proof (process_param_object st st1 q Hstep Hobj) as Hobj1.
    apply elem_of_cons in Hin as [<- | Hin]; [| by eapply IH].
    apply (process_params_invariant args
             (λ s, object_or_falsy (requestBody s) ∧
                   ∃ fields, requestBody s = Some (JObj fields) ∧
                             assoc (param_name param) fields = Some v)
             ps st1 st'); [| done |].
    + intros q' s s' _ Hq'. by apply (process_param_field_stable s s' q').
    + split; [done |]. rewrite process_param_placed, Hv, Hloc in Hstep.
      rewrite (place_body_object st _ v Hobj) in Hstep. simplify_eq. cbn.
      eexists. split; [done |]. apply assoc_set_assoc_eq.
Qed.

(** The fields no body-located parameter writes keep their values. *)
Lemma process_params_fields_kept (ps : list OriginalParameter) (st st' : MapperState)
    (given : list (string * json)) :
  process_params args st ps = inr st' →
  requestBody st = Some (JObj given) →
  ∃ fields, requestBody st' = Some (JObj fields) ∧
    ∀ k, (∀ p, p ∈ ps → param_in p = "body" → param_name p = k →
               present (args !! k) = None) →
         assoc k fields = assoc k given.
Proof.
  intros Hrun Hst.
  apply (process_params_invariant args
           (λ s, ∃ fields, requestBody s = Some (JObj fields) ∧
              ∀ k, (∀ p, p ∈ ps → param_in p = "body" → param_name p = k →
                         present (args !! k) = None) →
                   assoc k fields = assoc k given)
           ps st st'); [| done | by eauto].
  intros q s s' Hq Hstep (fields & Hs & Hkept).
  apply process_param_inr in Hstep as [[_ ->] | (u & _ & Hw & Hplace)]; [eauto |].
  destruct (decide (param_in q = "body")) as [Hloc | Hloc].
  - rewrite Hloc, place_body_object in Hplace by (right; eauto).
    simplify_eq. cbn. eexists. split; [done |]. intros k Hk.
    rewrite Hs. cbn. rewrite assoc_set_assoc_ne; [by apply Hkept |].
    intros ->. by apply Hw, (Hk q).
  - apply place_inr in Hplace as (_ & _ & Hbody & _). rewrite (Hbody Hloc). eauto.
Qed.

End Body.

Section BodyPath.

Context `{CaseMapping}.

(** X8.  With request-body metadata and an [args.requestBody] that is
    an object or falsy, a body-located parameter with an argument is, in
    a request that is built, a property of the data object that is sent,
    holding the value the parameter is placed with: the lower-cased
    string form for the three lower-cased names, the argument as it came
    otherwise. *)
Theorem body_parameter_merged
    (API_KEY : option string) (originalMethod originalPath : string)
    (originalParameters : list OriginalParameter) (info : RequestBodyInfo)
    (args : gmap string json) (config : AxiosRequestConfig)
    (param : OriginalParameter) (w : json) :
  map_arguments API_KEY originalMethod originalPath originalParameters (Some info) args
    = inr config →
  object_or_falsy (args !! "requestBody") →
  param ∈ originalParameters →
  param_in param = "body" →
  args !! param_name param = Some w →
  w ≠ JNull →
  ∃ fields v,
    cfg_data config = Some (JObj fields) ∧
    assoc (param_name param) fields = Some v ∧
    if bool_decide (param_name param ∈ lowercased)
    then ∃ s, to_String w = inr s ∧ v = JStr (toLowerCase s)
    else v = w.
Proof.
  intros Hmap Hobj Hp Hloc Hw Hnull.
  apply map_arguments_inr in Hmap as (st & hs & Hrun & Hfin & _).
  destruct (process_params_value args _ _ st param Hrun Hp) as [x Hx].
  assert (∃ v, x = Some v) as [v ->].
  { destruct x as [v|]; [by eexists |]. apply placed_value_None in Hx.
    by rewrite Hw, (present_Some w Hnull) in Hx. }
  destruct (process_params_field args _ _ st param _ Hrun Hobj Hp Hloc Hx)
    as (fields & Hst & Hfield).
  exists fields, v. split_and!.
  - apply finalize_body_inr in Hfin
      as [(i & b & _ & Hb & -> & _) | (_ & _ & [Hinfo | Hb])].
    + rewrite Hst in Hb. cbn in Hb. congruence.
    + discriminate.
    + by rewrite Hst in Hb.
  - done.
  - apply placed_value_inv in Hx as (w' & Hw' & _ & _ & Hv).
    rewrite Hw in Hw'. by simplify_eq.
Qed.

(** X9.  With request-body metadata and an object as
    [args.requestBody], the data sent is an object in which every
    property that no body-located parameter with an argument names has
    the value it had in [args.requestBody]. *)
Theorem request_body_fields_kept
    (API_KEY : option string) (originalMethod originalPath : string)
    (originalParameters : list OriginalParameter) (info : RequestBodyInfo)
    (args : gmap string json) (config : AxiosRequestConfig)
    (given : list (string * json)) :
  map_arguments API_KEY originalMethod originalPath originalParameters (Some info) args
    = inr config →
  args !! "requestBody" = Some (JObj given) →
  ∃ fields,
    cfg_data config = Some (JObj fields) ∧
    ∀ k, (∀ p, p ∈ originalParameters → param_in p = "body" → param_name p = k →
               present (args !! k) = None) →
         assoc k fields = assoc k given.
Proof.
  intros Hmap Hgiven.
  apply map_arguments_inr in Hmap as (st & hs & Hrun & Hfin & _).
  destruct (process_params_fields_kept args _ _ st given Hrun Hgiven)
    as (fields & Hst & Hkept).
  exists fields. split; [| done].
  apply finalize_body_inr in Hfin
    as [(i & b & _ & Hb & -> & _) | (_ & _ & [Hinfo | Hb])].
  - rewrite Hst in Hb. cbn in Hb. congruence.
  - discriminate.
  - by rewrite Hst in Hb.
Qed.

(** ** The path *)

(** X10.  The request keeps the descriptor's method, and when no
    path-located parameter has an argument its url is the path template
    as it stands, placeholders included. *)
Theorem url_without_path_arguments
    (API_KEY : option string) (originalMethod originalPath : string)
    (originalParameters : list OriginalParameter) (info : option RequestBodyInfo)
    (args : gmap string json) (config : AxiosRequestConfig) :
  map_arguments API_KEY originalMethod originalPath originalParameters info args
    = inr config →
  cfg_method config = originalMethod
  ∧ ((∀ p, p ∈ originalParameters → param_in p = "path" →
           present (args !! param_name p) = None) →
     cfg_url config = originalPath).
Proof.
  intros Hmap. apply map_arguments_inr in Hmap as (st & hs & Hrun & _ & ->). cbn.
  split; [done |]. intros Hno.
  destruct (process_params_unwritten args _ _ st Hrun) as (Hpath & _).
  by rewrite (Hpath Hno).
Qed.

(** The loop turn of a path parameter with an argument. *)
Lemma process_param_path (args : gmap string json) (st : MapperState)
    (param : OriginalParameter) (w : json) :
  param_in param = "path" →
  args !! param_name param = Some w →
  w ≠ JNull →
  process_param args st param =
  match to_String w with
  | inl e => inl e
  | inr s =>
      match
        encodeURIComponent
          (if bool_decide (param_name param ∈ lowercased) then toLowerCase s else s)
      with
      | inl e => inl e
      | inr segment =>
          inr {| targetPath :=
                   replace (targetPath st) ("{" +:+ param_name param +:+ "}") segment;
                 queryParams := queryParams st;
                 headers := headers st;
                 requestBody := requestBody st |}
      end
  end.
Proof.
  intros Hin Hw Hnull.
  rewrite process_param_placed, (placed_value_supplied args _ w Hw Hnull).
  case_bool_decide.
  - destruct (to_String w) as [e|s]; [done |].
    unfold place. by rewrite Hin, bool_decide_eq_true_2.
  - unfold place. by rewrite Hin, bool_decide_eq_true_2.
Qed.

(** X11.  A path-located parameter whose placeholder does not occur in
    the path changes nothing: when its value has a string form that
    holds no lone surrogate the state is left as it was and the argument
    is dropped; a value that has none, or one with a lone surrogate,
    fails the mapping all the same, since the value is converted and
    encoded before the path is searched. *)
Theorem path_parameter_without_placeholder
    (args : gmap string json) (st : MapperState) (param : OriginalParameter)
    (w : json) :
  param_in param = "path" →
  args !! param_name param = Some w →
  w ≠ JNull →
  includes (targetPath st) ("{" +:+ param_name param +:+ "}") = false →
  let cased := fun s : string =>
    if bool_decide (param_name param ∈ lowercased) then toLowerCase s else s in
  (∀ s, to_String w = inr s → has_lone_surrogate (cased s) = false →
        process_param args st param = inr st)
  ∧ (∀ s, to_String w = inr s → has_lone_surrogate (cased s) = true →
          process_param args st param = inl URI_malformed)
  ∧ (∀ e, to_String w = inl e → process_param args st param = inl e).
Proof.
  intros Hloc Hw Hnull Habsent cased.
  rewrite (process_param_path args st param w Hloc Hw Hnull).
  subst cased. cbn beta. split_and!.
  - intros s -> Hs. unfold encodeURIComponent. rewrite Hs.
    rewrite (replace_absent _ _ _ Habsent). by destruct st.
  - intros s -> Hs. unfold encodeURIComponent. by rewrite Hs.
  - by intros e ->.
Qed.

(** X12.  When one path-located parameter has an argument and the
    template reads [pre{name}post], this being the first place where the
    placeholder occurs, the url of a request that is built is [pre], the
    percent-encoded string form of the value as placed, and [post]. *)
Theorem url_with_one_path_argument
    (API_KEY : option string) (originalMethod : string) (pre post : string)
    (before after : list OriginalParameter) (param : OriginalParameter)
    (info : option RequestBodyInfo) (args : gmap string json)
    (config : AxiosRequestConfig) (w : json) :
  map_arguments API_KEY originalMethod
    (pre +:+ ("{" +:+ param_name param +:+ "}") +:+ post)
    (before ++ param :: after) info args = inr config →
  param_in param = "path" →
  args !! param_name param = Some w →
  w ≠ JNull →
  includes (pre +:+ "{" +:+ param_name param)
           ("{" +:+ param_name param +:+ "}") = false →
  (∀ p, p ∈ before ++ after → param_in p = "path" →
        present (args !! param_name p) = None) →
  ∃ s segment,
    to_String w = inr s ∧
    encodeURIComponent
      (if bool_decide (param_name param ∈ lowercased) then toLowerCase s else s)
      = inr segment ∧
    cfg_url config = pre +:+ segment +:+ post.
Proof.
  intros Hmap Hloc Hw Hnull Hpre Hno.
  apply map_arguments_inr in Hmap as (st & hs & Hrun & _ & ->). cbn.
  rewrite process_params_app in Hrun.
  destruct (process_params args _ before) as [|st1] eqn:Hbefore; [discriminate |].
  cbn in Hrun.
  destruct (process_param args st1 param) as [|st2] eqn:Hstep; [discriminate |].
  destruct (process_params_unwritten args _ _ st1 Hbefore) as (Hpath1 & _).
  destruct (process_params_unwritten args _ _ st Hrun) as (Hpath2 & _).
  rewrite Hpath2
    by (intros p Hp; apply Hno, elem_of_app; right; done).
  rewrite (process_param_path args st1 param w Hloc Hw Hnull) in Hstep.
  destruct (to_String w) as [|s]; [discriminate |].
  destruct (encodeURIComponent _) as [|segment] eqn:Hsegment; [discriminate |].
  exists s, segment. split_and!; [done | done |].
  simplify_eq. cbn.
  rewrite Hpath1
    by (intros p Hp; apply Hno, elem_of_app; left; done).
  cbn [initial_state targetPath].
  assert (Hpat : "{" +:+ param_name param +:+ "}" =
                 ("{" +:+ param_name param) +:+ String "}" EmptyString)
    by (by rewrite app_assoc_string).
  rewrite Hpat in *. apply replace_first_occurrence.
  by rewrite <- app_assoc_string in Hpre |- *.
Qed.

End BodyPath.

(** ** Percent-encoding and lower-casing *)

(** X13.  [encodeURIComponent] is injective: two values with different
    string forms never give the same path segment. *)
Theorem encodeURIComponent_injective (s t segment : string) :
  encodeURIComponent s = inr segment →
  encodeURIComponent t = inr segment →
  s = t.
Proof.
  intros [_ Hs]%encodeURIComponent_inr [_ Ht]%encodeURIComponent_inr.
  pose proof (decode_escape_bytes s) as Hds.
  pose proof (decode_escape_bytes t) as Hdt.
  rewrite <- Hs in Hds. rewrite <- Ht in Hdt. congruence.
Qed.

Lemma percent_encode_alphabet (c d : ascii) :
  In d (String.list_ascii_of_string (percent_encode c)) →
  uriUnescaped d = true ∨ d = "%"%char.
Proof.
  intros Hd.
  destruct c as [[] [] [] [] [] [] [] []]; vm_compute in Hd;
    destruct Hd as [<- | [<- | [<- | []]]];
    first [by right | left; reflexivity].
Qed.

(** X14.  Every character of an encoded segment is a letter, a digit,
    one of [-_.!~*'()], or the ["%"] of an escape: a value brings no
    slash, brace, space, quote, control character or byte outside ASCII
    into the path. *)
Theorem encodeURIComponent_alphabet (s segment : string) (d : ascii) :
  encodeURIComponent s = inr segment →
  In d (String.list_ascii_of_string segment) →
  uriUnescaped d = true ∨ d = "%"%char.
Proof.
  intros [_ ->]%encodeURIComponent_inr.
  induction s as [|c s IH]; cbn; [done |].
  destruct (uriUnescaped c) eqn:Hc.
  - cbn. intros [<- | Hd]; auto.
  - rewrite list_ascii_of_string_app, in_app_iff.
    intros [Hd | Hd]; [by eapply percent_encode_alphabet | auto].
Qed.

(** A lone surrogate starts with the byte [ED], which is no unescaped
    character. *)
Lemma has_lone_surrogate_byte (s : string) :
  has_lone_surrogate s = true →
  ∃ c, In c (String.list_ascii_of_string s) ∧ uriUnescaped c = false.
Proof.
  induction s as [|a s IH]; [discriminate |].
  cbn [has_lone_surrogate]. destruct s as [|b rest]; [discriminate |].
  intros [Hlead | Hrest]%orb_true_iff.
  - exists a. split; [by left |].
    unfold surrogate_lead in Hlead. apply andb_true_iff in Hlead as [Ha _].
    apply N.eqb_eq in Ha.
    rewrite <- (ascii_N_embedding a), Ha. reflexivity.
  - destruct (IH Hrest) as (c & Hc & Hun). exists c. split; [by right | done].
Qed.

(** X15.  A string made of letters, digits and [-_.!~*'()] only is its
    own encoding. *)
Theorem encodeURIComponent_unreserved_fixed (s : string) :
  (∀ c, In c (String.list_ascii_of_string s) → uriUnescaped c = true) →
  encodeURIComponent s = inr s.
Proof.
  intros Hs. apply encodeURIComponent_inr. split.
  - destruct (has_lone_surrogate s) eqn:Hbad; [| done].
    apply has_lone_surrogate_byte in Hbad as (c & Hc & Hun).
    rewrite (Hs c Hc) in Hun. discriminate.
  - induction s as [|c s IH]; cbn; [done |].
    rewrite (Hs c) by (by left). f_equal. apply IH. intros d Hd. apply Hs. by right.
Qed.

Lemma lower_char_not_upper (c : ascii) : is_upper (lower_char c) = false.
Proof. destruct c as [[] [] [] [] [] [] [] []]; reflexivity. Qed.

Lemma lower_char_ascii (c : ascii) :
  (N_of_ascii c <? 128)%N = true → (N_of_ascii (lower_char c) <? 128)%N = true.
Proof. destruct c as [[] [] [] [] [] [] [] []]; vm_compute; congruence. Qed.

Lemma map_lower_not_upper (s : string) (c : ascii) :
  In c (String.list_ascii_of_string (map_string lower_char s)) → is_upper c = false.
Proof.
  induction s as [|a s IH]; cbn; [done |].
  intros [<- | Hc]; [apply lower_char_not_upper | auto].
Qed.

Lemma map_lower_ascii (s : string) :
  is_ascii s = true → is_ascii (map_string lower_char s) = true.
Proof.
  unfold is_ascii. induction s as [|a s IH]; cbn; [done |].
  intros [Ha Hs]%andb_true_iff.
  by rewrite (lower_char_ascii a Ha), (IH Hs).
Qed.

Lemma map_lower_idempotent (s : string) :
  map_string lower_char (map_string lower_char s) = map_string lower_char s.
Proof.
  induction s as [|a s IH]; cbn; [done |]. f_equal; [| done].
  unfold lower_char at 1. by rewrite lower_char_not_upper.
Qed.

(** X16.  For a parameter named [us_state], [country] or
    [country_code], lines 153-156 turn an argument that has a string form
    into a string, whatever JSON value it is, and throw the [TypeError]
    on one that has none.  When the string form is ASCII text the result
    is ASCII text without an upper-case letter, and passing it through
    those lines again changes nothing. *)
Theorem lowercased_value_shape `{CaseMapping} (paramName : string) (w : json) :
  paramName ∈ lowercased →
  w ≠ JNull →
  (∀ e, to_String w = inl e → normalize paramName (Some w) = inl e)
  ∧ (∀ s, to_String w = inr s →
       normalize paramName (Some w) = inr (Some (JStr (toLowerCase s)))
       ∧ (is_ascii s = true →
          is_ascii (toLowerCase s) = true
          ∧ String.length (toLowerCase s) = String.length s
          ∧ (∀ c, In c (String.list_ascii_of_string (toLowerCase s)) →
                  is_upper c = false)
          ∧ normalize paramName (Some (JStr (toLowerCase s))) =
            inr (Some (JStr (toLowerCase s))))).
Proof.
  intros Hname Hnull.
  assert (Hturn : ∀ v, v ≠ JNull →
            normalize paramName (Some v) =
            match to_String v with
            | inl e => inl e
            | inr s => inr (Some (JStr (toLowerCase s)))
            end).
  { intros v Hv. unfold normalize. rewrite (present_Some v Hv).
    by rewrite bool_decide_eq_true_2. }
  split.
  - intros e He. by rewrite (Hturn w Hnull), He.
  - intros s Hs. split; [by rewrite (Hturn w Hnull), Hs |].
    intros Hascii. unfold toLowerCase at 1 2 3. rewrite Hascii.
    split_and!.
    + by apply map_lower_ascii.
    + clear. induction s as [|a s IH]; cbn; [done | by rewrite IH].
    + apply map_lower_not_upper.
    + unfold toLowerCase. rewrite Hascii.
      rewrite (Hturn (JStr (map_string lower_char s))) by done. cbn [to_String].
      unfold toLowerCase. by rewrite (map_lower_ascii s Hascii), map_lower_idempotent.
Qed.

(** * Further properties of the handler *)

(** ** The doc tool *)

Lemma after_last_separator_clean (s : string) :
  ¬ In "_"%char (String.list_ascii_of_string (after_last_separator s)).
Proof.
  induction s as [|c s IH]; cbn [after_last_separator]; [by intros [] |].
  destruct (existsb _ (String.list_ascii_of_string s)) eqn:Hex; [done |].
  assert (¬ In "_"%char (String.list_ascii_of_string s)) as Hs.
  { intros H. apply existsb_separator in H. congruence. }
  case_bool_decide as Hc; [done |].
  cbn. intros [-> | H]; [by apply Hc | by apply Hs].
Qed.

Lemma find_tool_Some (tools : list Tool) (toolName : string) (t : Tool) :
  find_tool tools toolName = Some t → t ∈ tools ∧ name t = toolName.
Proof.
  unfold find_tool. intros H. apply find_some in H as [Hin Hname].
  split; [by apply list_elem_of_In | by apply bool_decide_eq_true_1 in Hname].
Qed.

Section Doc.

Context `{CaseMapping} (API_KEY : option string) (tools : list Tool)
        (net : AxiosRequestConfig → upstream).

(** X17.  A schema that a [doc] call returns belongs to a catalog tool
    whose name holds no ["_"]: the name looked up is what follows the
    last ["_"] of the argument, so a tool with an underscore in its name
    is never described. *)
Theorem doc_describes_only_names_without_separator
    (request : CallToolRequest) (result : CallToolResult) :
  params_name request = "doc" →
  (run net (handler API_KEY tools request)).1 = inr result →
  ∃ t, t ∈ tools
       ∧ ¬ In "_"%char (String.list_ascii_of_string (name t))
       ∧ content result =
           [{| type := "text"; text := JSON_stringify (_inputSchema t) |}].
Proof.
  intros Hdoc Hrun. rewrite (run_doc API_KEY tools net request Hdoc) in Hrun.
  destruct (String_of _) as [|given]; [discriminate |].
  destruct (find_tool tools _) as [t|] eqn:Hfind; [| discriminate].
  apply find_tool_Some in Hfind as [Hin Hname].
  cbn in Hrun. simplify_eq. exists t. split; [done |]. split; [| done].
  rewrite Hname. apply after_last_separator_clean.
Qed.

(** X18.  A [doc] call without a [tool] argument looks up the name
    [undefined]: unless the catalog has a tool of that name the call is
    rejected with [MethodNotFound] and the message
    [Tool 'undefined' not found.], and no request is issued. *)
Theorem doc_without_tool_argument (request : CallToolRequest) :
  params_name request = "doc" →
  default ∅ (params_arguments request) !! "tool" = None →
  find_tool tools "undefined" = None →
  run net (handler API_KEY tools request) =
  (inl (ExMcp (new_McpError MethodNotFound "Tool 'undefined' not found.")), []).
Proof.
  intros Hdoc Htool Hfind. rewrite (run_doc API_KEY tools net request Hdoc), Htool.
  cbn [String_of].
  change (after_last_separator "undefined") with "undefined".
  by rewrite Hfind.
Qed.

(** ** Rejections and results *)

(** X19.  A call of a name other than [doc] that the catalog does not
    have is rejected with [MethodNotFound], and a call of a tool whose
    hidden method or path is missing or empty is rejected with
    [InternalError]; neither issues a request. *)
Theorem catalog_defects_rejected (request : CallToolRequest) :
  params_name request ≠ "doc" →
  (find_tool tools (params_name request) = None →
   run net (handler API_KEY tools request) =
   (inl (ExMcp (new_McpError MethodNotFound
                  ("Tool '" +:+ params_name request +:+ "' not found."))), []))
  ∧ (∀ tool,
       find_tool tools (params_name request) = Some tool →
       nonempty (_original_method tool) = None ∨
       nonempty (_original_path tool) = None →
       run net (handler API_KEY tools request) =
       (inl (ExMcp (new_McpError InternalError
                      ("Internal configuration error for tool '" +:+
                       params_name request +:+ "'."))), [])).
Proof.
  intros Hdoc. split.
  - intros Hfind. unfold handler.
    by rewrite bool_decide_eq_false_2, Hfind by done.
  - intros tool Hfind Hmeta. unfold handler.
    rewrite bool_decide_eq_false_2, Hfind by done.
    destruct Hmeta as [-> | ->]; [done |].
    by destruct (nonempty (_original_method tool)).
Qed.

(** X21.  One call issues at most one upstream request, and the one it
    issues is the request the mapping built for the tool found: there is
    no retry and no second call. *)
Theorem at_most_one_request (request : CallToolRequest) :
  (run net (handler API_KEY tools request)).2 = []
  ∨ ∃ tool originalMethod originalPath config,
      find_tool tools (params_name request) = Some tool ∧
      nonempty (_original_method tool) = Some originalMethod ∧
      nonempty (_original_path tool) = Some originalPath ∧
      map_arguments API_KEY originalMethod originalPath (_original_parameters tool)
        (_original_request_body tool) (default ∅ (params_arguments request))
        = inr config ∧
      (run net (handler API_KEY tools request)).2 = [config].
Proof.
  destruct (decide (params_name request = "doc")) as [Hdoc | Hdoc].
  - left. rewrite (run_doc API_KEY tools net request Hdoc).
    destruct (String_of _); [done |]. by destruct (find_tool tools _).
  - unfold handler. rewrite bool_decide_eq_false_2 by done.
    destruct (find_tool tools (params_name request)) as [tool|] eqn:Hfind;
      [| by left].
    destruct (nonempty (_original_method tool)) as [m|] eqn:Hm; [| by left].
    destruct (nonempty (_original_path tool)) as [p|] eqn:Hp; [| by left].
    rewrite run_try_block.
    destruct (map_arguments API_KEY m p _ _ _) as [e|config] eqn:Hmap; [by left |].
    right. exists tool, m, p, config. by split_and!.
Qed.

End Doc.

Section Failures.

Context `{CaseMapping} (API_KEY : option string) (tools : list Tool)
        (net : AxiosRequestConfig → upstream).

(** The handler for a tool found with its method and path, by what the
    mapping and the upstream give. *)
Lemma run_handler_outcome (request : CallToolRequest) (tool : Tool)
    (originalMethod originalPath : string) :
  params_name request ≠ "doc" →
  find_tool tools (params_name request) = Some tool →
  nonempty (_original_method tool) = Some originalMethod →
  nonempty (_original_path tool) = Some originalPath →
  run net (handler API_KEY tools request) =
  match map_arguments API_KEY originalMethod originalPath (_original_parameters tool)
          (_original_request_body tool) (default ∅ (params_arguments request)) with
  | inl e => (error_result e, [])
  | inr config =>
      (match settle (net config) with
       | inl e => error_result e
       | inr response =>
           match format_response response with
           | inl e => error_result e
           | inr result => inr result
           end
       end, [config])
  end.
Proof.
  intros Hdoc Hfind Hm Hp.
  rewrite (run_handler_resolved API_KEY tools net request tool _ _ Hdoc Hfind Hm Hp).
  apply run_try_block.
Qed.

(** The result that holds an error is no success. *)
Lemma error_result_is_error (e : exn) (result : CallToolResult) :
  error_result e = inr result → is_error result = true.
Proof.
  unfold error_result. destruct (mapApiErrorToMcpError e); [discriminate |].
  intros ?. by simplify_eq.
Qed.

Lemma format_response_success (r : AxiosResponse) (result : CallToolResult) :
  format_response r = inr result → is_error result = false.
Proof.
  rewrite format_response_text.
  destruct (indicates_json r && typeof_object (response_data r)).
  - intros ?. by simplify_eq.
  - destruct (to_String (response_data r)); [discriminate |].
    intros ?. by simplify_eq.
Qed.

(** What [String(response.data)] throws is an [Error], which is
    translated. *)
Lemma format_response_inl (r : AxiosResponse) (e : exn) :
  format_response r = inl e → e = not_primitive.
Proof.
  rewrite format_response_text.
  destruct (indicates_json r && typeof_object (response_data r)); [discriminate |].
  destruct (to_String (response_data r)) eqn:Hs; [| discriminate].
  intros ?. simplify_eq. by eapply to_String_inl.
Qed.

Lemma settle_rejected (r : AxiosResponse) :
  ¬ (200 ≤ status r < 300) →
  settle (Responded r) =
  inl (ExAxios {| response := Some r;
                  axios_message :=
                    "Request failed with status code " +:+ pretty (status r) |}).
Proof.
  intros Hstatus. unfold settle.
  destruct (validateStatus (status r)) eqn:Hvalid; [| done].
  by apply validateStatus_range in Hvalid.
Qed.

(** X22.  The response that axios ends with has a status outside 200
    to 299.  When the message extracted from its body has a string form
    this is not a rejection: the handler returns a result with [isError]
    true whose text is the message of the mapped error, after the one
    request; the error's code is [InternalError] unless the status is
    400, 404 or 408, so 401, 403 and 429 read as internal errors.  When
    the extracted message has no string form the handler rejects with
    the [TypeError]. *)
Theorem http_failure_result
    (request : CallToolRequest) (tool : Tool) (originalMethod originalPath : string)
    (config : AxiosRequestConfig) (r : AxiosResponse) :
  params_name request ≠ "doc" →
  find_tool tools (params_name request) = Some tool →
  nonempty (_original_method tool) = Some originalMethod →
  nonempty (_original_path tool) = Some originalPath →
  map_arguments API_KEY originalMethod originalPath (_original_parameters tool)
    (_original_request_body tool) (default ∅ (params_arguments request)) = inr config →
  net config = Responded r →
  ¬ (200 ≤ status r < 300) →
  let axiosError :=
    {| response := Some r;
       axios_message := "Request failed with status code " +:+ pretty (status r) |} in
  let apiMessage := extracted_message (response_data r) (axios_message axiosError) in
  (∀ shown, to_String apiMessage = inr shown →
     ∃ m,
       run net (handler API_KEY tools request) =
       (inr {| content := [{| type := "text"; text := message m |}];
               isError := Some true;
               error := Some m |}, [config])
       ∧ mapApiErrorToMcpError (ExAxios axiosError) = inr m
       ∧ (status r ∉ [400; 404; 408] → code m = InternalError)
       ∧ (status r ∉ [400; 404; 408; 500; 502; 503; 504] →
          message m =
          "MCP error -32603: API Request Failed (" +:+ pretty (status r) +:+ "): "
            +:+ shown))
  ∧ (∀ e, to_String apiMessage = inl e →
       run net (handler API_KEY tools request) = (inl e, [config])).
Proof.
  intros Hdoc Hfind Hm Hp Hmap Hnet Hstatus axiosError apiMessage.
  rewrite (run_handler_outcome request tool _ _ Hdoc Hfind Hm Hp).
  rewrite Hmap, Hnet, (settle_rejected r Hstatus). fold axiosError.
  unfold error_result.
  rewrite (mapApiErrorToMcpError_response axiosError r eq_refl). fold apiMessage.
  split.
  - intros shown ->. eexists. split; [done |]. split; [done |]. split.
    + intros Hs.
      do 3 (rewrite bool_decide_eq_false_2;
            [| intros Heq; apply Hs; rewrite Heq;
               repeat first [apply list_elem_of_here | apply list_elem_of_further]]).
      by case_bool_decide.
    + intros Hs.
      do 3 (rewrite bool_decide_eq_false_2;
            [| intros Heq; apply Hs; rewrite Heq;
               repeat first [apply list_elem_of_here | apply list_elem_of_further]]).
      rewrite bool_decide_eq_false_2; [done |].
      intros Hin. apply Hs. by do 3 apply list_elem_of_further.
  - by intros e ->.
Qed.

(** X23.  When no response arrives the handler returns, after the one
    request, a result with [isError] true and code [InternalError]
    whose text is [API Request Failed (undefined):] followed by the
    transport's message. *)
Theorem network_failure_result
    (request : CallToolRequest) (tool : Tool) (originalMethod originalPath : string)
    (config : AxiosRequestConfig) (msg : string) :
  params_name request ≠ "doc" →
  find_tool tools (params_name request) = Some tool →
  nonempty (_original_method tool) = Some originalMethod →
  nonempty (_original_path tool) = Some originalPath →
  map_arguments API_KEY originalMethod originalPath (_original_parameters tool)
    (_original_request_body tool) (default ∅ (params_arguments request)) = inr config →
  net config = Failed msg →
  run net (handler API_KEY tools request) =
  (inr {| content :=
            [{| type := "text";
                text := "MCP error -32603: API Request Failed (undefined): " +:+ msg |}];
          isError := Some true;
          error :=
            Some {| code := InternalError;
                    message :=
                      "MCP error -32603: API Request Failed (undefined): " +:+ msg |} |},
   [config]).
Proof.
  intros Hdoc Hfind Hm Hp Hmap Hnet.
  rewrite (run_handler_outcome request tool _ _ Hdoc Hfind Hm Hp).
  by rewrite Hmap, Hnet.
Qed.

(** X24.  For a tool that is found with its method and path, a result
    that the handler returns is a success exactly when the mapping built
    a request, the upstream answered it with a status from 200 to 299
    and the response was formatted into that result; every other result
    returned has [isError] true. *)
Theorem result_is_success_iff
    (request : CallToolRequest) (tool : Tool) (originalMethod originalPath : string)
    (result : CallToolResult) :
  params_name request ≠ "doc" →
  find_tool tools (params_name request) = Some tool →
  nonempty (_original_method tool) = Some originalMethod →
  nonempty (_original_path tool) = Some originalPath →
  (run net (handler API_KEY tools request)).1 = inr result →
  (is_error result = false
   ↔ ∃ config r,
       map_arguments API_KEY originalMethod originalPath
         (_original_parameters tool) (_original_request_body tool)
         (default ∅ (params_arguments request)) = inr config ∧
       net config = Responded r ∧ 200 ≤ status r < 300 ∧
       format_response r = inr result)
  ∧ (is_error result = false ∨ is_error result = true ∧ isError result = Some true).
Proof.
  intros Hdoc Hfind Hm Hp.
  rewrite (run_handler_outcome request tool _ _ Hdoc Hfind Hm Hp).
  assert (Herr : ∀ e, error_result e = inr result →
            is_error result = true ∧ isError result = Some true).
  { intros e. unfold error_result. destruct (mapApiErrorToMcpError e); [discriminate |].
    intros ?. by simplify_eq. }
  destruct (map_arguments _ _ _ _ _ _) as [e|config] eqn:Hmap; cbn [fst].
  - intros [Hbad Hfield]%Herr. split; [| by right]. rewrite Hbad. split; [done |].
    by intros (? & ? & ? & _).
  - unfold settle. destruct (net config) as [r|msg] eqn:Hnet.
    + destruct (validateStatus (status r)) eqn:Hvalid.
      * destruct (format_response r) as [e|formatted] eqn:Hformat.
        -- intros [Hbad Hfield]%Herr. split; [| by right]. rewrite Hbad.
           split; [done |]. intros (c & r' & Hc & Hr & _ & Hf). congruence.
        -- intros ?. simplify_eq.
           pose proof (format_response_success r result Hformat) as Hok.
           split; [| by left]. split; [| done]. intros _.
           exists config, r. split_and!; try done; by apply validateStatus_range.
      * intros [Hbad Hfield]%Herr. split; [| by right]. rewrite Hbad.
        split; [done |]. intros (c & r' & Hc & Hr & Hs & _).
        apply validateStatus_range in Hs. congruence.
    + intros [Hbad Hfield]%Herr. split; [| by right]. rewrite Hbad.
      split; [done |]. intros (c & r' & Hc & Hr & _). congruence.
Qed.

(** X25.  A call whose mapping fails is answered without a request by
    a result with [isError] true and code [InternalError], the text
    being [Request failed:] and the message of what was thrown: the
    [InvalidParams] error of a missing parameter or body, or the
    [TypeError] or [URIError] of a value that could not be placed. *)
Theorem mapping_failure_result
    (request : CallToolRequest) (tool : Tool) (originalMethod originalPath : string)
    (e : exn) :
  params_name request ≠ "doc" →
  find_tool tools (params_name request) = Some tool →
  nonempty (_original_method tool) = Some originalMethod →
  nonempty (_original_path tool) = Some originalPath →
  map_arguments API_KEY originalMethod originalPath (_original_parameters tool)
    (_original_request_body tool) (default ∅ (params_arguments request)) = inl e →
  ∃ thrown,
    (e = ExError thrown ∨ ∃ m, e = ExMcp m ∧ code m = InvalidParams ∧ message m = thrown)
    ∧ run net (handler API_KEY tools request) =
      (inr {| content :=
                [{| type := "text";
                    text := "MCP error -32603: Request failed: " +:+ thrown |}];
              isError := Some true;
              error :=
                Some {| code := InternalError;
                        message := "MCP error -32603: Request failed: " +:+ thrown |} |},
       []).
Proof.
  intros Hdoc Hfind Hm Hp Hmap.
  rewrite (run_handler_outcome request tool _ _ Hdoc Hfind Hm Hp), Hmap.
  apply map_arguments_inl_shape in Hmap as [(m & -> & Hcode) | [msg ->]].
  - exists (message m). split; [right; by exists m |]. by rewrite error_result_mcp.
  - exists msg. split; [by left |]. by rewrite error_result_error.
Qed.

(** X20.  The handler rejects in four ways only.  Without having issued
    a request: with [MethodNotFound] when no tool has the name asked for,
    with [InternalError] when the tool found lacks its method or path,
    and with the [TypeError] of [String(args.tool)] in a [doc] call whose
    argument has no string form.  After the one request: with the
    [TypeError] that the translation throws in the [catch] block, when
    axios ends with a status outside 200 to 299 and the message extracted
    from the body has no string form.  Every other call settles with a
    returned result. *)
Theorem handler_rejections (request : CallToolRequest) (e : exn) :
  (run net (handler API_KEY tools request)).1 = inl e →
  ((run net (handler API_KEY tools request)).2 = []
   ∧ ∃ m, e = ExMcp m
       ∧ ((code m = MethodNotFound ∧
           (params_name request = "doc" ∨
            find_tool tools (params_name request) = None))
          ∨ (code m = InternalError ∧
             ∃ tool, find_tool tools (params_name request) = Some tool ∧
                     (nonempty (_original_method tool) = None ∨
                      nonempty (_original_path tool) = None))))
  ∨ ((run net (handler API_KEY tools request)).2 = []
     ∧ params_name request = "doc"
     ∧ String_of (default ∅ (params_arguments request) !! "tool") = inl e
     ∧ e = not_primitive)
  ∨ (∃ tool originalMethod originalPath config r,
       params_name request ≠ "doc" ∧
       find_tool tools (params_name request) = Some tool ∧
       nonempty (_original_method tool) = Some originalMethod ∧
       nonempty (_original_path tool) = Some originalPath ∧
       map_arguments API_KEY originalMethod originalPath (_original_parameters tool)
         (_original_request_body tool) (default ∅ (params_arguments request))
         = inr config ∧
       net config = Responded r ∧
       ¬ (200 ≤ status r < 300) ∧
       to_String
         (extracted_message (response_data r)
            ("Request failed with status code " +:+ pretty (status r))) = inl e ∧
       e = not_primitive ∧
       (run net (handler API_KEY tools request)).2 = [config]).
Proof.
  destruct (decide (params_name request = "doc")) as [Hdoc | Hdoc].
  - rewrite (run_doc API_KEY tools net request Hdoc).
    destruct (String_of _) as [e'|given] eqn:Hgiven.
    + cbn. intros [= <-]. right. left. split_and!; try done.
      destruct (default ∅ (params_arguments request) !! "tool") as [w|];
        [by eapply to_String_inl | discriminate].
    + destruct (find_tool tools _); [discriminate |]. cbn. intros [= <-].
      left. split; [done |]. eexists. split; [done |]. left. auto.
  - destruct (find_tool tools (params_name request)) as [tool|] eqn:Hfind.
    2:{ unfold handler. rewrite bool_decide_eq_false_2, Hfind by done.
        cbn. intros [= <-]. left. split; [done |]. eexists. split; [done |].
        left. auto. }
    destruct (nonempty (_original_method tool)) as [m|] eqn:Hm.
    2:{ unfold handler. rewrite bool_decide_eq_false_2, Hfind, Hm by done.
        cbn. intros [= <-]. left. split; [done |]. eexists. split; [done |].
        right. split; [done |]. exists tool. auto. }
    destruct (nonempty (_original_path tool)) as [p|] eqn:Hp.
    2:{ unfold handler. rewrite bool_decide_eq_false_2, Hfind, Hm, Hp by done.
        cbn. intros [= <-]. left. split; [done |]. eexists. split; [done |].
        right. split; [done |]. exists tool. auto. }
    rewrite (run_handler_outcome request tool m p Hdoc Hfind Hm Hp).
    destruct (map_arguments API_KEY m p _ _ _) as [e'|config] eqn:Hmap; cbn [fst snd].
    { apply map_arguments_inl_shape in Hmap as [(mcp & -> & _) | [msg ->]];
        [rewrite error_result_mcp | rewrite error_result_error]; discriminate. }
    destruct (net config) as [r|msg] eqn:Hnet; [| discriminate].
    unfold settle. destruct (validateStatus (status r)) eqn:Hvalid.
    { destruct (format_response r) as [e'|] eqn:Hformat; [| discriminate].
      apply format_response_inl in Hformat as ->. discriminate. }
    unfold error_result.
    rewrite (mapApiErrorToMcpError_response
               {| response := Some r;
                  axios_message :=
                    "Request failed with status code " +:+ pretty (status r) |}
               r eq_refl).
    cbn [axios_message].
    destruct (to_String _) as [e'|shown] eqn:Hshown; [| discriminate].
    intros [= <-]. right. right. exists tool, m, p, config, r.
    split_and!; try done.
    + intros Hs%validateStatus_range. congruence.
    + by eapply to_String_inl.
Qed.

End Failures.

(** * The HTTP surface *)

Lemma serve_app (transport : option SSEServerTransport)
    (first second : list ServerEvent) :
  ConnectRejected ∉ first →
  serve transport (first ++ second) =
  ((serve (serve transport first).1 second).1,
   (serve transport first).2 ++ (serve (serve transport first).1 second).2).
Proof.
  revert transport. induction first as [|r first IH]; intros transport Hfirst.
  - cbn. by destruct (serve transport second).
  - assert (Hrest : ConnectRejected ∉ first).
    { intros Hin. apply Hfirst. by apply list_elem_of_further. }
    destruct r as [res | req res |].
    + cbn [app serve]. destruct (route transport (GetSse res)) as [t1 effects].
      rewrite (IH t1 Hrest).
      destruct (serve t1 first) as [t2 later]. cbn.
      destruct (serve t2 second) as [t3 last]. cbn. by rewrite app_assoc.
    + cbn [app serve].
      destruct (route transport (PostMessages req res)) as [t1 effects].
      rewrite (IH t1 Hrest).
      destruct (serve t1 first) as [t2 later]. cbn.
      destruct (serve t2 second) as [t3 last]. cbn. by rewrite app_assoc.
    + destruct Hfirst. apply list_elem_of_here.
Qed.

Lemma serve_posts (t : SSEServerTransport) (posts : list (nat * nat))
    (later : list ServerEvent) :
  serve (Some t) (map (λ post, PostMessages post.1 post.2) posts ++ later) =
  ((serve (Some t) later).1,
   map (λ post, HandlePostMessage t post.1 post.2) posts ++ (serve (Some t) later).2).
Proof.
  induction posts as [|[req res] posts IH]; cbn.
  - by destruct (serve (Some t) later).
  - by rewrite IH.
Qed.

Lemma serve_connection (transport : option SSEServerTransport) (res : nat)
    (posts : list (nat * nat)) (later : list ServerEvent) :
  serve transport
    (GetSse res :: map (λ post, PostMessages post.1 post.2) posts ++ later) =
  ((serve (Some {| endpoint := "/messages"; stream := res |}) later).1,
   ServerConnect {| endpoint := "/messages"; stream := res |} ::
   map (λ post, HandlePostMessage {| endpoint := "/messages"; stream := res |}
                  post.1 post.2) posts ++
   (serve (Some {| endpoint := "/messages"; stream := res |}) later).2).
Proof. cbn [serve route]. by rewrite serve_posts. Qed.

(** X26.  Messages posted while no stream has ever been opened are not
    handed to any transport, and the variable stays empty. *)
Theorem posts_before_connection_dropped (posts : list (nat * nat)) :
  serve None (map (λ post, PostMessages post.1 post.2) posts) = (None, []).
Proof. induction posts as [|[req res] posts IH]; cbn; [done |]. by rewrite IH. Qed.

(** X27.  After any earlier traffic in which no connection was
    rejected, once [GET /sse] has built a transport every message posted
    until the next [GET /sse] is handed to that transport and to no
    earlier one, whatever the message says; and when the promise of
    [server.connect] then rejects, the process exits with status 1 and
    serves nothing more. *)
Theorem posts_reach_latest_transport
    (transport : option SSEServerTransport) (earlier : list ServerEvent)
    (res : nat) (posts : list (nat * nat)) :
  ConnectRejected ∉ earlier →
  let t := {| endpoint := "/messages"; stream := res |} in
  serve transport
    (earlier ++ GetSse res :: map (λ post, PostMessages post.1 post.2) posts) =
  (Some t,
   (serve transport earlier).2 ++
   ServerConnect t :: map (λ post, HandlePostMessage t post.1 post.2) posts)
  ∧ ∀ later,
      serve transport
        (earlier ++ GetSse res ::
         map (λ post, PostMessages post.1 post.2) posts ++ ConnectRejected :: later) =
      (Some t,
       (serve transport earlier).2 ++
       ServerConnect t ::
       map (λ post, HandlePostMessage t post.1 post.2) posts ++ [ProcessExit 1]).
Proof.
  intros Hearlier t. split.
  - rewrite (serve_app _ _ _ Hearlier).
    pose proof (serve_connection (serve transport earlier).1 res posts []) as Hserve.
    rewrite !app_nil_r in Hserve. by rewrite Hserve.
  - intros later. rewrite (serve_app _ _ _ Hearlier).
    by rewrite (serve_connection _ res posts (ConnectRejected :: later)).
Qed.

(** * The deployment script *)

Lemma find_none_iff {A : Type} (f : A → bool) (l : list A) :
  find f l = None ↔ ∀ x, x ∈ l → f x = false.
Proof.
  induction l as [|a l IH]; cbn.
  - split; [by intros _ x Hx%elem_of_nil | done].
  - destruct (f a) eqn:Ha.
    + split; [done |]. intros H. specialize (H a (list_elem_of_here _ _)). congruence.
    + rewrite IH. split.
      * intros H x [-> | Hx]%elem_of_cons; auto.
      * intros H x Hx. apply H. by apply list_elem_of_further.
Qed.

(** X28.  [deploy.sh] gets as far as the build exactly when it is not
    run as root, [.env] is a file, sourcing it does not end the script,
    and each of [SERVER_IP], [SERVER_USER], [DEPLOY_PATH], [SERVICE_NAME]
    and [API_KEY] is then set to a value that is not empty; when it stops
    for a variable, that is the first of the five, in this order, that
    is unset or empty. *)
Theorem preflight_passes_iff (ctx : DeployContext) :
  (preflight ctx = None
   ↔ EUID ctx ≠ 0 ∧ env_file ctx = true ∧
     ∃ variables, sourced ctx = Some variables ∧
       ∀ var, var ∈ required_vars →
              ∃ value, variables !! var = Some value ∧ value ≠ "")
  ∧ (preflight ctx = Some SourceEnded
     ↔ EUID ctx ≠ 0 ∧ env_file ctx = true ∧ sourced ctx = None)
  ∧ (∀ var, preflight ctx = Some (VariableNotSet var) →
       ∃ variables set rest,
         sourced ctx = Some variables ∧
         required_vars = set ++ var :: rest ∧
         is_unset variables var = true ∧
         ∀ v, v ∈ set → is_unset variables v = false).
Proof.
  unfold preflight. split_and!.
  - case_bool_decide as Hroot; [split; [done | by intros [? _]] |].
    destruct (env_file ctx); cbn [negb]; [| split; [done | by intros (_ & ? & _)]].
    destruct (sourced ctx) as [variables|];
      [| split; [done | by intros (_ & _ & ? & ? & _)]].
    destruct (find (is_unset variables) required_vars) as [v|] eqn:Hfind;
      cbn [fmap option_fmap option_map].
    + split; [done |]. intros (_ & _ & variables' & [= <-] & Hall).
      apply find_some in Hfind as [Hin Hunset]. apply list_elem_of_In in Hin.
      destruct (Hall v Hin) as (value & Hv & Hne).
      unfold is_unset in Hunset. rewrite Hv in Hunset. cbn in Hunset.
      by apply bool_decide_eq_true_1 in Hunset.
    + split; [| done]. intros _. split; [done |]. split; [done |].
      exists variables. split; [done |].
      intros var Hvar. apply find_none_iff with (x := var) in Hfind; [| done].
      unfold is_unset in Hfind. apply bool_decide_eq_false_1 in Hfind.
      destruct (variables !! var) as [value|]; [| done].
      exists value. by split.
  - case_bool_decide as Hroot; [split; [done | by intros [? _]] |].
    destruct (env_file ctx); cbn [negb]; [| split; [done | by intros (_ & ? & _)]].
    destruct (sourced ctx) as [variables|]; [| done].
    split; [| by intros (_ & _ & ?)].
    by destruct (find (is_unset variables) required_vars).
  - intros var. case_bool_decide; [discriminate |].
    destruct (env_file ctx); cbn [negb]; [| discriminate].
    destruct (sourced ctx) as [variables|]; [| discriminate].
    intros Hstop. exists variables.
    revert Hstop. generalize required_vars. intros l.
    induction l as [|a l IH]; cbn; [discriminate |].
    destruct (is_unset variables a) eqn:Ha; cbn.
    + intros [= <-]. exists [], l. split; [done |]. split; [done |]. split; [done |].
      by intros v Hv%elem_of_nil.
    + intros Hfind. destruct (IH Hfind) as (set & rest & _ & -> & Hunset & Hset).
      exists (a :: set), rest. split; [done |]. split; [done |]. split; [done |].
      intros v [-> | Hv]%elem_of_cons; auto.
Qed.

(** * The theorems at sample inputs *)

(** The sample inputs are ASCII text. *)
#[local] Existing Instance ascii_case_mapping.

(** ** Inputs on which the specification's statements fail *)

(** A body-located parameter declared before the missing one meets a
    [requestBody] argument that is a string: the failure is the
    [TypeError], not the missing-parameter error. *)
Lemma missing_required_parameter_counterexample :
  map_arguments (Some "secret") "POST" "/reports"
    [{| param_name := "title"; param_in := "body"; param_required := false |};
     {| param_name := "period"; param_in := "query"; param_required := true |}]
    None
    (<["title" := JStr "Weekly"]> {["requestBody" := JStr "raw"]})
  = inl (ExError "Cannot create property 'title' on string 'raw'")
  ∧ map_arguments (Some "secret") "POST" "/reports"
      [{| param_name := "title"; param_in := "body"; param_required := false |};
       {| param_name := "period"; param_in := "query"; param_required := true |}]
      None
      (<["title" := JStr "Weekly"]> {["requestBody" := JStr "raw"]})
    ≠ inl (ExMcp (MissingParameter "period")).
Proof. split; [vm_compute; reflexivity | vm_compute; discriminate]. Qed.

(** A 500 whose body holds an [error] object with an own [toString]:
    the translation throws and the handler rejects. *)
Lemma upstream_failure_translation_counterexample :
  mapApiErrorToMcpError
    (ExAxios
       {| response :=
            Some {| status := 500;
                    response_headers := {["content-type" := "application/json"]};
                    response_data := JObj [("error", unprintable)] |};
          axios_message := "Request failed with status code 500" |})
  = inl (ExError "Cannot convert object to primitive value")
  ∧ (run failing_upstream (handler (Some "secret") sample_tools backlinks_call)).1
    = inl (ExError "Cannot convert object to primitive value").
Proof. split; vm_compute; reflexivity. Qed.

(** A 200 whose body is an object with an own [toString], under a
    content type that does not indicate JSON: the result has [isError]
    true. *)
Lemma successful_response_result_counterexample :
  (∀ config, ∃ r, plain_upstream config = Responded r ∧ status r = 200)
  ∧ (run plain_upstream (handler (Some "secret") sample_tools backlinks_call)).1
    = inr {| content :=
               [{| type := "text";
                   text := "MCP error -32603: Request failed: " +:+
                           "Cannot convert object to primitive value" |}];
             isError := Some true;
             error :=
               Some {| code := InternalError;
                       message := "MCP error -32603: Request failed: " +:+
                                  "Cannot convert object to primitive value" |} |}.
Proof.
  split; [| vm_compute; reflexivity].
  intros config. eexists. split; reflexivity.
Qed.

(** A [doc] call whose [tool] argument is an object with an own
    [toString]: the handler rejects with the [TypeError], which is
    neither the schema nor [MethodNotFound]. *)
Lemma doc_returns_input_schema_counterexample :
  run json_upstream
    (handler (Some "secret") sample_tools (call "doc" {["tool" := unprintable]}))
  = (inl (ExError "Cannot convert object to primitive value"), []).
Proof. vm_compute. reflexivity. Qed.



(** ** The claims *)




Lemma missing_required_parameter_witness :
  map_arguments (Some "secret") "GET" "/site-explorer/{target}/backlinks"
    (_original_parameters backlinks_tool) (_original_request_body backlinks_tool)
    {["target" := JNum "42"]}
  = inl (ExMcp (MissingParameter "select"))
  ∧ (run json_upstream
       (handler (Some "secret") sample_tools
                (call "getBacklinks" {["target" := JNum "42"]}))).2 = [].
Proof.
  destruct (missing_required_parameter (Some "secret") sample_tools json_upstream
              (call "getBacklinks" {["target" := JNum "42"]})
              backlinks_tool
              [{| param_name := "target"; param_in := "path"; param_required := true |};
               {| param_name := "country"; param_in := "query";
                  param_required := false |}]
              [{| param_name := "limit"; param_in := "query";
                  param_required := false |}]
              {| param_name := "select"; param_in := "query"; param_required := true |})
    as (_ & _ & Hdone & _ & Hrun & _).
  - reflexivity.
  - reflexivity.
  - vm_compute. reflexivity.
  - split; [| apply Hrun; vm_compute; reflexivity].
    eapply (Hdone "GET" "/site-explorer/{target}/backlinks").
    vm_compute. reflexivity.
Defined.

Lemma missing_required_body_witness :
  map_arguments (Some "secret") "POST" "/batch-analysis"
    (_original_parameters batch_tool)
    (Some {| required := true; content_type := Some "application/json" |}) ∅
  = inl (ExMcp MissingBody).
Proof.
  destruct (missing_required_body (Some "secret") "POST" "/batch-analysis"
              (_original_parameters batch_tool)
              {| required := true; content_type := Some "application/json" |} ∅)
    as (Hdone & _).
  - reflexivity.
  - vm_compute. reflexivity.
  - intros q Hq _. vm_compute. reflexivity.
  - edestruct Hdone as [_ Hmap]; [vm_compute; reflexivity | exact Hmap].
Defined.

Lemma upstream_failure_translation_witness :
  mapApiErrorToMcpError
    (ExAxios
       {| response :=
            Some {| status := 404;
                    response_headers := ∅;
                    response_data := JObj [("error", JStr "not found")] |};
          axios_message := "Request failed with status code 404" |})
  = inr {| code := MethodNotFound;
           message := "MCP error -32601: API Not Found: not found" |}.
Proof.
  destruct upstream_failure_translation as (Hhttp & _).
  destruct (Hhttp
              {| response :=
                   Some {| status := 404;
                           response_headers := ∅;
                           response_data := JObj [("error", JStr "not found")] |};
                 axios_message := "Request failed with status code 404" |}
              {| status := 404;
                 response_headers := ∅;
                 response_data := JObj [("error", JStr "not found")] |}
              eq_refl)
    as (_ & Hshown).
  destruct (Hshown "not found" eq_refl) as (m & Hm & _ & H404 & _).
  rewrite Hm, (H404 eq_refl). reflexivity.
Defined.

Lemma successful_response_result_witness :
  ∃ config : AxiosRequestConfig,
    run json_upstream (handler (Some "secret") sample_tools backlinks_call)
    = (inr {| content :=
                [{| type := "text";
                    text := JSON_stringify (JObj [("a", JNum "1")]) |}];
              isError := None;
              error := None |}, [config]).
Proof.
  destruct (map_arguments (Some "secret") "GET" "/site-explorer/{target}/backlinks"
              (_original_parameters backlinks_tool)
              (_original_request_body backlinks_tool)
              (default ∅ (params_arguments backlinks_call)))
    as [e|config] eqn:Hmap; [vm_compute in Hmap; discriminate |].
  exists config.
  destruct (successful_response_result (Some "secret") sample_tools json_upstream
              backlinks_call backlinks_tool "GET" "/site-explorer/{target}/backlinks"
              config
              {| status := 200;
                 response_headers :=
                   {["content-type" := "application/json; charset=utf-8"]};
                 response_data := JObj [("a", JNum "1")] |})
    as (Hjson & _).
  - discriminate.
  - vm_compute. reflexivity.
  - reflexivity.
  - reflexivity.
  - exact Hmap.
  - reflexivity.
  - cbn. lia.
  - rewrite Hjson; [reflexivity | vm_compute; reflexivity | reflexivity].
Defined.

Lemma doc_returns_input_schema_witness :
  run json_upstream
    (handler (Some "secret") sample_tools
       (call "doc" {["tool" := JStr "namespace_getBacklinks"]}))
  = (inr {| content :=
              [{| type := "text";
                  text := JSON_stringify (_inputSchema backlinks_tool) |}];
            isError := None;
            error := None |}, []).
Proof.
  destruct (doc_returns_input_schema (Some "secret") sample_tools json_upstream
              (call "doc" {["tool" := JStr "namespace_getBacklinks"]}))
    as (_ & Hgiven & _).
  - reflexivity.
  - destruct (Hgiven "namespace_getBacklinks") as (_ & _ & _ & Hfound & _).
    + vm_compute. reflexivity.
    + apply Hfound. vm_compute. reflexivity.
Defined.

(** ** The further properties *)

Lemma undeclared_arguments_are_ignored_witness :
  map_arguments (Some "secret") "GET" "/site-explorer/{target}/backlinks"
    (_original_parameters backlinks_tool) None
    (<["verbose" := JBool true]>
       (<["target" := JStr "ahrefs.com"]> {["select" := JStr "url_from"]}))
  = map_arguments (Some "secret") "GET" "/site-explorer/{target}/backlinks"
      (_original_parameters backlinks_tool) None
      (<["target" := JStr "ahrefs.com"]> {["select" := JStr "url_from"]}).
Proof.
  apply undeclared_arguments_are_ignored.
  - intros p Hp.
    repeat (apply elem_of_cons in Hp as [-> | Hp]; [vm_compute; reflexivity |]).
    by apply elem_of_nil in Hp.
  - vm_compute. reflexivity.
Defined.

Lemma mapping_failure_modes_witness :
  ∃ p, p ∈ _original_parameters backlinks_tool ∧ param_in p = "path" ∧
       ∃ v, placed_value (param_name p)
              (<["target" := JStr lone_surrogate]> {["select" := JStr "url_from"]})
            = inr (Some v).
Proof.
  destruct (mapping_failure_modes (Some "secret") "GET"
              "/site-explorer/{target}/backlinks"
              (_original_parameters backlinks_tool)
              (_original_request_body backlinks_tool)
              (<["target" := JStr lone_surrogate]> {["select" := JStr "url_from"]})
              URI_malformed)
    as [(p & _ & _ & _ & He) |
        [(He & _) |
         [(p & _ & _ & _ & _ & Hprim) |
          [(p & w & _ & _ & _ & He & _) | (p & v & s & Hp & Hloc & Hv & _)]]]].
  - vm_compute. reflexivity.
  - discriminate.
  - discriminate.
  - destruct Hprim. vm_compute. exact I.
  - discriminate.
  - exists p. split; [exact Hp |]. split; [exact Hloc |]. by exists v.
Defined.

Lemma query_parameters_exact_witness :
  ∃ config,
    map_arguments (Some "secret") "GET" "/site-explorer/{target}/backlinks"
      (_original_parameters backlinks_tool) None
      (<["limit" := JNum "10"]>
         (<["target" := JStr "ahrefs.com"]> {["select" := JStr "url_from"]}))
    = inr config
    ∧ cfg_params config !! "limit" = Some (JNum "10").
Proof.
  eexists. split; [vm_compute; reflexivity |].
  eapply (query_parameters_exact (Some "secret") "GET"
            "/site-explorer/{target}/backlinks"
            (_original_parameters backlinks_tool) None
            (<["limit" := JNum "10"]>
               (<["target" := JStr "ahrefs.com"]> {["select" := JStr "url_from"]}))).
  - vm_compute. reflexivity.
  - exists {| param_name := "limit"; param_in := "query"; param_required := false |}.
    split; [| by vm_compute].
    do 3 apply list_elem_of_further. apply list_elem_of_here.
Defined.

Lemma default_headers_sent_witness :
  ∃ config,
    map_arguments None "GET" "/site-explorer/{target}/backlinks"
      (_original_parameters backlinks_tool) None
      (<["target" := JStr "ahrefs.com"]> {["select" := JStr "url_from"]})
    = inr config
    ∧ cfg_headers config !! "Authorization" = Some "Bearer undefined".
Proof.
  destruct (map_arguments None "GET" "/site-explorer/{target}/backlinks"
              (_original_parameters backlinks_tool) None
              (<["target" := JStr "ahrefs.com"]> {["select" := JStr "url_from"]}))
    as [e|config] eqn:Hmap; [vm_compute in Hmap; discriminate |].
  exists config. split; [reflexivity |].
  destruct (default_headers_sent None "GET" "/site-explorer/{target}/backlinks"
              (_original_parameters backlinks_tool) None
              (<["target" := JStr "ahrefs.com"]> {["select" := JStr "url_from"]})
              config "Authorization" Hmap) as [Hlookup _].
  - do 2 apply list_elem_of_further. apply list_elem_of_here.
  - intros p Hp Hloc Hname.
    repeat (apply elem_of_cons in Hp as [-> | Hp]; [discriminate |]).
    by apply elem_of_nil in Hp.
  - rewrite Hlookup. reflexivity.
Defined.

Lemma header_parameter_sent_witness :
  ∃ config,
    map_arguments (Some "secret") "GET" "/me"
      [{| param_name := "Authorization"; param_in := "header";
          param_required := false |}] None
      {["Authorization" := JNum "7"]}
    = inr config
    ∧ cfg_headers config !! "Authorization" = Some "7".
Proof.
  destruct (map_arguments (Some "secret") "GET" "/me"
              [{| param_name := "Authorization"; param_in := "header";
                  param_required := false |}] None
              {["Authorization" := JNum "7"]})
    as [e|config] eqn:Hmap; [vm_compute in Hmap; discriminate |].
  exists config. split; [reflexivity |].
  destruct (header_parameter_sent (Some "secret") "GET" "/me"
              [{| param_name := "Authorization"; param_in := "header";
                  param_required := false |}] None
              {["Authorization" := JNum "7"]} config
              {| param_name := "Authorization"; param_in := "header";
                 param_required := false |} (JNum "7") Hmap)
    as (s & Hs & Hheader).
  - apply list_elem_of_here.
  - reflexivity.
  - discriminate.
  - vm_compute. reflexivity.
  - discriminate.
  - injection Hs as <-. exact Hheader.
Defined.

Lemma content_type_follows_body_witness :
  ∃ config,
    map_arguments (Some "secret") "POST" "/batch-analysis"
      (_original_parameters batch_tool)
      (Some {| required := true; content_type := Some "" |})
      {["requestBody" := JObj [("targets", JArr [])]]}
    = inr config
    ∧ cfg_headers config !! "Content-Type" = Some "application/json".
Proof.
  destruct (map_arguments (Some "secret") "POST" "/batch-analysis"
              (_original_parameters batch_tool)
              (Some {| required := true; content_type := Some "" |})
              {["requestBody" := JObj [("targets", JArr [])]]})
    as [e|config] eqn:Hmap; [vm_compute in Hmap; discriminate |].
  exists config. split; [reflexivity |].
  destruct (content_type_follows_body (Some "secret") "POST" "/batch-analysis"
              (_original_parameters batch_tool)
              (Some {| required := true; content_type := Some "" |})
              {["requestBody" := JObj [("targets", JArr [])]]} config Hmap)
    as [Hdata _].
  destruct Hdata as (i & Hi & ->).
  - vm_compute in Hmap. injection Hmap as <-. discriminate.
  - injection Hi as <-. reflexivity.
Defined.

Lemma request_body_passed_through_witness :
  ∃ config,
    map_arguments (Some "secret") "POST" "/batch-analysis" []
      (Some {| required := true; content_type := None |})
      {["requestBody" := JStr "raw text"]}
    = inr config
    ∧ cfg_data config = Some (JStr "raw text").
Proof.
  destruct (map_arguments (Some "secret") "POST" "/batch-analysis" []
              (Some {| required := true; content_type := None |})
              {["requestBody" := JStr "raw text"]})
    as [e|config] eqn:Hmap; [vm_compute in Hmap; discriminate |].
  exists config. split; [reflexivity |].
  apply (request_body_passed_through (Some "secret") "POST" "/batch-analysis" []
           {| required := true; content_type := None |}
           {["requestBody" := JStr "raw text"]} config (JStr "raw text") Hmap).
  - vm_compute. reflexivity.
  - discriminate.
  - intros p Hp. by apply elem_of_nil in Hp.
Defined.

Lemma body_parameter_merged_witness :
  ∃ config fields,
    map_arguments (Some "secret") "POST" "/batch-analysis"
      (_original_parameters batch_tool) (_original_request_body batch_tool)
      {["select" := JStr "url"]}
    = inr config
    ∧ cfg_data config = Some (JObj fields)
    ∧ assoc "select" fields = Some (JStr "url").
Proof.
  destruct (map_arguments (Some "secret") "POST" "/batch-analysis"
              (_original_parameters batch_tool) (_original_request_body batch_tool)
              {["select" := JStr "url"]})
    as [e|config] eqn:Hmap; [vm_compute in Hmap; discriminate |].
  destruct (body_parameter_merged (Some "secret") "POST" "/batch-analysis"
              (_original_parameters batch_tool)
              {| required := true; content_type := Some "application/json" |}
              {["select" := JStr "url"]} config
              {| param_name := "select"; param_in := "body"; param_required := false |}
              (JStr "url") Hmap)
    as (fields & v & Hdata & Hfield & Hv).
  - left. vm_compute. reflexivity.
  - apply list_elem_of_here.
  - reflexivity.
  - vm_compute. reflexivity.
  - discriminate.
  - exists config, fields. split; [reflexivity |]. split; [exact Hdata |].
    vm_compute in Hv. rewrite <- Hv. exact Hfield.
Defined.

Lemma request_body_fields_kept_witness :
  ∃ config fields,
    map_arguments (Some "secret") "POST" "/batch-analysis"
      (_original_parameters batch_tool) (_original_request_body batch_tool)
      (<["select" := JStr "url"]>
         {["requestBody" := JObj [("targets", JArr [JStr "ahrefs.com"])]]})
    = inr config
    ∧ cfg_data config = Some (JObj fields)
    ∧ assoc "targets" fields = Some (JArr [JStr "ahrefs.com"]).
Proof.
  destruct (map_arguments (Some "secret") "POST" "/batch-analysis"
              (_original_parameters batch_tool) (_original_request_body batch_tool)
              (<["select" := JStr "url"]>
                 {["requestBody" := JObj [("targets", JArr [JStr "ahrefs.com"])]]}))
    as [e|config] eqn:Hmap; [vm_compute in Hmap; discriminate |].
  destruct (request_body_fields_kept (Some "secret") "POST" "/batch-analysis"
              (_original_parameters batch_tool)
              {| required := true; content_type := Some "application/json" |}
              (<["select" := JStr "url"]>
                 {["requestBody" := JObj [("targets", JArr [JStr "ahrefs.com"])]]})
              config [("targets", JArr [JStr "ahrefs.com"])] Hmap)
    as (fields & Hdata & Hkept).
  - vm_compute. reflexivity.
  - exists config, fields. split; [reflexivity |]. split; [exact Hdata |].
    rewrite (Hkept "targets"); [reflexivity |].
    intros p Hp Hloc Hname.
    apply elem_of_cons in Hp as [-> | Hp]; [discriminate |].
    by apply elem_of_nil in Hp.
Defined.

Lemma url_without_path_arguments_witness :
  ∃ config,
    map_arguments (Some "secret") "GET" "/keywords/{country}/overview"
      [{| param_name := "country"; param_in := "path"; param_required := false |}]
      None ∅
    = inr config
    ∧ cfg_url config = "/keywords/{country}/overview".
Proof.
  destruct (map_arguments (Some "secret") "GET" "/keywords/{country}/overview"
              [{| param_name := "country"; param_in := "path";
                  param_required := false |}] None ∅)
    as [e|config] eqn:Hmap; [vm_compute in Hmap; discriminate |].
  exists config. split; [reflexivity |].
  destruct (url_without_path_arguments (Some "secret") "GET"
              "/keywords/{country}/overview"
              [{| param_name := "country"; param_in := "path";
                  param_required := false |}] None ∅ config Hmap) as [_ Hurl].
  apply Hurl. intros p _ _. vm_compute. reflexivity.
Defined.

Lemma path_parameter_without_placeholder_witness :
  process_param {["target" := JNum "42"]}
    (initial_state (Some "secret") "/site-explorer/backlinks"
                   {["target" := JNum "42"]})
    {| param_name := "target"; param_in := "path"; param_required := true |}
  = inr (initial_state (Some "secret") "/site-explorer/backlinks"
                       {["target" := JNum "42"]}).
Proof.
  destruct (path_parameter_without_placeholder
              {["target" := JNum "42"]}
              (initial_state (Some "secret") "/site-explorer/backlinks"
                             {["target" := JNum "42"]})
              {| param_name := "target"; param_in := "path"; param_required := true |}
              (JNum "42")) as (Hkept & _).
  - reflexivity.
  - vm_compute. reflexivity.
  - discriminate.
  - vm_compute. reflexivity.
  - apply (Hkept "42"); reflexivity.
Defined.

Lemma url_with_one_path_argument_witness :
  ∃ config,
    map_arguments (Some "secret") "GET" "/site-explorer/{target}/backlinks"
      (_original_parameters backlinks_tool) None
      (<["target" := JStr "a/b c"]> {["select" := JStr "url_from"]})
    = inr config
    ∧ cfg_url config = "/site-explorer/a%2Fb%20c/backlinks".
Proof.
  destruct (map_arguments (Some "secret") "GET" "/site-explorer/{target}/backlinks"
              (_original_parameters backlinks_tool) None
              (<["target" := JStr "a/b c"]> {["select" := JStr "url_from"]}))
    as [e|config] eqn:Hmap; [vm_compute in Hmap; discriminate |].
  exists config. split; [reflexivity |].
  destruct (url_with_one_path_argument (Some "secret") "GET"
              "/site-explorer/" "/backlinks" []
              [{| param_name := "country"; param_in := "query";
                  param_required := false |};
               {| param_name := "select"; param_in := "query";
                  param_required := true |};
               {| param_name := "limit"; param_in := "query";
                  param_required := false |}]
              {| param_name := "target"; param_in := "path"; param_required := true |}
              None
              (<["target" := JStr "a/b c"]> {["select" := JStr "url_from"]})
              config (JStr "a/b c") Hmap)
    as (s & segment & Hs & Hsegment & Hurl).
  - reflexivity.
  - vm_compute. reflexivity.
  - discriminate.
  - vm_compute. reflexivity.
  - intros p Hp Hpath.
    repeat (apply elem_of_cons in Hp as [-> | Hp]; [discriminate |]).
    by apply elem_of_nil in Hp.
  - injection Hs as <-. vm_compute in Hsegment. injection Hsegment as <-.
    rewrite Hurl. reflexivity.
Defined.

Lemma encodeURIComponent_injective_witness :
  encodeURIComponent "a%20b" = inr "a%2520b" ∧ "a%20b" = "a%20b".
Proof.
  split; [reflexivity |].
  apply (encodeURIComponent_injective "a%20b" "a%20b" "a%2520b"); reflexivity.
Defined.

Lemma encodeURIComponent_alphabet_witness :
  uriUnescaped "B"%char = true ∨ "B"%char = "%"%char.
Proof.
  apply (encodeURIComponent_alphabet "{x}" "%7Bx%7D" "B"%char).
  - reflexivity.
  - vm_compute. right. right. left. reflexivity.
Defined.

Lemma encodeURIComponent_unreserved_fixed_witness :
  encodeURIComponent "ahrefs.com" = inr "ahrefs.com".
Proof.
  apply encodeURIComponent_unreserved_fixed.
  vm_compute.
  intros c [<- | [<- | [<- | [<- | [<- | [<- | [<- | [<- | [<- | [<- | []]]]]]]]]]];
    reflexivity.
Defined.

Lemma lowercased_value_shape_witness :
  normalize "country" (Some (JBool true)) = inr (Some (JStr "true")).
Proof.
  destruct (lowercased_value_shape "country" (JBool true)) as (_ & Hform).
  - apply list_elem_of_further, list_elem_of_here.
  - discriminate.
  - destruct (Hform "true" eq_refl) as [Hnormalized _]. exact Hnormalized.
Defined.

Lemma doc_describes_only_names_without_separator_witness :
  ∃ t, t ∈ sample_tools
       ∧ ¬ In "_"%char (String.list_ascii_of_string (name t))
       ∧ [{| type := "text"; text := JSON_stringify (_inputSchema backlinks_tool) |}] =
         [{| type := "text"; text := JSON_stringify (_inputSchema t) |}].
Proof.
  apply (doc_describes_only_names_without_separator (Some "secret") sample_tools
           json_upstream (call "doc" {["tool" := JStr "ahrefs_api_getBacklinks"]})
           {| content := [{| type := "text";
                             text := JSON_stringify (_inputSchema backlinks_tool) |}];
              isError := None;
              error := None |}).
  - reflexivity.
  - vm_compute. reflexivity.
Defined.

Lemma doc_without_tool_argument_witness :
  run json_upstream
    (handler (Some "secret") sample_tools
             {| params_name := "doc"; params_arguments := None |})
  = (inl (ExMcp {| code := MethodNotFound;
                   message := "MCP error -32601: Tool 'undefined' not found." |}), []).
Proof.
  rewrite (doc_without_tool_argument (Some "secret") sample_tools json_upstream
             {| params_name := "doc"; params_arguments := None |}).
  - reflexivity.
  - reflexivity.
  - vm_compute. reflexivity.
  - vm_compute. reflexivity.
Defined.

Lemma catalog_defects_rejected_witness :
  run json_upstream (handler (Some "secret") sample_tools (call "getKeywords" ∅)) =
  (inl (ExMcp {| code := MethodNotFound;
                 message := "MCP error -32601: Tool 'getKeywords' not found." |}), []).
Proof.
  destruct (catalog_defects_rejected (Some "secret") sample_tools json_upstream
              (call "getKeywords" ∅)) as [Hunknown _].
  - discriminate.
  - rewrite Hunknown; [reflexivity |]. vm_compute. reflexivity.
Defined.

Lemma handler_rejections_witness :
  ∃ config r,
    failing_upstream config = Responded r ∧ status r = 500 ∧
    (run failing_upstream
       (handler (Some "secret") sample_tools backlinks_call)).2 = [config].
Proof.
  destruct (handler_rejections (Some "secret") sample_tools failing_upstream
              backlinks_call not_primitive)
    as [(_ & m & He & _) |
        [(_ & Hdoc & _) | (tool & m & p & config & r & _ & _ & _ & _ & _ & Hnet
                           & _ & _ & _ & Htrace)]].
  - vm_compute. reflexivity.
  - discriminate.
  - discriminate.
  - exists config, r. split; [exact Hnet |]. split; [| exact Htrace].
    unfold failing_upstream in Hnet. injection Hnet as <-. reflexivity.
Defined.

Lemma http_failure_result_witness :
  ∃ config,
    run rate_limited_upstream (handler (Some "secret") sample_tools backlinks_call) =
    (inr {| content :=
              [{| type := "text";
                  text := "MCP error -32603: API Request Failed (429): " +:+
                          "rate limit exceeded" |}];
            isError := Some true;
            error :=
              Some {| code := InternalError;
                      message := "MCP error -32603: API Request Failed (429): " +:+
                                 "rate limit exceeded" |} |}, [config]).
Proof.
  destruct (map_arguments (Some "secret") "GET" "/site-explorer/{target}/backlinks"
              (_original_parameters backlinks_tool)
              (_original_request_body backlinks_tool)
              (default ∅ (params_arguments backlinks_call)))
    as [e|config] eqn:Hmap; [vm_compute in Hmap; discriminate |].
  exists config.
  destruct (http_failure_result (Some "secret") sample_tools rate_limited_upstream
              backlinks_call backlinks_tool "GET" "/site-explorer/{target}/backlinks"
              config
              {| status := 429;
                 response_headers := {["content-type" := "application/json"]};
                 response_data := JObj [("error", JStr "rate limit exceeded")] |})
    as (Hshown & _).
  - discriminate.
  - vm_compute. reflexivity.
  - reflexivity.
  - reflexivity.
  - exact Hmap.
  - reflexivity.
  - cbn. lia.
  - destruct (Hshown "rate limit exceeded" eq_refl) as (m & Hrun & Hm & _).
    vm_compute in Hm. injection Hm as <-. rewrite Hrun. reflexivity.
Defined.

Lemma network_failure_result_witness :
  ∃ result config,
    run unreachable_upstream (handler (Some "secret") sample_tools backlinks_call) =
    (inr result, [config])
    ∧ content result =
        [{| type := "text";
            text := "MCP error -32603: API Request Failed (undefined): " +:+
                    "timeout of 30000ms exceeded" |}].
Proof.
  destruct (map_arguments (Some "secret") "GET" "/site-explorer/{target}/backlinks"
              (_original_parameters backlinks_tool)
              (_original_request_body backlinks_tool)
              (default ∅ (params_arguments backlinks_call)))
    as [e|config] eqn:Hmap; [vm_compute in Hmap; discriminate |].
  eexists. exists config.
  rewrite (network_failure_result (Some "secret") sample_tools unreachable_upstream
             backlinks_call backlinks_tool "GET" "/site-explorer/{target}/backlinks"
             config "timeout of 30000ms exceeded").
  - split; reflexivity.
  - discriminate.
  - vm_compute. reflexivity.
  - reflexivity.
  - reflexivity.
  - exact Hmap.
  - reflexivity.
Defined.

Lemma result_is_success_iff_witness :
  ∃ result,
    (run rate_limited_upstream
       (handler (Some "secret") sample_tools backlinks_call)).1 = inr result
    ∧ is_error result = true.
Proof.
  destruct ((run rate_limited_upstream
               (handler (Some "secret") sample_tools backlinks_call)).1)
    as [e|result] eqn:Hrun; [vm_compute in Hrun; discriminate |].
  exists result. split; [reflexivity |].
  destruct (result_is_success_iff (Some "secret") sample_tools rate_limited_upstream
              backlinks_call backlinks_tool "GET" "/site-explorer/{target}/backlinks"
              result)
    as [Hiff [Hok | [Hbad _]]].
  - discriminate.
  - vm_compute. reflexivity.
  - reflexivity.
  - reflexivity.
  - exact Hrun.
  - apply Hiff in Hok as (config & r & _ & Hr & Hs & _).
    unfold rate_limited_upstream in Hr. injection Hr as <-. cbn in Hs. lia.
  - exact Hbad.
Defined.

Lemma mapping_failure_result_witness :
  run json_upstream
    (handler (Some "secret") sample_tools
       (call "getBacklinks"
          (<["target" := JStr lone_surrogate]> {["select" := JStr "url_from"]}))) =
  (inr {| content :=
            [{| type := "text";
                text := "MCP error -32603: Request failed: URI malformed" |}];
          isError := Some true;
          error :=
            Some {| code := InternalError;
                    message := "MCP error -32603: Request failed: URI malformed" |} |},
   []).
Proof.
  destruct (mapping_failure_result (Some "secret") sample_tools json_upstream
              (call "getBacklinks"
                 (<["target" := JStr lone_surrogate]> {["select" := JStr "url_from"]}))
              backlinks_tool "GET" "/site-explorer/{target}/backlinks"
              URI_malformed)
    as (thrown & [Hthrown | (m & Hm & _)] & Hrun).
  - discriminate.
  - vm_compute. reflexivity.
  - reflexivity.
  - reflexivity.
  - vm_compute. reflexivity.
  - injection Hthrown as <-. rewrite Hrun. reflexivity.
  - discriminate.
Defined.

Lemma posts_reach_latest_transport_witness :
  serve None
    ([PostMessages 1 2; GetSse 3] ++
     GetSse 7 :: map (λ post, PostMessages post.1 post.2) [(4, 5)%nat]) =
  (Some {| endpoint := "/messages"; stream := 7 |},
   [ServerConnect {| endpoint := "/messages"; stream := 3 |};
    ServerConnect {| endpoint := "/messages"; stream := 7 |};
    HandlePostMessage {| endpoint := "/messages"; stream := 7 |} 4 5]).
Proof.
  destruct (posts_reach_latest_transport None [PostMessages 1 2; GetSse 3] 7
              [(4, 5)%nat]) as [Hserve _].
  - intros Hin.
    repeat (apply elem_of_cons in Hin as [Hin | Hin]; [discriminate |]).
    by apply elem_of_nil in Hin.
  - rewrite Hserve. reflexivity.
Defined.

Lemma preflight_passes_iff_witness :
  preflight {| EUID := 1000;
               env_file := true;
               sourced :=
                 Some (<["SERVER_IP" := "203.0.113.7"]>
                         (<["SERVER_USER" := "deploy"]>
                            (<["DEPLOY_PATH" := "/opt/ahrefs-mcp"]>
                               (<["SERVICE_NAME" := "ahrefs-mcp"]>
                                  {["API_KEY" := ""]})))) |}
  = Some (VariableNotSet "API_KEY")
  ∧ ∃ set rest, required_vars = set ++ "API_KEY" :: rest.
Proof.
  split; [vm_compute; reflexivity |].
  destruct (preflight_passes_iff
              {| EUID := 1000;
                 env_file := true;
                 sourced :=
                   Some (<["SERVER_IP" := "203.0.113.7"]>
                           (<["SERVER_USER" := "deploy"]>
                              (<["DEPLOY_PATH" := "/opt/ahrefs-mcp"]>
                                 (<["SERVICE_NAME" := "ahrefs-mcp"]>
                                    {["API_KEY" := ""]})))) |})
    as (_ & _ & Hfirst).
  destruct (Hfirst "API_KEY") as (variables & set & rest & _ & Hsplit & _).
  - vm_compute. reflexivity.
  - by exists set, rest.
Defined.
